(** * Chat relay core of wave-downtime-tracker (src/chat-server.js)

    A shallow embedding of the session / identity / moderation core of the
    chat server: the module-level maps and sets become one [State] record,
    every socket.io handler becomes a function from a state and a payload
    to a new state and the list of events it emitted, and the values the
    handlers draw from the runtime (uuidv4, crypto.randomBytes, Math.random,
    Date.now) are arguments of the handlers. *)

From Stdlib Require Import ZArith NArith Ascii String List Bool Lia.
From stdpp Require Import base tactics option list gmap sets.

Open Scope Z_scope.

#[global] Set Warnings "-clear-no-such-hyp".

(** ** JavaScript strings

    A JavaScript string is a sequence of UTF-16 code units; [length] is the
    [.length] property. *)

Abbreviation jsstring := (list N).

Definition js (s : string) : jsstring :=
  List.map N_of_ascii (list_ascii_of_string s).

Definition in_range (lo hi c : N) : bool := (N.leb lo c && N.leb c hi)%bool.

Definition is_upper (c : N) : bool := in_range 65 90 c.
Definition is_lower (c : N) : bool := in_range 97 122 c.
Definition is_digit (c : N) : bool := in_range 48 57 c.
Definition is_alpha (c : N) : bool := (is_upper c || is_lower c)%bool.

(** [\w] of a regular expression without the [u] flag: [A-Za-z0-9_]. *)
Definition is_word (c : N) : bool := (is_alpha c || is_digit c || N.eqb c 95)%bool.

(** WhiteSpace and LineTerminator of ECMAScript: what [String.prototype.trim]
    strips and what [\s] matches. *)
Definition is_space (c : N) : bool :=
  (in_range 9 13 c || N.eqb c 32 || N.eqb c 160 || N.eqb c 5760
   || in_range 8192 8202 c || N.eqb c 8232 || N.eqb c 8233 || N.eqb c 8239
   || N.eqb c 8287 || N.eqb c 12288 || N.eqb c 65279)%bool.

(** Case mapping, written out on the ASCII letters; code units outside
    ASCII are left as they are (the Unicode case tables of the runtime are
    not part of the program).  On ASCII strings this is the mapping of the
    runtime.  Nicknames are lower-cased after they have passed the ASCII
    pattern of line 576; the text of a setNickname is upper-cased at line
    481 before any check, and there the runtime maps a few characters
    outside ASCII into A-Z (U+017F to S, U+0131 to I, U+00DF to SS), which
    this mapping does not: what is proved of that branch is proved of texts
    whose upper case in this mapping has the shape of a code, and these are
    ASCII. *)
Definition upper_cu (c : N) : N := if is_lower c then (c - 32)%N else c.
Definition lower_cu (c : N) : N := if is_upper c then (c + 32)%N else c.

Definition toUpperCase (s : jsstring) : jsstring := List.map upper_cu s.
Definition toLowerCase (s : jsstring) : jsstring := List.map lower_cu s.

Fixpoint trimStart (s : jsstring) : jsstring :=
  match s with
  | c :: r => if is_space c then trimStart r else s
  | [] => []
  end.

Definition trimEnd (s : jsstring) : jsstring := rev (trimStart (rev s)).

Definition trim (s : jsstring) : jsstring := trimEnd (trimStart s).

Definition str_eqb (a b : jsstring) : bool := bool_decide (a = b).

(** [s.substring(0, n)] *)
Definition substring0 (n : nat) (s : jsstring) : jsstring := firstn n s.

(** [chars.charAt(i)]: the empty string when [i] is out of range. *)
Definition charAt (chars : jsstring) (i : nat) : jsstring :=
  match nth_error chars i with
  | Some c => [c]
  | None => []
  end.

(** ** Regular expressions

    The regular expressions of the server use character classes,
    concatenation, alternation and repetition only, so [RegExp.prototype.test]
    is language membership; it is decided here with Brzozowski derivatives. *)

Module Re.

Inductive regex : Type :=
| Void : regex
| Eps : regex
| Cls : (N -> bool) -> regex
| Cat : regex -> regex -> regex
| Alt : regex -> regex -> regex
| Star : regex -> regex.

Fixpoint nullable (r : regex) : bool :=
  match r with
  | Void => false
  | Eps => true
  | Cls _ => false
  | Cat a b => nullable a && nullable b
  | Alt a b => nullable a || nullable b
  | Star _ => true
  end.

Definition is_void (r : regex) : bool :=
  match r with Void => true | _ => false end.

(** Smart constructors: they keep derivatives small and do not change the
    language. *)
Definition cat (a b : regex) : regex :=
  if is_void a then Void else if is_void b then Void else
  match a with Eps => b | _ => Cat a b end.

Definition alt (a b : regex) : regex :=
  if is_void a then b else if is_void b then a else Alt a b.

Fixpoint deriv (c : N) (r : regex) : regex :=
  match r with
  | Void => Void
  | Eps => Void
  | Cls p => if p c then Eps else Void
  | Cat a b =>
      if nullable a then alt (cat (deriv c a) b) (deriv c b)
      else cat (deriv c a) b
  | Alt a b => alt (deriv c a) (deriv c b)
  | Star a => cat (deriv c a) (Star a)
  end.

(** The whole string is in the language: a pattern between [^] and [$]. *)
Fixpoint matches (r : regex) (s : jsstring) : bool :=
  match s with
  | [] => nullable r
  | c :: s' => matches (deriv c r) s'
  end.

Definition any : regex := Cls (fun _ => true).
Definition chr (c : N) : regex := Cls (N.eqb c).
(** A literal character under the [i] flag. *)
Definition chr_i (c : N) : regex :=
  Cls (fun x => N.eqb (upper_cu x) (upper_cu c)).
Definition plus (r : regex) : regex := Cat r (Star r).
Definition opt (r : regex) : regex := Alt r Eps.

Fixpoint lit_i (s : jsstring) : regex :=
  match s with
  | [] => Eps
  | c :: s' => Cat (chr_i c) (lit_i s')
  end.

Fixpoint lit (s : jsstring) : regex :=
  match s with
  | [] => Eps
  | c :: s' => Cat (chr c) (lit s')
  end.

Fixpoint alts (rs : list regex) : regex :=
  match rs with
  | [] => Void
  | [r] => r
  | r :: rs' => Alt r (alts rs')
  end.

(** [r{n}] and [r{n,m}] *)
Fixpoint times (n : nat) (r : regex) : regex :=
  match n with
  | O => Eps
  | S n' => Cat r (times n' r)
  end.

Fixpoint upto (n : nat) (r : regex) : regex :=
  match n with
  | O => Eps
  | S n' => opt (Cat r (upto n' r))
  end.

Definition between (n m : nat) (r : regex) : regex :=
  Cat (times n r) (upto (m - n) r).

(** [re.test(s)] for a pattern without anchors: some substring matches. *)
Definition test (r : regex) (s : jsstring) : bool :=
  matches (Cat (Star any) (Cat r (Star any))) s.

End Re.

(** ** JavaScript values

    What a client can put in an event payload. *)

#[local] Unset Elimination Schemes.
Inductive JsVal : Type :=
| JUndefined : JsVal
| JNull : JsVal
| JBool : bool -> JsVal
| JNum : Z -> JsVal
| JStr : jsstring -> JsVal
| JObj : list (jsstring * JsVal) -> JsVal.
#[local] Set Elimination Schemes.

(** ToBoolean *)
Definition truthy (v : JsVal) : bool :=
  match v with
  | JUndefined | JNull => false
  | JBool b => b
  | JNum n => negb (Z.eqb n 0)
  | JStr s => negb (str_eqb s [])
  | JObj _ => true
  end.

(** A string-valued variable that may still be null or undefined, in a
    boolean context. *)
Definition truthy_str (o : option jsstring) : bool :=
  match o with
  | Some (_ :: _) => true
  | _ => false
  end.

Fixpoint assocGet {V : Type} (k : jsstring) (l : list (jsstring * V)) : option V :=
  match l with
  | [] => None
  | (k', v) :: r => if str_eqb k' k then Some v else assocGet k r
  end.

(** [v.name] for a value [v] that is not null or undefined: a property of
    the object, undefined on a primitive. *)
Definition get_prop (v : JsVal) (name : jsstring) : JsVal :=
  match v with
  | JObj props => default JUndefined (assocGet name props)
  | _ => JUndefined
  end.

(** ** Map: keys in insertion order *)

Module JsMap.
Section WithValue.
Context {V : Type}.

Definition t : Type := list (jsstring * V).

Definition get (m : t) (k : jsstring) : option V := assocGet k m.

Definition has (m : t) (k : jsstring) : bool :=
  match get m k with Some _ => true | None => false end.

(** [m.set(k, v)]: an existing key keeps its place, a new key goes last. *)
Fixpoint set (m : t) (k : jsstring) (v : V) : t :=
  match m with
  | [] => [(k, v)]
  | (k', v') :: r =>
      if str_eqb k' k then (k, v) :: r else (k', v') :: set r k v
  end.

Definition delete (m : t) (k : jsstring) : t :=
  List.filter (fun kv => negb (str_eqb (fst kv) k)) m.

Definition values (m : t) : list V := List.map snd m.
Definition keys (m : t) : list jsstring := List.map fst m.
End WithValue.
Arguments t : clear implicits.
End JsMap.

(** ** Data model *)

Module RegUser.
(** A value of [registeredUsers]. *)
Record t : Type := mk {
  id : jsstring;
  nickname : jsstring;
  avatarHue : Z;
  isAdmin : bool;
  ip : jsstring;
  sessionToken : jsstring;
  deviceCode : option jsstring  (* null when no code is pending *)
}.
End RegUser.

Module ActiveUser.
(** A value of [users]. *)
Record t : Type := mk {
  id : jsstring;
  nickname : jsstring;
  socketId : jsstring;
  avatarHue : Z;
  joinedAt : Z;
  isAdmin : bool;
  ip : jsstring
}.
End ActiveUser.

Module Message.
Record t : Type := mk {
  id : jsstring;
  userId : jsstring;
  nickname : jsstring;
  avatarHue : Z;
  message : jsstring;
  timestamp : Z
}.
End Message.

Module Socket.
(** The variables of one run of the connection callback. *)
Record t : Type := mk {
  clientIP : jsstring;
  clientFingerprint : option jsstring;  (* socket.clientFingerprint *)
  userId : option jsstring              (* socket.userId *)
}.
End Socket.

#[global] Instance RegUser_eq_dec : EqDecision RegUser.t.
Proof. solve_decision. Defined.
#[global] Instance Message_eq_dec : EqDecision Message.t.
Proof. solve_decision. Defined.

Definition MESSAGE_RETENTION_TIME : Z := 24 * 60 * 60 * 1000.

Record State : Type := mkState {
  users : gmap jsstring ActiveUser.t; (* socketId -> active user of that socket *)
  userSessions : gmap jsstring (gset jsstring); (* userId -> Set of socketIds *)
  registeredUsers : JsMap.t RegUser.t; (* permanent storage: userId -> registered user (a Map, in insertion order) *)
  sessionTokens : gmap jsstring jsstring; (* sessionToken -> userId *)
  messages : list Message.t; (* the message log, oldest first *)
  bannedUsers : gset jsstring; (* banned userIds *)
  bannedNicknames : gset jsstring; (* banned nicknames (lowercase) *)
  bannedIPs : gset jsstring; (* banned IP addresses *)
  bannedFingerprints : gset jsstring; (* banned browser fingerprints *)
  userFingerprints : gmap jsstring jsstring; (* userId -> fingerprint *)
  userLastMessages : gmap jsstring jsstring; (* userId -> last accepted message *)
  adminId : option jsstring; (* null until the admin registers *)
  allConnections : gset jsstring; (* ids of all live sockets *)
  sockets : gmap jsstring Socket.t (* io.sockets.sockets with the per-connection variables of the connection callback *)
}.

(** Functional record update, one setter per field. *)
Definition set_users (v : gmap jsstring ActiveUser.t) (s : State) : State :=
  mkState v (userSessions s) (registeredUsers s) (sessionTokens s) (messages
    s) (bannedUsers s) (bannedNicknames s) (bannedIPs s) (bannedFingerprints
    s) (userFingerprints s) (userLastMessages s) (adminId s) (allConnections
    s) (sockets s).
Definition set_userSessions (v : gmap jsstring (gset jsstring)) (s : State) : State :=
  mkState (users s) v (registeredUsers s) (sessionTokens s) (messages s)
    (bannedUsers s) (bannedNicknames s) (bannedIPs s) (bannedFingerprints s)
    (userFingerprints s) (userLastMessages s) (adminId s) (allConnections s)
    (sockets s).
Definition set_registeredUsers (v : JsMap.t RegUser.t) (s : State) : State :=
  mkState (users s) (userSessions s) v (sessionTokens s) (messages s)
    (bannedUsers s) (bannedNicknames s) (bannedIPs s) (bannedFingerprints s)
    (userFingerprints s) (userLastMessages s) (adminId s) (allConnections s)
    (sockets s).
Definition set_sessionTokens (v : gmap jsstring jsstring) (s : State) : State :=
  mkState (users s) (userSessions s) (registeredUsers s) v (messages s)
    (bannedUsers s) (bannedNicknames s) (bannedIPs s) (bannedFingerprints s)
    (userFingerprints s) (userLastMessages s) (adminId s) (allConnections s)
    (sockets s).
Definition set_messages (v : list Message.t) (s : State) : State :=
  mkState (users s) (userSessions s) (registeredUsers s) (sessionTokens s) v
    (bannedUsers s) (bannedNicknames s) (bannedIPs s) (bannedFingerprints s)
    (userFingerprints s) (userLastMessages s) (adminId s) (allConnections s)
    (sockets s).
Definition set_bannedUsers (v : gset jsstring) (s : State) : State :=
  mkState (users s) (userSessions s) (registeredUsers s) (sessionTokens s)
    (messages s) v (bannedNicknames s) (bannedIPs s) (bannedFingerprints s)
    (userFingerprints s) (userLastMessages s) (adminId s) (allConnections s)
    (sockets s).
Definition set_bannedNicknames (v : gset jsstring) (s : State) : State :=
  mkState (users s) (userSessions s) (registeredUsers s) (sessionTokens s)
    (messages s) (bannedUsers s) v (bannedIPs s) (bannedFingerprints s)
    (userFingerprints s) (userLastMessages s) (adminId s) (allConnections s)
    (sockets s).
Definition set_bannedIPs (v : gset jsstring) (s : State) : State :=
  mkState (users s) (userSessions s) (registeredUsers s) (sessionTokens s)
    (messages s) (bannedUsers s) (bannedNicknames s) v (bannedFingerprints s)
    (userFingerprints s) (userLastMessages s) (adminId s) (allConnections s)
    (sockets s).
Definition set_bannedFingerprints (v : gset jsstring) (s : State) : State :=
  mkState (users s) (userSessions s) (registeredUsers s) (sessionTokens s)
    (messages s) (bannedUsers s) (bannedNicknames s) (bannedIPs s) v
    (userFingerprints s) (userLastMessages s) (adminId s) (allConnections s)
    (sockets s).
Definition set_userFingerprints (v : gmap jsstring jsstring) (s : State) : State :=
  mkState (users s) (userSessions s) (registeredUsers s) (sessionTokens s)
    (messages s) (bannedUsers s) (bannedNicknames s) (bannedIPs s)
    (bannedFingerprints s) v (userLastMessages s) (adminId s) (allConnections
    s) (sockets s).
Definition set_userLastMessages (v : gmap jsstring jsstring) (s : State) : State :=
  mkState (users s) (userSessions s) (registeredUsers s) (sessionTokens s)
    (messages s) (bannedUsers s) (bannedNicknames s) (bannedIPs s)
    (bannedFingerprints s) (userFingerprints s) v (adminId s) (allConnections
    s) (sockets s).
Definition set_adminId (v : option jsstring) (s : State) : State :=
  mkState (users s) (userSessions s) (registeredUsers s) (sessionTokens s)
    (messages s) (bannedUsers s) (bannedNicknames s) (bannedIPs s)
    (bannedFingerprints s) (userFingerprints s) (userLastMessages s) v
    (allConnections s) (sockets s).
Definition set_allConnections (v : gset jsstring) (s : State) : State :=
  mkState (users s) (userSessions s) (registeredUsers s) (sessionTokens s)
    (messages s) (bannedUsers s) (bannedNicknames s) (bannedIPs s)
    (bannedFingerprints s) (userFingerprints s) (userLastMessages s) (adminId
    s) v (sockets s).
Definition set_sockets (v : gmap jsstring Socket.t) (s : State) : State :=
  mkState (users s) (userSessions s) (registeredUsers s) (sessionTokens s)
    (messages s) (bannedUsers s) (bannedNicknames s) (bannedIPs s)
    (bannedFingerprints s) (userFingerprints s) (userLastMessages s) (adminId
    s) (allConnections s) v.

Definition init : State :=
  mkState ∅ ∅ [] ∅ [] ∅ ∅ ∅ ∅ ∅ ∅ None ∅ ∅.

(** ** What the server emits *)

Inductive AcceptKind : Type := Registered | IsRejoin | IsDeviceLogin.

Inductive ServerEvent : Type :=
| EBanned
| EOnlineCount (n : nat)
| ESessionValid (userId nickname : jsstring) (avatarHue : Z) (isAdmin : bool)
    (sessionToken : jsstring)
| EInvalidSession
| EError (message : string)
| ENicknameAccepted (userId nickname : jsstring) (avatarHue : Z)
    (deviceCode : option jsstring) (sessionToken : jsstring) (isAdmin : bool)
    (kind : AcceptKind)
| EMessageHistory (recentMessages : list Message.t)
| EUserJoined (nickname : jsstring) (onlineCount : nat)
| EUserLeft (nickname : jsstring) (onlineCount : nat) (banned : bool)
| EMessage (m : Message.t)
| EMessageDeleted (messageId : jsstring)
| EDeviceCodeGenerated (deviceCode : jsstring)
| EDeviceCodeDeleted.

Inductive Output : Type :=
| ToSocket (socketId : jsstring) (e : ServerEvent)  (* socket.emit *)
| ToAll (e : ServerEvent)                           (* io.emit *)
| Disconnect (socketId : jsstring)                  (* socket.disconnect(true) *)
| SaveData                                          (* a call of saveData() *)
| Http (status : nat).                              (* res.status(..).json(..) *)

(** A handler runs to its end, or an exception leaves it. *)
Inductive Result : Type :=
| Done (s : State) (out : list Output)
| Uncaught (error : string).

(** ** Device codes (lines 79-102) *)

(** The successive values of [Math.floor(Math.random() * chars.length)]. *)
Definition Rand : Type := nat -> nat.

Definition chars : jsstring := js "ABCDEFGHIJKLMNOPQRSTUVWXYZ0123456789".

Fixpoint drawChars (n : nat) (rnd : Rand) (pos : nat) (code : jsstring)
  : jsstring * nat :=
  match n with
  | O => (code, pos)
  | S n' => drawChars n' rnd (S pos) (code ++ charAt chars (rnd pos))
  end.

(** Returns the code and the number of draws consumed so far. *)
Definition generateDeviceCode (rnd : Rand) (pos : nat) : jsstring * nat :=
  drawChars 4 rnd pos [].

Definition code_assigned (reg : JsMap.t RegUser.t) (code : jsstring) : bool :=
  existsb (fun user => bool_decide (RegUser.deviceCode user = Some code))
    (JsMap.values reg).

(** The do-while loop.  [budget] is [101 - attempts] after the increment of
    this iteration: the first iteration runs with budget 100 and the 101st,
    where [attempts > 100] holds, with budget 0. *)
Fixpoint uniqueLoop (budget : nat) (reg : JsMap.t RegUser.t) (rnd : Rand)
  (pos : nat) : jsstring * nat :=
  let '(code, pos1) := generateDeviceCode rnd pos in
  match budget with
  | O =>
      let '(a, pos2) := generateDeviceCode rnd pos1 in
      let '(b, pos3) := generateDeviceCode rnd pos2 in
      (a ++ substring0 2 b, pos3)
  | S budget' =>
      if code_assigned reg code then uniqueLoop budget' reg rnd pos1
      else (code, pos1)
  end.

Definition generateUniqueDeviceCode (reg : JsMap.t RegUser.t) (rnd : Rand)
  : jsstring :=
  fst (uniqueLoop 100 reg rnd 0).

(** ** Token and code lookup (lines 105-139) *)

Definition validateSessionToken (st : State) (sessionToken : JsVal)
  : option RegUser.t :=
  match sessionToken with
  | JStr tok =>
      if negb (truthy (JStr tok)) then None else
      match sessionTokens st !! tok with
      | Some userId =>
          if negb (truthy (JStr userId)) then None else
          match JsMap.get (registeredUsers st) userId with
          | Some user =>
              if str_eqb (RegUser.sessionToken user) tok then Some user
              else None
          | None => None
          end
      | None => None
      end
  | _ => None
  end.

Definition validateDeviceCode (st : State) (deviceCode : JsVal)
  : option RegUser.t :=
  match deviceCode with
  | JStr code =>
      if negb (truthy (JStr code)) then None else
      List.find (fun user => bool_decide (RegUser.deviceCode user = Some code))
        (JsMap.values (registeredUsers st))
  | _ => None
  end.

(** ** Nickname availability (lines 345-361), with [excludeUserId = null] *)

Definition isNicknameAvailable (st : State) (nickname : jsstring) : bool :=
  let lowerNickname := toLowerCase nickname in
  if bool_decide (lowerNickname ∈ bannedNicknames st) then false
  else negb (existsb
               (fun user => str_eqb (toLowerCase (RegUser.nickname user))
                              lowerNickname)
               (JsMap.values (registeredUsers st))).

(** ** The regular expressions of the handlers *)

Definition non_space : Re.regex := Re.Cls (fun c => negb (is_space c)).
Definition word : Re.regex := Re.Cls is_word.

(** [/^[A-Z0-9]{4,6}$/] *)
Definition deviceCodeShape : Re.regex :=
  Re.between 4 6 (Re.Cls (fun c => is_upper c || is_digit c)).

(** [/^[a-zA-Z0-9_]+$/] *)
Definition englishOnly : Re.regex := Re.plus word.

Definition tlds : list string :=
  ["com"; "ru"; "net"; "org"; "io"; "gg"; "xyz"; "me"; "co"; "uk"; "us"; "tv";
   "yt"; "cc"; "link"; "site"; "online"; "store"; "app"; "dev"; "tech"]%string.

(** The pattern of [urlRegex], flags [gi], has three alternatives:
    [https?:\/\/] then one or more non-space characters; [www\.] then one or
    more non-space characters; one or more of [a-zA-Z0-9-], a dot, one of the
    listed top-level domains, then any number of non-space characters.
    The literal is evaluated anew on every call of the handler, so the
    [lastIndex] of the [g] flag is 0 at each [test]. *)
Definition urlRegex : Re.regex :=
  Re.alts
    [ Re.Cat (Re.lit_i (js "http"))
        (Re.Cat (Re.opt (Re.chr_i 115))
           (Re.Cat (Re.lit (js "://")) (Re.plus non_space)));
      Re.Cat (Re.lit_i (js "www"))
        (Re.Cat (Re.chr 46) (Re.plus non_space));
      Re.Cat (Re.plus (Re.Cls (fun c => is_alpha c || is_digit c || N.eqb c 45)))
        (Re.Cat (Re.chr 46)
           (Re.Cat (Re.alts (List.map (fun t => Re.lit_i (js t)) tlds))
                   (Re.Star non_space))) ].

(** [/@\w+/] *)
Definition mentionRegex : Re.regex := Re.Cat (Re.chr 64) (Re.plus word).

(** The character class of [hasNonEnglish]. *)
Definition nonEnglishClass (c : N) : bool :=
  in_range 1072 1103 c        (* U+0430-U+044F *)
  || in_range 1040 1071 c     (* U+0410-U+042F *)
  || N.eqb c 1105             (* U+0451 *)
  || N.eqb c 1025             (* U+0401 *)
  || in_range 1024 1279 c     (* \u0400-\u04FF *)
  || in_range 19968 40959 c   (* \u4E00-\u9FFF *)
  || in_range 12352 12447 c   (* \u3040-\u309F *)
  || in_range 12448 12543 c   (* \u30A0-\u30FF *)
  || in_range 44032 55215 c   (* \uAC00-\uD7AF *)
  || in_range 1424 1535 c     (* \u0590-\u05FF *)
  || in_range 1536 1791 c     (* \u0600-\u06FF *)
  || in_range 1872 1919 c     (* \u0750-\u077F *)
  || in_range 2304 2431 c     (* \u0900-\u097F *)
  || in_range 65280 65519 c.  (* \uFF00-\uFFEF *)

(** ** Handlers

    Every handler below is the body of the corresponding [socket.on]
    callback.  [sid] is [socket.id]; the socket's record in [sockets] holds
    [clientIP], [socket.clientFingerprint] and [socket.userId].  A socket is
    in [sockets] from the end of the connection callback until it
    disconnects; no event reaches a handler of a socket that is not there.

    One argument [now] stands for every [Date.now()] of one run of a
    handler.  A [forEach] over a Set of socket ids visits them in the order
    of [elements]; the order of the notices to different sockets is the one
    thing that this leaves open. *)

Definition size_of (s : gset jsstring) : nat := size s.

Definition emit_error (st : State) (sid : jsstring) (msg : string)
  : State * list Output :=
  (st, [ToSocket sid (EError msg)]).

(** *** disconnect (lines 998-1030) *)

Definition on_disconnect (st : State) (sid : jsstring) : State * list Output :=
  match sockets st !! sid with
  | None => (st, [])
  | Some sk =>
      let st1 :=
        set_sockets (delete sid (sockets st))
          (set_allConnections (allConnections st ∖ {[sid]}) st) in
      let o1 := [ToAll (EOnlineCount (size_of (allConnections st1)))] in
      match Socket.userId sk, users st1 !! sid with
      | Some uid, Some user =>
          if negb (truthy_str (Some uid)) then (st1, o1) else
          let st2 := set_users (delete sid (users st1)) st1 in
          match userSessions st2 !! uid with
          | Some sessions =>
              let sessions' := sessions ∖ {[sid]} in
              if Nat.eqb (size_of sessions') 0 then
                (set_userSessions (delete uid (userSessions st2)) st2,
                 o1 ++ [ToAll (EUserLeft (ActiveUser.nickname user)
                                  (size_of (allConnections st2)) false)])
              else
                (set_userSessions (<[uid := sessions']> (userSessions st2)) st2,
                 o1)
          | None => (st2, o1)
          end
      | _, _ => (st1, o1)
      end
  end.

(** [socket.disconnect(true)]: nothing on a socket that is closed already;
    otherwise the connection is closed and its disconnect handler runs
    before the call returns. *)
Definition force_disconnect (st : State) (sid : jsstring)
  : State * list Output :=
  match sockets st !! sid with
  | None => (st, [])
  | Some _ =>
      let '(st', o) := on_disconnect st sid in
      (st', Disconnect sid :: o)
  end.

(** [socket.emit('banned'); socket.disconnect(true); return] of a handler. *)
Definition ban_out (st : State) (sid : jsstring) : State * list Output :=
  let '(st', o) := force_disconnect st sid in
  (st', ToSocket sid EBanned :: o).

(** The IP-change branch shared by the connection callback (lines 425-445)
    and the rejoin handler (lines 705-726): the stored user object is
    updated in place and stays in [registeredUsers] under [user.id]. *)
Definition rotateOnIpChange (st : State) (user : RegUser.t)
  (clientIP newSessionToken : jsstring) : State * RegUser.t * list Output :=
  if str_eqb (RegUser.ip user) clientIP then (st, user, [])
  else
    let user' :=
      RegUser.mk (RegUser.id user) (RegUser.nickname user)
        (RegUser.avatarHue user) (RegUser.isAdmin user) clientIP
        newSessionToken (RegUser.deviceCode user) in
    let tokens :=
      <[newSessionToken := RegUser.id user]>
        (delete (RegUser.sessionToken user) (sessionTokens st)) in
    (set_registeredUsers
       (JsMap.set (registeredUsers st) (RegUser.id user) user')
       (set_sessionTokens tokens st),
     user', [SaveData]).

(** *** connection (lines 366-462)

    [cookie] is the value of the [chatSession] cookie of the handshake, when
    there is one. *)
Definition on_connection (st : State) (sid clientIP : jsstring)
  (cookie : option jsstring) (newSessionToken : jsstring)
  : State * list Output :=
  let st1 := set_allConnections ({[sid]} ∪ allConnections st) st in
  if bool_decide (clientIP ∈ bannedIPs st1) then
    (set_allConnections (allConnections st1 ∖ {[sid]}) st1,
     [ToSocket sid EBanned; Disconnect sid])
  else
    let o1 := [ToAll (EOnlineCount (size_of (allConnections st1)))] in
    let st2 :=
      set_sockets (<[sid := Socket.mk clientIP None None]> (sockets st1)) st1 in
    match cookie with
    | Some tok =>
        if negb (truthy_str (Some tok)) then (st2, o1) else
        match validateSessionToken st1 (JStr tok) with
        | Some user =>
            if bool_decide (RegUser.id user ∈ bannedUsers st1) then
              (set_allConnections (allConnections st1 ∖ {[sid]}) st1,
               o1 ++ [ToSocket sid EBanned; Disconnect sid])
            else
              let '(st3, user', o2) :=
                rotateOnIpChange st2 user clientIP newSessionToken in
              (st3,
               o1 ++ o2 ++
               [ToSocket sid
                  (ESessionValid (RegUser.id user') (RegUser.nickname user')
                     (RegUser.avatarHue user') (RegUser.isAdmin user')
                     (RegUser.sessionToken user'))])
        | None => (st2, o1 ++ [ToSocket sid EInvalidSession])
        end
    | None => (st2, o1)
    end.

(** *** setFingerprint (lines 384-397) *)

Definition on_setFingerprint (st : State) (sid : jsstring) (fingerprint : JsVal)
  : State * list Output :=
  match sockets st !! sid, fingerprint with
  | Some sk, JStr fp =>
      if negb (truthy fingerprint) then (st, []) else
      let sk' := Socket.mk (Socket.clientIP sk) (Some fp) (Socket.userId sk) in
      let st1 := set_sockets (<[sid := sk']> (sockets st)) st in
      if bool_decide (fp ∈ bannedFingerprints st1) then
        let '(st2, o) := ban_out st1 sid in
        (set_allConnections (allConnections st2 ∖ {[sid]}) st2, o)
      else (st1, [])
  | _, _ => (st, [])
  end.

(** [users.set(socket.id, activeUser); socket.userId = user.id] *)
Definition attach (st : State) (sid : jsstring) (sk : Socket.t)
  (activeUser : ActiveUser.t) : State :=
  set_sockets
    (<[sid := Socket.mk (Socket.clientIP sk) (Socket.clientFingerprint sk)
                (Some (ActiveUser.id activeUser))]> (sockets st))
    (set_users (<[sid := activeUser]> (users st)) st).

(** [if (!userSessions.has(id)) userSessions.set(id, new Set());
     userSessions.get(id).add(socket.id)] *)
Definition trackSession (st : State) (uid sid : jsstring) : State :=
  set_userSessions
    (<[uid := {[sid]} ∪ default ∅ (userSessions st !! uid)]> (userSessions st))
    st.

Definition recentMessages (st : State) (now : Z) : list Message.t :=
  List.filter (fun msg => Z.ltb (now - MESSAGE_RETENTION_TIME)
                            (Message.timestamp msg))
    (messages st).

Definition socket_banned (st : State) (sk : Socket.t) : bool :=
  bool_decide (Socket.clientIP sk ∈ bannedIPs st)
  || match Socket.clientFingerprint sk with
     | Some fp => truthy_str (Some fp)
                  && bool_decide (fp ∈ bannedFingerprints st)
     | None => false
     end.

(** *** setNickname (lines 464-661) *)

(** The device-code login branch (lines 484-563), entered with the user that
    [validateDeviceCode] returned. *)
Definition deviceLogin (st : State) (sid : jsstring) (sk : Socket.t)
  (deviceCodeUser : RegUser.t) (newSessionToken : jsstring) (now : Z)
  : State * list Output :=
  let uid := RegUser.id deviceCodeUser in
  if bool_decide (uid ∈ bannedUsers st) then (st, [ToSocket sid EBanned])
  else
    let user' :=
      RegUser.mk uid (RegUser.nickname deviceCodeUser)
        (RegUser.avatarHue deviceCodeUser) (RegUser.isAdmin deviceCodeUser)
        (RegUser.ip deviceCodeUser) (RegUser.sessionToken deviceCodeUser)
        None in
    let st1 :=
      set_registeredUsers (JsMap.set (registeredUsers st) uid user') st in
    let notices :=
      match userSessions st1 !! uid with
      | Some sessions =>
          List.map (fun s => ToSocket s EDeviceCodeDeleted)
            (List.filter (fun s => bool_decide (is_Some (sockets st1 !! s)))
               (elements sessions))
      | None => []
      end in
    let st2 :=
      set_sessionTokens (<[newSessionToken := uid]> (sessionTokens st1)) st1 in
    let activeUser :=
      ActiveUser.mk uid (RegUser.nickname user') sid (RegUser.avatarHue user')
        now (RegUser.isAdmin user') (Socket.clientIP sk) in
    let st3 := trackSession (attach st2 sid sk activeUser) uid sid in
    (st3,
     [SaveData] ++ notices ++
     [ToSocket sid
        (ENicknameAccepted uid (RegUser.nickname user')
           (RegUser.avatarHue user') None newSessionToken
           (RegUser.isAdmin user') IsDeviceLogin);
      ToSocket sid (EMessageHistory (recentMessages st3 now));
      ToAll (EUserJoined (RegUser.nickname user')
               (size_of (allConnections st3)))]).

(** Registration of a new user (lines 567-660). *)
Definition register (st : State) (sid : jsstring) (sk : Socket.t)
  (nickname userId sessionToken : jsstring) (avatarHue now : Z)
  : State * list Output :=
  if negb (truthy (JStr nickname))
     || Nat.ltb (length (trim nickname)) 3
     || Nat.ltb 20 (length nickname) then
    emit_error st sid "Nickname must be 3-20 characters"
  else if negb (Re.matches englishOnly nickname) then
    emit_error st sid
      "Nickname must contain only English letters, numbers, and underscores"
  else if negb (isNicknameAvailable st nickname) then
    emit_error st sid "Nickname already taken"
  else
    let isAdmin :=
      negb (truthy_str (adminId st))
      && str_eqb (toLowerCase nickname) (js "mefisto") in
    let st1 := if isAdmin then set_adminId (Some userId) st else st in
    let user :=
      ActiveUser.mk userId nickname sid avatarHue now isAdmin
        (Socket.clientIP sk) in
    let st2 := attach st1 sid sk user in
    let st3 :=
      match Socket.clientFingerprint sk with
      | Some fp =>
          if truthy_str (Some fp) then
            set_userFingerprints (<[userId := fp]> (userFingerprints st2)) st2
          else st2
      | None => st2
      end in
    let st4 :=
      set_registeredUsers
        (JsMap.set (registeredUsers st3) userId
           (RegUser.mk userId nickname avatarHue isAdmin (Socket.clientIP sk)
              sessionToken None)) st3 in
    let st5 :=
      set_sessionTokens (<[sessionToken := userId]> (sessionTokens st4)) st4 in
    (st5,
     [SaveData;
      ToSocket sid
        (ENicknameAccepted userId nickname avatarHue None sessionToken isAdmin
           Registered);
      ToSocket sid (EMessageHistory (recentMessages st5 now));
      ToAll (EUserJoined nickname (size_of (allConnections st5)))]).

(** [userId], [sessionToken] and [avatarHue] are the values of [uuidv4()],
    [generateSessionToken()] and [generateAvatarHue()], [now] that of
    [Date.now()]. *)
Definition on_setNickname (st : State) (sid : jsstring) (nickname : JsVal)
  (userId sessionToken : jsstring) (avatarHue now : Z) : Result :=
  match sockets st !! sid with
  | None => Done st []
  | Some sk =>
      if socket_banned st sk then
        let '(st', o) := ban_out st sid in Done st' o
      else
        match nickname with
        | JStr s =>
            let deviceCodeUser :=
              if truthy nickname
                 && Re.matches deviceCodeShape (toUpperCase s)
              then validateDeviceCode st (JStr (toUpperCase s))
              else None in
            match deviceCodeUser with
            | Some user =>
                let '(st', o) := deviceLogin st sid sk user sessionToken now in
                Done st' o
            | None =>
                let '(st', o) :=
                  register st sid sk s userId sessionToken avatarHue now in
                Done st' o
            end
        | _ =>
            (* a value without a toUpperCase method *)
            if truthy nickname then
              Uncaught "TypeError: nickname.toUpperCase is not a function"
            else
              let '(st', o) :=
                emit_error st sid "Nickname must be 3-20 characters" in
              Done st' o
        end
  end.

(** *** rejoin (lines 663-778) *)

Definition on_rejoin (st : State) (sid : jsstring) (userData : JsVal)
  (newSessionToken : jsstring) (now : Z) : State * list Output :=
  match sockets st !! sid with
  | None => (st, [])
  | Some sk =>
      if socket_banned st sk then ban_out st sid
      else if negb (truthy userData)
              || negb (truthy (get_prop userData (js "sessionToken"))) then
        emit_error st sid "Invalid session data"
      else
        match validateSessionToken st (get_prop userData (js "sessionToken")) with
        | None => (st, [ToSocket sid EInvalidSession])
        | Some user =>
            if bool_decide (RegUser.id user ∈ bannedUsers st) then
              (st, [ToSocket sid EBanned])
            else
              let '(st1, user', o1) :=
                rotateOnIpChange st user (Socket.clientIP sk) newSessionToken in
              let uid := RegUser.id user' in
              let activeUser :=
                ActiveUser.mk uid (RegUser.nickname user') sid
                  (RegUser.avatarHue user') now (RegUser.isAdmin user')
                  (Socket.clientIP sk) in
              let st2 := trackSession (attach st1 sid sk activeUser) uid sid in
              (st2,
               o1 ++
               [ToSocket sid
                  (ENicknameAccepted uid (RegUser.nickname user')
                     (RegUser.avatarHue user') (RegUser.deviceCode user')
                     (RegUser.sessionToken user') (RegUser.isAdmin user')
                     IsRejoin);
                ToSocket sid (EMessageHistory (recentMessages st2 now));
                ToAll (EUserJoined (RegUser.nickname user')
                         (size_of (allConnections st2)))])
        end
  end.

(** *** generateDeviceCode (lines 780-806) *)

Definition on_generateDeviceCode (st : State) (sid : jsstring) (rnd : Rand)
  : State * list Output :=
  match sockets st !! sid with
  | None => (st, [])
  | Some sk =>
      match (if truthy_str (Socket.userId sk) then users st !! sid else None)
      with
      | None => emit_error st sid "You must be logged in"
      | Some user =>
          match JsMap.get (registeredUsers st) (ActiveUser.id user) with
          | None => emit_error st sid "User not found"
          | Some registeredUser =>
              let newDeviceCode :=
                generateUniqueDeviceCode (registeredUsers st) rnd in
              let registeredUser' :=
                RegUser.mk (RegUser.id registeredUser)
                  (RegUser.nickname registeredUser)
                  (RegUser.avatarHue registeredUser)
                  (RegUser.isAdmin registeredUser) (RegUser.ip registeredUser)
                  (RegUser.sessionToken registeredUser) (Some newDeviceCode) in
              (set_registeredUsers
                 (JsMap.set (registeredUsers st) (ActiveUser.id user)
                    registeredUser') st,
               [SaveData; ToSocket sid (EDeviceCodeGenerated newDeviceCode)])
          end
      end
  end.

(** *** message (lines 808-896) *)

Definition lettersOnly (s : jsstring) : jsstring := List.filter is_alpha s.

Definition hasLink (trimmedMessage : jsstring) : bool :=
  Re.test urlRegex trimmedMessage.
Definition hasMention (trimmedMessage : jsstring) : bool :=
  Re.test mentionRegex trimmedMessage.
Definition isDuplicate (st : State) (uid trimmedMessage : jsstring) : bool :=
  bool_decide (userLastMessages st !! uid = Some trimmedMessage).
Definition isCaps (trimmedMessage : jsstring) : bool :=
  Nat.leb 3 (length (lettersOnly trimmedMessage))
  && str_eqb (lettersOnly trimmedMessage)
       (toUpperCase (lettersOnly trimmedMessage)).
Definition hasNonEnglish (trimmedMessage : jsstring) : bool :=
  existsb nonEnglishClass trimmedMessage.

(** [messageId] is the value of [uuidv4()], [now] that of [Date.now()]. *)
Definition on_message (st : State) (sid : jsstring) (messageText : JsVal)
  (messageId : jsstring) (now : Z) : Result :=
  match sockets st !! sid with
  | None => Done st []
  | Some sk =>
      match (if truthy_str (Socket.userId sk) then users st !! sid else None),
            Socket.userId sk with
      | Some user, Some uid =>
          if bool_decide (uid ∈ bannedUsers st) then
            Done st [ToSocket sid EBanned]
          else
            match messageText with
            | JStr text =>
                if negb (truthy messageText)
                   || Nat.eqb (length (trim text)) 0
                   || Nat.ltb 100 (length text) then
                  Done st [ToSocket sid (EError "Message must be 1-100 characters")]
                else
                  let trimmedMessage := trim text in
                  if hasLink trimmedMessage then
                    Done st [ToSocket sid (EError "Links are not allowed in chat")]
                  else if hasMention trimmedMessage then
                    Done st [ToSocket sid
                               (EError "Mentions (@username) are not allowed")]
                  else if isDuplicate st uid trimmedMessage then
                    Done st [ToSocket sid (EError "Cannot send duplicate messages")]
                  else if isCaps trimmedMessage then
                    Done st [ToSocket sid (EError "Please do not use all CAPS")]
                  else if hasNonEnglish trimmedMessage then
                    Done st [ToSocket sid
                               (EError "Only English language is allowed in chat")]
                  else
                    let message :=
                      Message.mk messageId (ActiveUser.id user)
                        (ActiveUser.nickname user) (ActiveUser.avatarHue user)
                        trimmedMessage now in
                    let st1 :=
                      set_messages (messages st ++ [message])
                        (set_userLastMessages
                           (<[uid := trimmedMessage]> (userLastMessages st)) st) in
                    Done st1
                      ((if Nat.eqb (length (messages st1) mod 10) 0
                        then [SaveData] else [])
                       ++ [ToAll (EMessage message)])
            | _ =>
                (* a value without a trim method *)
                if truthy messageText then
                  Uncaught "TypeError: messageText.trim is not a function"
                else
                  Done st [ToSocket sid (EError "Message must be 1-100 characters")]
            end
      | _, _ => Done st [ToSocket sid (EError "You must set a nickname first")]
      end
  end.

(** *** banUser (lines 898-996) *)

(** The loop of lines 956-962 visits the log from its last message to its
    first; [rmsgs] is the log in that order.  Returns [messagesToRemove] and
    what is left of the log, last message first. *)
Fixpoint removeMessagesOf (targetUserId : jsstring) (rmsgs : list Message.t)
  : list jsstring * list Message.t :=
  match rmsgs with
  | [] => ([], [])
  | m :: r =>
      let '(removed, kept) := removeMessagesOf targetUserId r in
      if str_eqb (Message.userId m) targetUserId
      then (Message.id m :: removed, kept)
      else (removed, m :: kept)
  end.

(** One turn of the [forEach] over the sessions of the banned user
    (lines 971-979). *)
Definition banSession (acc : State * list Output) (sessionSocketId : jsstring)
  : State * list Output :=
  let '(st, out) := acc in
  let '(st1, o1) :=
    match sockets st !! sessionSocketId with
    | Some _ => ban_out st sessionSocketId
    | None => (st, [])
    end in
  (set_users (delete sessionSocketId (users st1)) st1, out ++ o1).

(** The additions to the ban sets and the removal of the session token
    (lines 922-953). *)
Definition banRecords (st : State) (target : jsstring)
  (targetUserData : RegUser.t) : State :=
  let st1 :=
    set_bannedNicknames
      ({[toLowerCase (RegUser.nickname targetUserData)]} ∪ bannedNicknames st)
      (set_bannedUsers ({[target]} ∪ bannedUsers st) st) in
  let adminIP :=
    if truthy_str (adminId st1) then
      match adminId st1 with
      | Some a => option_map RegUser.ip (JsMap.get (registeredUsers st1) a)
      | None => None
      end
    else None in
  let st2 :=
    if truthy_str (Some (RegUser.ip targetUserData))
       && negb (bool_decide (Some (RegUser.ip targetUserData) = adminIP))
    then set_bannedIPs ({[RegUser.ip targetUserData]} ∪ bannedIPs st1) st1
    else st1 in
  let st3 :=
    match userFingerprints st2 !! target with
    | Some fingerprint =>
        set_bannedFingerprints ({[fingerprint]} ∪ bannedFingerprints st2) st2
    | None => st2
    end in
  if truthy_str (Some (RegUser.sessionToken targetUserData))
  then set_sessionTokens
         (delete (RegUser.sessionToken targetUserData) (sessionTokens st3)) st3
  else st3.

(** The removal of the target's messages and its notices (lines 955-967). *)
Definition banMessages (st : State) (target : jsstring)
  : State * list Output :=
  let '(messagesToRemove, rkept) :=
    removeMessagesOf target (rev (messages st)) in
  (set_messages (rev rkept) st,
   List.map (fun messageId => ToAll (EMessageDeleted messageId))
     messagesToRemove).

(** The disconnection of the target's sessions (lines 969-981). *)
Definition banSessions (st : State) (target : jsstring)
  : State * list Output :=
  match userSessions st !! target with
  | Some sessions =>
      let '(s, o) := fold_left banSession (elements sessions) (st, []) in
      (set_userSessions (delete target (userSessions s)) s, o)
  | None => (st, [])
  end.

Definition on_banUser (st : State) (sid : jsstring) (targetUserId : JsVal)
  : State * list Output :=
  match sockets st !! sid with
  | None => (st, [])
  | Some sk =>
      if negb (truthy_str (Socket.userId sk))
         || negb (bool_decide (Socket.userId sk = adminId st)) then
        emit_error st sid "Only admin can ban users"
      else
        match targetUserId with
        | JStr target =>
            match JsMap.get (registeredUsers st) target with
            | None => emit_error st sid "User not found"
            | Some targetUserData =>
                if bool_decide (Some target = adminId st) then
                  emit_error st sid "Cannot ban admin"
                else
                  let st4 := banRecords st target targetUserData in
                  let '(st5, o5) := banMessages st4 target in
                  let '(st6, o6) := banSessions st5 target in
                  let st7 :=
                    set_registeredUsers
                      (JsMap.delete (registeredUsers st6) target) st6 in
                  (st7,
                   o5 ++ o6 ++
                   [SaveData;
                    ToAll (EUserLeft (RegUser.nickname targetUserData)
                             (size_of (allConnections st7)) true)])
            end
        | _ => emit_error st sid "User not found"
        end
  end.

(** *** The administrative endpoints (lines 1056-1142) *)

(** [!ADMIN_KEY || adminKey !== ADMIN_KEY] does not hold; [ADMIN_KEY] is
    [process.env.ADMIN_KEY]. *)
Definition authorized (ADMIN_KEY : option jsstring) (adminKey : JsVal) : bool :=
  truthy_str ADMIN_KEY
  && match adminKey with
     | JStr k => bool_decide (Some k = ADMIN_KEY)
     | _ => false
     end.

Definition on_clearBans (st : State) (ADMIN_KEY : option jsstring)
  (adminKey : JsVal) : State * list Output :=
  if negb (authorized ADMIN_KEY adminKey) then (st, [Http 403])
  else
    (set_bannedFingerprints ∅
       (set_bannedNicknames ∅ (set_bannedUsers ∅ (set_bannedIPs ∅ st))),
     [SaveData; Http 200]).

Definition on_clearUsers (st : State) (ADMIN_KEY : option jsstring)
  (adminKey : JsVal) : State * list Output :=
  if negb (authorized ADMIN_KEY adminKey) then (st, [Http 403])
  else
    (set_adminId None
       (set_users ∅ (set_sessionTokens ∅ (set_registeredUsers [] st))),
     [SaveData; Http 200]).

Definition on_unbanIp (st : State) (ADMIN_KEY : option jsstring)
  (adminKey ip : JsVal) : State * list Output :=
  if negb (authorized ADMIN_KEY adminKey) then (st, [Http 403])
  else if negb (truthy ip) then (st, [Http 400])
  else
    match ip with
    | JStr a =>
        if bool_decide (a ∈ bannedIPs st) then
          (set_bannedIPs (bannedIPs st ∖ {[a]}) st, [SaveData; Http 200])
        else (st, [Http 404])
    | _ => (st, [Http 404])
    end.

(** *** Retention sweep (lines 323-337) *)

Fixpoint shiftOld (cutoff : Z) (msgs : list Message.t) : list Message.t :=
  match msgs with
  | m :: r => if Z.ltb (Message.timestamp m) cutoff then shiftOld cutoff r
              else msgs
  | [] => []
  end.

Definition on_sweep (st : State) (now : Z) : State * list Output :=
  let cutoff := now - MESSAGE_RETENTION_TIME in
  let msgs := shiftOld cutoff (messages st) in
  let removedCount := (length (messages st) - length msgs)%nat in
  (set_messages msgs st, if Nat.ltb 0 removedCount then [SaveData] else []).

(** ** Snapshots (lines 161-190 and 230-302) *)

Module Snapshot.
Record t : Type := mk {
  registeredUsers : list (jsstring * RegUser.t);
  sessionTokens : list (jsstring * jsstring);
  messages : list Message.t;
  bannedUsers : list jsstring;
  bannedNicknames : list jsstring;
  bannedIPs : list jsstring;
  bannedFingerprints : list jsstring;
  userFingerprints : list (jsstring * jsstring);
  adminId : option jsstring;
  timestamp : Z
}.
End Snapshot.

(** [messages.slice(-n)] *)
Definition sliceLast {A : Type} (n : nat) (l : list A) : list A :=
  skipn (length l - n) l.

(** The document that [saveData] writes. *)
Definition saveData (st : State) (now : Z) : Snapshot.t :=
  Snapshot.mk (registeredUsers st) (map_to_list (sessionTokens st))
    (sliceLast 1000 (messages st))
    (elements (bannedUsers st)) (elements (bannedNicknames st))
    (elements (bannedIPs st)) (elements (bannedFingerprints st))
    (map_to_list (userFingerprints st)) (adminId st) now.

Definition addAll (l : list jsstring) (s : gset jsstring) : gset jsstring :=
  fold_left (fun acc x => {[x]} ∪ acc) l s.

Definition setAll {V : Type} (l : list (jsstring * V)) (m : gmap jsstring V)
  : gmap jsstring V :=
  fold_left (fun acc kv => <[fst kv := snd kv]> acc) l m.

(** [loadData] with the document [data] found in the store, run on the
    state [st] at time [now]. *)
Definition loadData (data : option Snapshot.t) (now : Z) (st : State) : State :=
  match data with
  | None => st
  | Some data =>
      let cutoff := now - MESSAGE_RETENTION_TIME in
      mkState (users st) (userSessions st)
        (fold_left (fun acc kv => JsMap.set acc (fst kv) (snd kv))
           (Snapshot.registeredUsers data) (registeredUsers st))
        (setAll (Snapshot.sessionTokens data) (sessionTokens st))
        (messages st ++
         List.filter (fun msg => Z.ltb cutoff (Message.timestamp msg))
           (Snapshot.messages data))
        (addAll (Snapshot.bannedUsers data) (bannedUsers st))
        (addAll (Snapshot.bannedNicknames data) (bannedNicknames st))
        (addAll (Snapshot.bannedIPs data) (bannedIPs st))
        (addAll (Snapshot.bannedFingerprints data) (bannedFingerprints st))
        (setAll (Snapshot.userFingerprints data) (userFingerprints st))
        (userLastMessages st)
        (if truthy_str (Snapshot.adminId data) then Snapshot.adminId data
         else adminId st)
        (allConnections st) (sockets st)
  end.

(** ** The server as a transition system *)

Inductive Event : Type :=
| Connection (sid clientIP : jsstring) (cookie : option jsstring)
    (newSessionToken : jsstring)
| SetFingerprint (sid : jsstring) (fingerprint : JsVal)
| SetNickname (sid : jsstring) (nickname : JsVal)
    (userId sessionToken : jsstring) (avatarHue now : Z)
| Rejoin (sid : jsstring) (userData : JsVal) (newSessionToken : jsstring)
    (now : Z)
| GenerateDeviceCode (sid : jsstring) (rnd : Rand)
| ChatMessage (sid : jsstring) (messageText : JsVal) (messageId : jsstring)
    (now : Z)
| BanUser (sid : jsstring) (targetUserId : JsVal)
| SocketDisconnect (sid : jsstring)
| ClearBans (ADMIN_KEY : option jsstring) (adminKey : JsVal)
| ClearUsers (ADMIN_KEY : option jsstring) (adminKey : JsVal)
| UnbanIp (ADMIN_KEY : option jsstring) (adminKey ip : JsVal)
| Sweep (now : Z).

(** A handler that cannot throw. *)
Definition ok (r : State * list Output) : Result := Done (fst r) (snd r).

Definition step (st : State) (ev : Event) : Result :=
  match ev with
  | Connection sid clientIP cookie tok =>
      ok (on_connection st sid clientIP cookie tok)
  | SetFingerprint sid fp => ok (on_setFingerprint st sid fp)
  | SetNickname sid nickname userId tok hue now =>
      on_setNickname st sid nickname userId tok hue now
  | Rejoin sid userData tok now => ok (on_rejoin st sid userData tok now)
  | GenerateDeviceCode sid rnd => ok (on_generateDeviceCode st sid rnd)
  | ChatMessage sid text mid now => on_message st sid text mid now
  | BanUser sid target => ok (on_banUser st sid target)
  | SocketDisconnect sid => ok (on_disconnect st sid)
  | ClearBans key k => ok (on_clearBans st key k)
  | ClearUsers key k => ok (on_clearUsers st key k)
  | UnbanIp key k ip => ok (on_unbanIp st key k ip)
  | Sweep now => ok (on_sweep st now)
  end.

(** A run of the process: the events are handled one after the other; an
    uncaught exception ends the process. *)
Fixpoint run (st : State) (evs : list Event) (out : list Output) : Result :=
  match evs with
  | [] => Done st out
  | ev :: evs' =>
      match step st ev with
      | Done st' o => run st' evs' (out ++ o)
      | Uncaught e => Uncaught e
      end
  end.

Definition state_of (r : Result) : State :=
  match r with Done st _ => st | Uncaught _ => init end.

Definition out_of (r : Result) : list Output :=
  match r with Done _ o => o | Uncaught _ => [] end.

(** ** Vocabulary of the properties *)

(** The characters of a device code: [A-Z0-9]. *)
Definition code_char (c : N) : bool := is_upper c || is_digit c.

(** The [k]-th code that the loop of [generateUniqueDeviceCode] draws,
    counted from 0. *)
Definition nthDraw (rnd : Rand) (k : nat) : jsstring :=
  fst (generateDeviceCode rnd (4 * k)).

(** A random source that always yields index 0, the letter A. *)
Definition always0 : Rand := fun _ => 0%nat.

Definition user_with_code (uid : string) (code : string) : RegUser.t :=
  RegUser.mk (js uid) (js uid) 0 false (js "10.0.0.1") (js "tok") (Some (js code)).

(** A registry in which the code AAAA is taken. *)
Definition reg_AAAA : JsMap.t RegUser.t := [(js "u1", user_with_code "u1" "AAAA")].

(** The result of [generateUniqueDeviceCode] as the specification describes
    it: a 4-character code that no registered user holds, or an 8-character
    fallback. *)
Definition fresh4_or_fallback8 (reg : JsMap.t RegUser.t) (code : jsstring)
  : Prop :=
  (length code = 4%nat /\ code_assigned reg code = false)
  \/ length code = 8%nat.

(** *** Example runs

    Shorthands for the events of the example runs: a connection without a
    session cookie, and a setNickname with a string payload. *)
Definition connect (sid ip : string) : Event :=
  Connection (js sid) (js ip) None (js "unused").

Definition setNick (sid nickname userId sessionToken : string) : Event :=
  SetNickname (js sid) (JStr (js nickname)) (js userId) (js sessionToken) 0 1000.

(** alice registers on s1 and asks for a device code (AAAA); a second device
    s2 then logs in with that code and is handed the token t2. *)
Definition device_login_run : list Event :=
  [ connect "s1" "10.0.0.1";
    setNick "s1" "alice" "u1" "t1";
    GenerateDeviceCode (js "s1") always0;
    connect "s2" "10.0.0.2";
    setNick "s2" "AAAA" "u2" "t2" ].

(** Three users ask for a device code while the random source keeps
    drawing AAAA. *)
Definition colliding_codes_run : list Event :=
  [ connect "s1" "10.0.0.1";
    setNick "s1" "alice" "u1" "t1";
    GenerateDeviceCode (js "s1") always0;
    connect "s2" "10.0.0.2";
    setNick "s2" "bobby" "u2" "t2";
    GenerateDeviceCode (js "s2") always0;
    connect "s3" "10.0.0.3";
    setNick "s3" "carol" "u3" "t3";
    GenerateDeviceCode (js "s3") always0 ].

(** A fourth device types the shared code. *)
Definition consume_shared_code : list Event :=
  [ connect "s4" "10.0.0.4";
    setNick "s4" "aaaaaa" "u4" "t4" ].

(** mefisto registers on s1 and becomes the admin, bob registers on s2 and
    the admin bans him. *)
Definition ban_run : list Event :=
  [ connect "s1" "10.0.0.1";
    setNick "s1" "mefisto" "u1" "t1";
    connect "s2" "10.0.0.2";
    setNick "s2" "bob" "u2" "t2";
    BanUser (js "s1") (JStr (js "u2")) ].

Definition is_disconnect_of (sid : jsstring) (o : Output) : bool :=
  match o with
  | Disconnect s => str_eqb s sid
  | _ => false
  end.

(** *** The moderation gates of the message handler, in the order of the
    specification *)

Inductive Gate : Type :=
| GAttributed | GNotBanned | GLength | GLink | GMention | GDuplicate | GCaps
| GLanguage.

Definition gate_order : list Gate :=
  [GAttributed; GNotBanned; GLength; GLink; GMention; GDuplicate; GCaps;
   GLanguage].

(** Whether the message [text] of the socket [sk] fails the gate. *)
Definition gate_fails (st : State) (sid : jsstring) (sk : Socket.t)
  (text : jsstring) (g : Gate) : bool :=
  match g with
  | GAttributed =>
      negb (truthy_str (Socket.userId sk))
      || negb (bool_decide (is_Some (users st !! sid)))
  | GNotBanned =>
      match Socket.userId sk with
      | Some uid => bool_decide (uid ∈ bannedUsers st)
      | None => false
      end
  | GLength =>
      negb (truthy (JStr text)) || Nat.eqb (length (trim text)) 0
      || Nat.ltb 100 (length text)
  | GLink => hasLink (trim text)
  | GMention => hasMention (trim text)
  | GDuplicate =>
      match Socket.userId sk with
      | Some uid => isDuplicate st uid (trim text)
      | None => false
      end
  | GCaps => isCaps (trim text)
  | GLanguage => hasNonEnglish (trim text)
  end.

(** What the sender is told when the gate fails. *)
Definition gate_reply (g : Gate) : ServerEvent :=
  match g with
  | GAttributed => EError "You must set a nickname first"
  | GNotBanned => EBanned
  | GLength => EError "Message must be 1-100 characters"
  | GLink => EError "Links are not allowed in chat"
  | GMention => EError "Mentions (@username) are not allowed"
  | GDuplicate => EError "Cannot send duplicate messages"
  | GCaps => EError "Please do not use all CAPS"
  | GLanguage => EError "Only English language is allowed in chat"
  end.

Definition first_failing_gate (st : State) (sid : jsstring) (sk : Socket.t)
  (text : jsstring) : option Gate :=
  List.find (gate_fails st sid sk text) gate_order.

(** *** Presence events *)

Definition is_userJoined (o : Output) : bool :=
  match o with ToAll (EUserJoined _ _) => true | _ => false end.

Definition is_userLeft (o : Output) : bool :=
  match o with ToAll (EUserLeft _ _ _) => true | _ => false end.

Definition is_accepted (o : Output) : bool :=
  match o with ToSocket _ (ENicknameAccepted _ _ _ _ _ _ _) => true | _ => false end.

Definition count (p : Output -> bool) (out : list Output) : nat :=
  length (List.filter p out).

(** The payload of a rejoin: an object with a [sessionToken] property. *)
Definition withToken (tok : string) : JsVal :=
  JObj [(js "sessionToken", JStr (js tok))].

(** alice registers and leaves; later she resumes her session on one
    device and, while that one is connected, on a second one; then both
    disconnect. *)
Definition alice_registered : State :=
  state_of (run init [ connect "s0" "10.0.0.1";
                       setNick "s0" "alice" "u1" "t1";
                       SocketDisconnect (js "s0") ] []).

Definition two_devices_join : list Event :=
  [ connect "s1" "10.0.0.1";
    Rejoin (js "s1") (withToken "t1") (js "unused") 2000;
    connect "s2" "10.0.0.1";
    Rejoin (js "s2") (withToken "t1") (js "unused") 3000 ].

Definition two_devices_leave : list Event :=
  [ SocketDisconnect (js "s1"); SocketDisconnect (js "s2") ].

(** The disconnect of [sid] empties the set of tracked sessions of its
    identity: the socket is open and attributed to the identity [uid], that
    identity has a set of tracked sessions, and no other socket is in it. *)
Definition closes_last_session (st : State) (sid : jsstring) : Prop :=
  exists sk uid a S,
    sockets st !! sid = Some sk
    /\ Socket.userId sk = Some uid /\ uid <> []
    /\ users st !! sid = Some a
    /\ userSessions st !! uid = Some S
    /\ S ∖ {[sid]} = ∅.

(** *** Reachable states *)

(** The checks of lines 571-579 on a nickname. *)
Definition nickname_ok (nickname : jsstring) : bool :=
  negb (negb (truthy (JStr nickname))
        || Nat.ltb (length (trim nickname)) 3
        || Nat.ltb 20 (length nickname))
  && Re.matches englishOnly nickname.

(** What is assumed of the values drawn from the runtime: [uuidv4()] is not
    the empty string. *)
Definition runtime_ok (ev : Event) : Prop :=
  match ev with
  | SetNickname _ _ userId _ _ _ => userId <> []
  | _ => True
  end.

(** The states of a server whose snapshot is loaded before its first event
    is handled: the empty state of a first start, what a handler makes of a
    state, and what a restart loads from the snapshot of a state into the
    empty state.  That the load comes first is a premise: the program calls
    [initializeServer] without awaiting it (lines 305-310) and listens at
    once (lines 366 and 1208); the states that a later load produces are
    those of [occurs], below. *)
Inductive reachable : State -> Prop :=
| reachable_init : reachable init
| reachable_step (st : State) (ev : Event) (st' : State) (out : list Output) :
    reachable st -> runtime_ok ev -> step st ev = Done st' out -> reachable st'
| reachable_restart (st : State) (saved loaded : Z) :
    reachable st -> reachable (loadData (Some (saveData st saved)) loaded init).

(** *** Start-up

    The states of a process before its load completes: the empty state and
    what the handlers make of it. *)
Inductive early : State -> Prop :=
| early_init : early init
| early_step (st : State) (ev : Event) (st' : State) (out : list Output) :
    early st -> runtime_ok ev -> step st ev = Done st' out -> early st'.

(** All the states of the server.  The load of a process completes at some
    moment, after the events that the process has handled by then, and
    merges the document that an earlier process saved into the state that
    those events have built (lines 250-295). *)
Inductive occurs : State -> Prop :=
| occurs_early (st : State) : early st -> occurs st
| occurs_load (prev : State) (saved loaded : Z) (st : State) :
    occurs prev -> early st ->
    occurs (loadData (Some (saveData prev saved)) loaded st)
| occurs_step (st : State) (ev : Event) (st' : State) (out : list Output) :
    occurs st -> runtime_ok ev -> step st ev = Done st' out -> occurs st'.

(** A process whose snapshot holds the admin u1, registered as mefisto by
    an earlier process, handles the registration of Mefisto as u9 before its
    load completes. *)
Definition stored_admin : State :=
  state_of (run init [ connect "s1" "10.0.0.1";
                       setNick "s1" "mefisto" "u1" "t1" ] []).

Definition early_mefisto : State :=
  state_of (run init [ connect "s9" "10.0.0.9";
                       setNick "s9" "Mefisto" "u9" "t9" ] []).

Definition late_loaded : State :=
  loadData (Some (saveData stored_admin 5000)) 6000 early_mefisto.

(** A process whose snapshot holds a ban of the address 10.0.0.2, issued by
    an earlier process (the run [ban_run]), handles the registration of
    mefisto from that address before its load completes. *)
Definition early_admin_at_banned_address : State :=
  state_of (run init [ connect "s9" "10.0.0.2";
                       setNick "s9" "mefisto" "u9" "t9" ] []).

Definition late_loaded_ban : State :=
  loadData (Some (saveData (state_of (run init ban_run [])) 5000)) 6000
    early_admin_at_banned_address.

Record invariant (st : State) : Prop := mkInvariant {
  inv_keys : NoDup (JsMap.keys (registeredUsers st));
  inv_ids : forall k u, In (k, u) (registeredUsers st) -> RegUser.id u = k;
  inv_admin : forall k u, In (k, u) (registeredUsers st) ->
                          RegUser.isAdmin u = true -> adminId st = Some k;
  inv_adminId : adminId st = None \/ truthy_str (adminId st) = true;
  inv_nicknames : forall k u, In (k, u) (registeredUsers st) ->
                              nickname_ok (RegUser.nickname u) = true
}.
(** The part of the state that outlives the connections. *)
Definition persistent (st : State) :=
  (registeredUsers st, sessionTokens st, messages st, userLastMessages st,
   (bannedUsers st, bannedNicknames st, bannedIPs st, bannedFingerprints st),
   userFingerprints st, adminId st).

(** Two records of the same identity. *)
Definition same_identity (u u' : RegUser.t) : Prop :=
  RegUser.id u' = RegUser.id u
  /\ RegUser.nickname u' = RegUser.nickname u
  /\ RegUser.isAdmin u' = RegUser.isAdmin u.

(** What one handler, other than the clear-users endpoint, can do to the
    registered users and to [adminId]. *)
Inductive core_step (st st' : State) : Prop :=
| core_same :
    registeredUsers st' = registeredUsers st ->
    adminId st' = adminId st ->
    core_step st st'
| core_update (k : jsstring) (u u' : RegUser.t) :
    In (k, u) (registeredUsers st) ->
    same_identity u u' ->
    registeredUsers st' = JsMap.set (registeredUsers st) k u' ->
    adminId st' = adminId st ->
    core_step st st'
| core_delete (k : jsstring) :
    registeredUsers st' = JsMap.delete (registeredUsers st) k ->
    adminId st' = adminId st ->
    core_step st st'
| core_register (uid : jsstring) (u : RegUser.t) :
    uid <> [] ->
    RegUser.id u = uid ->
    nickname_ok (RegUser.nickname u) = true ->
    RegUser.isAdmin u
    = negb (truthy_str (adminId st))
      && str_eqb (toLowerCase (RegUser.nickname u)) (js "mefisto") ->
    registeredUsers st' = JsMap.set (registeredUsers st) uid u ->
    adminId st' = (if RegUser.isAdmin u then Some uid else adminId st) ->
    core_step st st'.

Definition is_clearUsers (ev : Event) : bool :=
  match ev with ClearUsers _ _ => true | _ => false end.



(** *** Snapshots *)

(** A restart: the snapshot saved at time [saved] is loaded at time [loaded]
    into the empty state; the store hands back the document it was given. *)
Definition restart (st : State) (saved loaded : Z) : State :=
  loadData (Some (saveData st saved)) loaded init.

(** A message older than the retention horizon at time [now]. *)
Definition expired (now : Z) (m : Message.t) : bool :=
  Z.ltb (Message.timestamp m) (now - MESSAGE_RETENTION_TIME).

(** The round trip of the message log as the specification states it: what
    is restored is the log without its expired messages. *)
Definition restores_unexpired_messages (st : State) (saved loaded : Z) : Prop :=
  messages (restart st saved loaded)
  = List.filter (fun m => negb (expired loaded m)) (messages st).

(** alice sends [n] messages, hi and yo in turn, one per millisecond. *)
Definition chatter (n : nat) : list Event :=
  List.map
    (fun i => ChatMessage (js "s1")
                (JStr (if Nat.even i then js "hi" else js "yo")) (js "m")
                (2000 + Z.of_nat i))
    (seq 0 n).

Definition busy_run : list Event :=
  [ connect "s1" "10.0.0.1"; setNick "s1" "alice" "u1" "t1" ] ++ chatter 1001.

(** *** The ban cascade *)



(** The same nickname in some case: the two strings differ at most in the
    case of their ASCII letters. *)
Definition same_up_to_case (a b : jsstring) : Prop :=
  Forall2
    (fun x y => x = y
                \/ (is_alpha x = true /\ is_alpha y = true
                    /\ lower_cu x = lower_cu y))
    a b.

(** The handler answered NicknameTaken and nothing else. *)
Definition rejected_as_taken (r : Result) (sid : jsstring) : Prop :=
  exists st, r = Done st [ToSocket sid (EError "Nickname already taken")].



(** nick4 registers the nickname AAAA, vera is then handed the device code
    AAAA, and the admin bans nick4. *)
Definition shadowed_nickname_run : list Event :=
  [ connect "s1" "10.0.0.1";
    setNick "s1" "mefisto" "u1" "t1";
    connect "s2" "10.0.0.2";
    setNick "s2" "AAAA" "u2" "t2";
    connect "s3" "10.0.0.3";
    setNick "s3" "vera" "u3" "t3";
    GenerateDeviceCode (js "s3") always0;
    BanUser (js "s1") (JStr (js "u2"));
    connect "s4" "10.0.0.4" ].

(** ** Vocabulary of the further properties *)

(** *** States reached with fresh runtime values *)

(** [generateSessionToken()] returns a token that is not the empty string
    and not in the index. *)
Definition fresh_token (st : State) (tok : jsstring) : Prop :=
  tok <> [] /\ sessionTokens st !! tok = None.

(** What is assumed of the runtime besides [runtime_ok]: socket.io gives a
    new connection an id that no live socket has, [uuidv4()] returns an id
    that is neither registered nor banned, and tokens are fresh. *)
Definition runtime_fresh (st : State) (ev : Event) : Prop :=
  match ev with
  | Connection sid _ _ tok => sockets st !! sid = None /\ fresh_token st tok
  | SetNickname _ _ userId tok _ _ =>
      userId <> [] /\ JsMap.get (registeredUsers st) userId = None
      /\ (userId ∉ bannedUsers st) /\ fresh_token st tok
  | Rejoin _ _ tok _ => fresh_token st tok
  | _ => True
  end.

(** The states of a server whose snapshot is loaded before its first event
    is handled, as for [reachable], when the runtime values are fresh. *)
Inductive live : State -> Prop :=
| live_init : live init
| live_step (st : State) (ev : Event) (st' : State) (out : list Output) :
    live st -> runtime_fresh st ev -> step st ev = Done st' out -> live st'
| live_restart (st : State) (saved loaded : Z) :
    live st -> live (restart st saved loaded).

(** The token and the user id that an event brings from the runtime. *)
Definition event_token (ev : Event) : jsstring :=
  match ev with
  | Connection _ _ _ tok => tok
  | SetNickname _ _ _ tok _ _ => tok
  | Rejoin _ _ tok _ => tok
  | _ => []
  end.

Definition event_userId (ev : Event) : jsstring :=
  match ev with
  | SetNickname _ _ userId _ _ _ => userId
  | _ => []
  end.

Definition with_ip_token (u : RegUser.t) (ip tok : jsstring) : RegUser.t :=
  RegUser.mk (RegUser.id u) (RegUser.nickname u) (RegUser.avatarHue u)
    (RegUser.isAdmin u) ip tok (RegUser.deviceCode u).

Definition with_code (u : RegUser.t) (code : option jsstring) : RegUser.t :=
  RegUser.mk (RegUser.id u) (RegUser.nickname u) (RegUser.avatarHue u)
    (RegUser.isAdmin u) (RegUser.ip u) (RegUser.sessionToken u) code.

(** The recorded IP of the admin, as the ban handler computes it
    (lines 929-932). *)
Definition adminIP (st : State) : option jsstring :=
  if truthy_str (adminId st) then
    match adminId st with
    | Some a => option_map RegUser.ip (JsMap.get (registeredUsers st) a)
    | None => None
    end
  else None.

(** What one event does to the registered users, the token index, the
    banned users, the banned IPs and [adminId]; [uid] and [tok] are the user
    id and the token that the event brings, fresh where they are used. *)
Inductive effect (uid tok : jsstring) (st st' : State) : Prop :=
| eff_none :
    registeredUsers st' = registeredUsers st ->
    sessionTokens st' = sessionTokens st ->
    bannedUsers st' = bannedUsers st ->
    bannedIPs st' = bannedIPs st ->
    adminId st' = adminId st ->
    effect uid tok st st'
| eff_rotate (k : jsstring) (u : RegUser.t) (ip : jsstring) :
    fresh_token st tok ->
    In (k, u) (registeredUsers st) ->
    ip ∉ bannedIPs st ->
    registeredUsers st' = JsMap.set (registeredUsers st) k (with_ip_token u ip tok) ->
    sessionTokens st'
    = <[tok := k]> (delete (RegUser.sessionToken u) (sessionTokens st)) ->
    bannedUsers st' = bannedUsers st ->
    bannedIPs st' = bannedIPs st ->
    adminId st' = adminId st ->
    effect uid tok st st'
| eff_login (k : jsstring) (u : RegUser.t) :
    fresh_token st tok ->
    In (k, u) (registeredUsers st) ->
    registeredUsers st' = JsMap.set (registeredUsers st) k (with_code u None) ->
    sessionTokens st' = <[tok := k]> (sessionTokens st) ->
    bannedUsers st' = bannedUsers st ->
    bannedIPs st' = bannedIPs st ->
    adminId st' = adminId st ->
    effect uid tok st st'
| eff_code (k : jsstring) (u : RegUser.t) (code : jsstring) :
    In (k, u) (registeredUsers st) ->
    registeredUsers st' = JsMap.set (registeredUsers st) k (with_code u (Some code)) ->
    sessionTokens st' = sessionTokens st ->
    bannedUsers st' = bannedUsers st ->
    bannedIPs st' = bannedIPs st ->
    adminId st' = adminId st ->
    effect uid tok st st'
| eff_register (nickname ip : jsstring) (hue : Z) (isAdmin : bool) :
    fresh_token st tok ->
    uid <> [] ->
    uid ∉ bannedUsers st ->
    nickname_ok nickname = true ->
    isNicknameAvailable st nickname = true ->
    ip ∉ bannedIPs st ->
    isAdmin = negb (truthy_str (adminId st))
              && str_eqb (toLowerCase nickname) (js "mefisto") ->
    registeredUsers st'
    = JsMap.set (registeredUsers st) uid
        (RegUser.mk uid nickname hue isAdmin ip tok None) ->
    sessionTokens st' = <[tok := uid]> (sessionTokens st) ->
    bannedUsers st' = bannedUsers st ->
    bannedIPs st' = bannedIPs st ->
    adminId st' = (if isAdmin then Some uid else adminId st) ->
    effect uid tok st st'
| eff_ban (target : jsstring) (data : RegUser.t) :
    JsMap.get (registeredUsers st) target = Some data ->
    Some target <> adminId st ->
    registeredUsers st' = JsMap.delete (registeredUsers st) target ->
    sessionTokens st'
    = (if truthy_str (Some (RegUser.sessionToken data))
       then delete (RegUser.sessionToken data) (sessionTokens st)
       else sessionTokens st) ->
    bannedUsers st' = {[target]} ∪ bannedUsers st ->
    bannedIPs st'
    = (if truthy_str (Some (RegUser.ip data))
          && negb (bool_decide (Some (RegUser.ip data) = adminIP st))
       then {[RegUser.ip data]} ∪ bannedIPs st
       else bannedIPs st) ->
    adminId st' = adminId st ->
    effect uid tok st st'
| eff_unban :
    registeredUsers st' = registeredUsers st ->
    sessionTokens st' = sessionTokens st ->
    bannedUsers st' ⊆ bannedUsers st ->
    bannedIPs st' ⊆ bannedIPs st ->
    adminId st' = adminId st ->
    effect uid tok st st'
| eff_clearUsers :
    registeredUsers st' = [] ->
    sessionTokens st' = ∅ ->
    bannedUsers st' = bannedUsers st ->
    bannedIPs st' = bannedIPs st ->
    adminId st' = None ->
    effect uid tok st st'.

(** What holds of the identities in every live state. *)
Record identities_ok (st : State) : Prop := mkIdentitiesOk {
  ok_tokens : forall k u, In (k, u) (registeredUsers st) ->
      sessionTokens st !! RegUser.sessionToken u = Some k
      /\ RegUser.sessionToken u <> [] /\ k <> [];
  ok_nicknames : forall k1 u1 k2 u2,
      In (k1, u1) (registeredUsers st) -> In (k2, u2) (registeredUsers st) ->
      toLowerCase (RegUser.nickname u1) = toLowerCase (RegUser.nickname u2) ->
      k1 = k2;
  ok_adminIP : forall k u, In (k, u) (registeredUsers st) ->
      RegUser.isAdmin u = true -> RegUser.ip u ∉ bannedIPs st;
  ok_notBanned : forall k u, In (k, u) (registeredUsers st) ->
      k ∉ bannedUsers st
}.

(** The events of a run bring fresh values, each in the state it meets. *)
Fixpoint fresh_run (st : State) (evs : list Event) : Prop :=
  match evs with
  | [] => True
  | ev :: evs' =>
      runtime_fresh st ev
      /\ match step st ev with
         | Done st' _ => fresh_run st' evs'
         | Uncaught _ => True
         end
  end.

(** mefisto and bob register, bob talks, and a second device of bob is
    connected from another address. *)
Definition two_users_run : list Event :=
  [ connect "s1" "10.0.0.1";
    setNick "s1" "mefisto" "u1" "t1";
    connect "s2" "10.0.0.2";
    setNick "s2" "bob" "u2" "t2";
    ChatMessage (js "s2") (JStr (js "  hello  ")) (js "m1") 2000;
    connect "s3" "10.0.0.3" ].

Definition two_users : State := state_of (run init two_users_run []).



(** The log is in the order of its timestamps. *)
Fixpoint chronological (msgs : list Message.t) : Prop :=
  match msgs with
  | [] => True
  | m :: r =>
      Forall (fun m' => Message.timestamp m <= Message.timestamp m') r
      /\ chronological r
  end.

(** *** The connection tables *)

Definition tables (st : State) :=
  (allConnections st, sockets st, users st).

(** The connection tables agree: the connections counted are the sockets
    that are open, and a socket that has an entry in [users] is open and
    carries the id of that entry. *)
Record tables_ok (st : State) : Prop := mkTablesOk {
  tab_connections : allConnections st = dom (sockets st);
  tab_users : forall sid a,
      users st !! sid = Some a ->
      exists sk, sockets st !! sid = Some sk
                 /\ Socket.userId sk = Some (ActiveUser.id a)
                 /\ ActiveUser.id a <> []
}.

(** * Properties *)

(** A decidable proposition about closed terms, settled by evaluation. *)
Ltac decide_by_computation :=
  match goal with
  | |- ?P => apply (bool_decide_eq_true_1 P); vm_compute; reflexivity
  end.

(** ** Strings and codes *)

Lemma chars_code_char : Forall (fun c => code_char c = true) chars.
Proof. repeat constructor. Qed.

Lemma charAt_chars (i : nat) :
  (i < 36)%nat ->
  exists c, charAt chars i = [c] /\ code_char c = true.
Proof.
  intros Hi. unfold charAt.
  destruct (nth_error chars i) as [c|] eqn:E.
  - exists c. split; [reflexivity|].
    apply nth_error_In in E.
    exact (proj1 (List.Forall_forall _ _) chars_code_char c E).
  - apply nth_error_None in E. change (length chars) with 36%nat in E. lia.
Qed.

Lemma drawChars_spec (rnd : Rand) (n pos : nat) (code : jsstring) :
  (forall i, (rnd i < 36)%nat) ->
  Forall (fun c => code_char c = true) code ->
  let r := drawChars n rnd pos code in
  length (fst r) = (length code + n)%nat
  /\ Forall (fun c => code_char c = true) (fst r)
  /\ snd r = (pos + n)%nat.
Proof.
  intros Hr. revert pos code.
  induction n as [|n IH]; intros pos code Hc; simpl.
  - repeat split; [lia | exact Hc | lia].
  - destruct (charAt_chars (rnd pos) (Hr pos)) as (c & Ec & Hcc).
    rewrite Ec.
    destruct (IH (S pos) (code ++ [c])) as (H1 & H2 & H3).
    + apply Forall_app. split; [exact Hc | repeat constructor; exact Hcc].
    + repeat split; [ | exact H2 | lia].
      rewrite H1, length_app. simpl. lia.
Qed.

Lemma generateDeviceCode_spec (rnd : Rand) (pos : nat) :
  (forall i, (rnd i < 36)%nat) ->
  length (fst (generateDeviceCode rnd pos)) = 4%nat
  /\ Forall (fun c => code_char c = true) (fst (generateDeviceCode rnd pos))
  /\ snd (generateDeviceCode rnd pos) = (pos + 4)%nat.
Proof.
  intros Hr. unfold generateDeviceCode.
  destruct (drawChars_spec rnd 4 pos [] Hr (List.Forall_nil _)) as (H1 & H2 & H3).
  auto.
Qed.

(** The position of the random source depends on the number of draws only. *)
Lemma generateDeviceCode_pos (rnd : Rand) (pos : nat) :
  snd (generateDeviceCode rnd pos) = (pos + 4)%nat.
Proof. unfold generateDeviceCode. simpl. lia. Qed.

Lemma generateDeviceCode_eta (rnd : Rand) (pos : nat) :
  generateDeviceCode rnd pos = (fst (generateDeviceCode rnd pos), (pos + 4)%nat).
Proof.
  rewrite <- (generateDeviceCode_pos rnd pos).
  destruct (generateDeviceCode rnd pos); reflexivity.
Qed.

Lemma uniqueLoop_0 (reg : JsMap.t RegUser.t) (rnd : Rand) (pos : nat) :
  fst (uniqueLoop 0 reg rnd pos)
  = fst (generateDeviceCode rnd (pos + 4))
    ++ substring0 2 (fst (generateDeviceCode rnd (pos + 8))).
Proof.
  change (uniqueLoop 0 reg rnd pos)
    with (let '(code, pos1) := generateDeviceCode rnd pos in
          let '(a, pos2) := generateDeviceCode rnd pos1 in
          let '(b, pos3) := generateDeviceCode rnd pos2 in
          (a ++ substring0 2 b, pos3)).
  rewrite (generateDeviceCode_eta rnd pos).
  rewrite (generateDeviceCode_eta rnd (pos + 4)).
  rewrite (generateDeviceCode_eta rnd (pos + 4 + 4)).
  replace (pos + 4 + 4)%nat with (pos + 8)%nat by lia.
  reflexivity.
Qed.

Lemma uniqueLoop_S (reg : JsMap.t RegUser.t) (rnd : Rand) (budget pos : nat) :
  uniqueLoop (S budget) reg rnd pos
  = if code_assigned reg (fst (generateDeviceCode rnd pos))
    then uniqueLoop budget reg rnd (pos + 4)
    else (fst (generateDeviceCode rnd pos), (pos + 4)%nat).
Proof.
  change (uniqueLoop (S budget) reg rnd pos)
    with (let '(code, pos1) := generateDeviceCode rnd pos in
          if code_assigned reg code then uniqueLoop budget reg rnd pos1
          else (code, pos1)).
  rewrite (generateDeviceCode_eta rnd pos). reflexivity.
Qed.

(** What the loop returns when it starts at draw [k] with [budget] tries
    left: the first draw that is not assigned, or, when all [budget] draws
    are assigned, the concatenation of draw [k + budget + 1] and the first
    two characters of draw [k + budget + 2], whatever the registry holds. *)
Lemma uniqueLoop_spec (reg : JsMap.t RegUser.t) (rnd : Rand) (budget k : nat) :
  let code := fst (uniqueLoop budget reg rnd (4 * k)) in
  (exists j, (j < budget)%nat
             /\ code = nthDraw rnd (k + j)
             /\ code_assigned reg code = false
             /\ forall i, (i < j)%nat ->
                          code_assigned reg (nthDraw rnd (k + i)) = true)
  \/ ((forall i, (i < budget)%nat ->
                 code_assigned reg (nthDraw rnd (k + i)) = true)
      /\ code = nthDraw rnd (k + budget + 1)
                ++ substring0 2 (nthDraw rnd (k + budget + 2))).
Proof.
  revert k. induction budget as [|b IH]; intros k; cbn zeta.
  - right. split; [intros i Hi; lia|].
    rewrite uniqueLoop_0. unfold nthDraw.
    replace (4 * (k + 0 + 1))%nat with (4 * k + 4)%nat by lia.
    replace (4 * (k + 0 + 2))%nat with (4 * k + 8)%nat by lia.
    reflexivity.
  - rewrite uniqueLoop_S.
    assert (Hc : fst (generateDeviceCode rnd (4 * k)) = nthDraw rnd (k + 0)).
    { unfold nthDraw. replace (k + 0)%nat with k by lia. reflexivity. }
    destruct (code_assigned reg (fst (generateDeviceCode rnd (4 * k)))) eqn:Ea.
    + replace (4 * k + 4)%nat with (4 * (k + 1))%nat by lia.
      destruct (IH (k + 1)%nat)
        as [(j & Hj & Hcode & Hfresh & Hprev)|(Hall & Hcode)].
      * left. exists (S j). split; [lia|].
        replace (k + S j)%nat with (k + 1 + j)%nat by lia.
        split; [exact Hcode|]. split; [exact Hfresh|].
        intros i Hi. destruct i as [|i].
        -- rewrite <- Hc. exact Ea.
        -- replace (k + S i)%nat with (k + 1 + i)%nat by lia.
           apply Hprev. lia.
      * right. split.
        -- intros i Hi. destruct i as [|i].
           ++ rewrite <- Hc. exact Ea.
           ++ replace (k + S i)%nat with (k + 1 + i)%nat by lia.
              apply Hall. lia.
        -- replace (k + S b + 1)%nat with (k + 1 + b + 1)%nat by lia.
           replace (k + S b + 2)%nat with (k + 1 + b + 2)%nat by lia.
           exact Hcode.
    + left. exists 0%nat. split; [lia|]. simpl fst.
      split; [exact Hc|]. split; [exact Ea|]. intros i Hi. lia.
Qed.

(** ** Device-code generation *)

(** C8, as stated, fails: with the code AAAA taken and a random source that
    keeps drawing AAAA, all 100 tries collide and the fallback that
    [generateUniqueDeviceCode] returns has 6 characters, not 8. *)
Lemma fallback_is_not_8_characters :
  generateUniqueDeviceCode reg_AAAA always0 = js "AAAAAA"
  /\ ~ fresh4_or_fallback8 reg_AAAA (generateUniqueDeviceCode reg_AAAA always0).
Proof.
  assert (E : generateUniqueDeviceCode reg_AAAA always0 = js "AAAAAA")
    by (vm_compute; reflexivity).
  split; [exact E|]. rewrite E.
  intros [[H _]|H]; vm_compute in H; discriminate H.
Qed.

(** C8, amended: codes are drawn from A-Z0-9, four characters at a time, and
    a draw that a registered user holds is drawn again; the result is the
    first of the first 100 draws that no registered user holds, a fresh
    4-character code, or, when all 100 are held, a 6-character fallback.
    The function is total: the loop ends after 101 iterations at most. *)
Theorem generateUniqueDeviceCode_fresh4_or_fallback6
  (reg : JsMap.t RegUser.t) (rnd : Rand) :
  (forall i, (rnd i < 36)%nat) ->
  let code := generateUniqueDeviceCode reg rnd in
  Forall (fun c => code_char c = true) code
  /\ ((length code = 4%nat
       /\ code_assigned reg code = false
       /\ exists j, (j < 100)%nat /\ code = nthDraw rnd j
                    /\ forall i, (i < j)%nat ->
                                 code_assigned reg (nthDraw rnd i) = true)
      \/ (length code = 6%nat
          /\ forall i, (i < 100)%nat ->
                       code_assigned reg (nthDraw rnd i) = true)).
Proof.
  intros Hr code.
  assert (Hd : forall k, length (nthDraw rnd k) = 4%nat
                         /\ Forall (fun c => code_char c = true) (nthDraw rnd k)).
  { intros k. unfold nthDraw.
    destruct (generateDeviceCode_spec rnd (4 * k) Hr) as (H1 & H2 & _). auto. }
  destruct (uniqueLoop_spec reg rnd 100 0)
    as [(j & Hj & Hcode & Hfresh & Hprev)|(Hall & Hcode)];
    change (fst (uniqueLoop 100 reg rnd (4 * 0))) with code in *.
  - cbn [Nat.add] in Hcode. split.
    + rewrite Hcode. apply Hd.
    + left. split; [rewrite Hcode; apply Hd|]. split; [exact Hfresh|].
      exists j. split; [exact Hj|]. split; [exact Hcode|].
      intros i Hi. exact (Hprev i Hi).
  - destruct (Hd 101%nat) as [La Fa]. destruct (Hd 102%nat) as [Lb Fb].
    cbn [Nat.add] in Hcode. split.
    + rewrite Hcode. apply Forall_app. split; [exact Fa|].
      unfold substring0. apply Forall_take. exact Fb.
    + right. split.
      * rewrite Hcode, length_app, La. unfold substring0.
        rewrite length_take, Lb. reflexivity.
      * intros i Hi. exact (Hall i Hi).
Qed.

Lemma generateUniqueDeviceCode_fresh4_or_fallback6_witness :
  (forall i, (always0 i < 36)%nat)
  /\ length (generateUniqueDeviceCode reg_AAAA always0) = 6%nat.
Proof.
  assert (Hr : forall i, (always0 i < 36)%nat) by (intros i; unfold always0; lia).
  split; [exact Hr|].
  destruct (generateUniqueDeviceCode_fresh4_or_fallback6 reg_AAAA always0 Hr)
    as [_ [(H4 & _)|(H6 & _)]].
  - vm_compute in H4. discriminate H4.
  - exact H6.
Defined.

(** The fallback is returned as it is drawn: when the first 100 draws are
    all held, the result is draw 101 followed by the first two characters of
    draw 102, whether or not a registered user holds that code. *)
Lemma fallback_is_unchecked (reg : JsMap.t RegUser.t) (rnd : Rand) :
  (forall i, (i < 100)%nat -> code_assigned reg (nthDraw rnd i) = true) ->
  generateUniqueDeviceCode reg rnd
  = nthDraw rnd 101 ++ substring0 2 (nthDraw rnd 102).
Proof.
  intros Hall.
  destruct (uniqueLoop_spec reg rnd 100 0)
    as [(j & Hj & Hcode & Hfresh & _)|(_ & Hcode)].
  - cbn [Nat.add] in Hcode. rewrite Hcode in Hfresh.
    rewrite (Hall j Hj) in Hfresh. discriminate Hfresh.
  - exact Hcode.
Qed.

(** The scan of [validateDeviceCode] returns the first registered user, in
    the insertion order of the Map, that holds the code. *)
Lemma validateDeviceCode_first (st : State) (code : jsstring) (user : RegUser.t) :
  validateDeviceCode st (JStr code) = Some user ->
  exists before after,
    JsMap.values (registeredUsers st) = before ++ user :: after
    /\ RegUser.deviceCode user = Some code
    /\ Forall (fun w => RegUser.deviceCode w <> Some code) before.
Proof.
  unfold validateDeviceCode.
  destruct (negb (truthy (JStr code))); [discriminate|].
  generalize (JsMap.values (registeredUsers st)). intros l.
  induction l as [|w l IH]; simpl; [discriminate|].
  destruct (bool_decide (RegUser.deviceCode w = Some code)) eqn:E.
  - intros [= <-]. exists [], l. apply bool_decide_eq_true in E.
    repeat split; [exact E | constructor].
  - intros H. destruct (IH H) as (before & after & Hl & Hc & Hb).
    exists (w :: before), after. rewrite Hl.
    apply bool_decide_eq_false in E.
    repeat split; [exact Hc | constructor; assumption].
Qed.

(** What a device-code login writes: the consuming socket is entered in
    [users] under the identity of [user], [socket.userId] is set to it, and
    the socket is added to the sessions of that identity (lines 512-548). *)
Lemma deviceLogin_attributes (st : State) (sid : jsstring) (sk : Socket.t)
  (user : RegUser.t) (tok : jsstring) (now : Z) :
  RegUser.id user ∉ bannedUsers st ->
  let r := deviceLogin st sid sk user tok now in
  users (fst r) !! sid
  = Some (ActiveUser.mk (RegUser.id user) (RegUser.nickname user) sid
            (RegUser.avatarHue user) now (RegUser.isAdmin user)
            (Socket.clientIP sk))
  /\ sockets (fst r) !! sid
     = Some (Socket.mk (Socket.clientIP sk) (Socket.clientFingerprint sk)
               (Some (RegUser.id user)))
  /\ userSessions (fst r) !! RegUser.id user
     = Some ({[sid]} ∪ default ∅ (userSessions st !! RegUser.id user))
  /\ In (ToSocket sid
           (ENicknameAccepted (RegUser.id user) (RegUser.nickname user)
              (RegUser.avatarHue user) None tok (RegUser.isAdmin user)
              IsDeviceLogin)) (snd r).
Proof.
  intros Hnb. cbv zeta. unfold deviceLogin.
  rewrite (bool_decide_eq_false_2 _ Hnb). cbn [fst snd].
  unfold trackSession, attach.
  cbn [users sockets userSessions set_users set_sockets set_userSessions
       set_sessionTokens set_registeredUsers RegUser.nickname
       RegUser.avatarHue RegUser.isAdmin ActiveUser.id].
  rewrite !lookup_insert_eq.
  split; [reflexivity|]. split; [reflexivity|]. split; [reflexivity|].
  apply in_or_app. right. apply in_or_app. right. left. reflexivity.
Qed.

(** C10: the fallback code is returned without a uniqueness check; in the
    run [colliding_codes_run] the registered users u2 and u3 hold the same
    device code AAAAAA at the same time; a code is consumed by the first
    registered user, in scan order, that holds it: the socket that types
    the code is entered in [users] under that identity, its [socket.userId]
    is that identity, it joins the sessions of that identity and is told so
    in nicknameAccepted.  In the run, the consumer s4 becomes a session of
    u2. *)
Theorem fallback_codes_can_coincide :
  (forall reg rnd,
      (forall i, (i < 100)%nat -> code_assigned reg (nthDraw rnd i) = true) ->
      generateUniqueDeviceCode reg rnd
      = nthDraw rnd 101 ++ substring0 2 (nthDraw rnd 102))
  /\ (let st := state_of (run init colliding_codes_run []) in
      let r := run st consume_shared_code [] in
      JsMap.keys (registeredUsers st) = [js "u1"; js "u2"; js "u3"]
      /\ option_map RegUser.deviceCode (JsMap.get (registeredUsers st) (js "u2"))
         = Some (Some (js "AAAAAA"))
      /\ option_map RegUser.deviceCode (JsMap.get (registeredUsers st) (js "u3"))
         = Some (Some (js "AAAAAA"))
      /\ option_map RegUser.id (validateDeviceCode st (JStr (js "AAAAAA")))
         = Some (js "u2")
      /\ (exists st', r = Done st' (out_of r))
      /\ out_of r
         = [ ToAll (EOnlineCount 4); SaveData;
             ToSocket (js "s4")
               (ENicknameAccepted (js "u2") (js "bobby") 0 None (js "t4")
                  false IsDeviceLogin);
             ToSocket (js "s4") (EMessageHistory []);
             ToAll (EUserJoined (js "bobby") 4) ]
      /\ users (state_of r) !! js "s4"
         = Some (ActiveUser.mk (js "u2") (js "bobby") (js "s4") 0 1000 false
                   (js "10.0.0.4"))
      /\ sockets (state_of r) !! js "s4"
         = Some (Socket.mk (js "10.0.0.4") None (Some (js "u2")))
      /\ userSessions (state_of r) !! js "u2" = Some {[js "s4"]}
      /\ userSessions (state_of r) !! js "u3" = None)
  /\ (forall st code user,
         validateDeviceCode st (JStr code) = Some user ->
         exists before after,
           JsMap.values (registeredUsers st) = before ++ user :: after
           /\ RegUser.deviceCode user = Some code
           /\ Forall (fun w => RegUser.deviceCode w <> Some code) before)
  /\ (forall st sid sk typed uid tok hue now user,
         sockets st !! sid = Some sk ->
         socket_banned st sk = false ->
         typed <> [] ->
         Re.matches deviceCodeShape (toUpperCase typed) = true ->
         validateDeviceCode st (JStr (toUpperCase typed)) = Some user ->
         RegUser.id user ∉ bannedUsers st ->
         exists st' out,
           on_setNickname st sid (JStr typed) uid tok hue now = Done st' out
           /\ users st' !! sid
              = Some (ActiveUser.mk (RegUser.id user) (RegUser.nickname user)
                        sid (RegUser.avatarHue user) now (RegUser.isAdmin user)
                        (Socket.clientIP sk))
           /\ sockets st' !! sid
              = Some (Socket.mk (Socket.clientIP sk)
                        (Socket.clientFingerprint sk) (Some (RegUser.id user)))
           /\ userSessions st' !! RegUser.id user
              = Some ({[sid]}
                      ∪ default ∅ (userSessions st !! RegUser.id user))
           /\ In (ToSocket sid
                    (ENicknameAccepted (RegUser.id user)
                       (RegUser.nickname user) (RegUser.avatarHue user) None
                       tok (RegUser.isAdmin user) IsDeviceLogin)) out).
Proof.
  split; [exact fallback_is_unchecked|].
  split; [|split; [exact validateDeviceCode_first|]].
  - cbv zeta.
    split; [vm_compute; reflexivity|].
    split; [vm_compute; reflexivity|].
    split; [vm_compute; reflexivity|].
    split; [vm_compute; reflexivity|].
    split.
    { destruct (run (state_of (run init colliding_codes_run []))
                  consume_shared_code []) as [st' out|e] eqn:E;
        [exists st'; reflexivity | vm_compute in E; discriminate E]. }
    split; [vm_compute; reflexivity|].
    split; [vm_compute; reflexivity|].
    split; [vm_compute; reflexivity|].
    split; decide_by_computation.
  - intros st sid sk typed uid tok hue now user Hs Hb Hne Hshape Hv Hnb.
    unfold on_setNickname. rewrite Hs, Hb, Hshape, Hv.
    assert (Et : truthy (JStr typed) = true)
      by (destruct typed; [congruence | reflexivity]).
    rewrite Et. cbn [andb].
    destruct (deviceLogin_attributes st sid sk user tok now Hnb)
      as (H1 & H2 & H3 & H4).
    destruct (deviceLogin st sid sk user tok now) as [st' out].
    exists st', out. cbn [fst snd] in *. auto.
Qed.

(** ** Session tokens *)

(** C1 fails on the device-code login: the login of s2 with alice's code is
    answered with the fresh token t2, which is indexed but never stored as
    the identity's current token, and the prior token t1 is not removed; so
    the delivered token t2 does not validate and the prior token t1 still
    does. *)
Theorem device_login_token_does_not_validate :
  let r := run init device_login_run [] in
  In (ToSocket (js "s2")
        (ENicknameAccepted (js "u1") (js "alice") 0 None (js "t2") false
           IsDeviceLogin)) (out_of r)
  /\ sessionTokens (state_of r) !! js "t2" = Some (js "u1")
  /\ sessionTokens (state_of r) !! js "t1" = Some (js "u1")
  /\ option_map RegUser.sessionToken
       (JsMap.get (registeredUsers (state_of r)) (js "u1")) = Some (js "t1")
  /\ validateSessionToken (state_of r) (JStr (js "t2")) = None
  /\ option_map RegUser.id (validateSessionToken (state_of r) (JStr (js "t1")))
     = Some (js "u1").
Proof.
  cbv zeta.
  split; [vm_compute; tauto|].
  repeat split; vm_compute; reflexivity.
Qed.

(** ** Banned connections *)

(** C6 fails on the message handler: bob, banned by the admin in [ban_run],
    sends a message from s2; the server answers with the banned event and
    nothing else, and s2 stays connected. *)
Theorem banned_sender_is_not_disconnected :
  let st := state_of (run init ban_run []) in
  js "u2" ∈ bannedUsers st
  /\ step st (ChatMessage (js "s2") (JStr (js "hi")) (js "m1") 2000)
     = Done st [ToSocket (js "s2") EBanned]
  /\ existsb (is_disconnect_of (js "s2"))
       (out_of (step st (ChatMessage (js "s2") (JStr (js "hi")) (js "m1") 2000)))
     = false
  /\ js "s2" ∈ allConnections st
  /\ is_Some (sockets st !! js "s2").
Proof.
  cbv zeta.
  assert (E : step (state_of (run init ban_run []))
                (ChatMessage (js "s2") (JStr (js "hi")) (js "m1") 2000)
              = Done (state_of (run init ban_run [])) [ToSocket (js "s2") EBanned]).
  { vm_compute. reflexivity. }
  split; [decide_by_computation|].
  split; [exact E|]. rewrite E.
  split; [reflexivity|].
  split; decide_by_computation.
Qed.

(** ** Malformed payloads *)

(** A truthy payload that is not a string has no [toUpperCase] method: the
    setNickname handler of a connection that is not banned throws. *)
Lemma setNickname_throws_on_non_string (st : State) (sid : jsstring)
  (sk : Socket.t) (v : JsVal) (userId sessionToken : jsstring) (hue now : Z) :
  sockets st !! sid = Some sk ->
  socket_banned st sk = false ->
  truthy v = true ->
  (forall s, v <> JStr s) ->
  on_setNickname st sid v userId sessionToken hue now
  = Uncaught "TypeError: nickname.toUpperCase is not a function".
Proof.
  intros Hs Hb Ht Hv. unfold on_setNickname. rewrite Hs, Hb.
  destruct v; try rewrite Ht; try reflexivity.
  exfalso. eapply Hv. reflexivity.
Qed.

(** C4 fails: the number 42 as the payload of setNickname, from a fresh
    connection, and as the payload of message, from a registered one, makes
    the handler throw a TypeError that nothing catches. *)
Theorem handlers_throw_on_number_payload :
  run init [ connect "s1" "10.0.0.1";
             SetNickname (js "s1") (JNum 42) (js "u1") (js "t1") 0 1000 ] []
  = Uncaught "TypeError: nickname.toUpperCase is not a function"
  /\ run init [ connect "s1" "10.0.0.1";
                setNick "s1" "alice" "u1" "t1";
                ChatMessage (js "s1") (JNum 42) (js "m1") 2000 ] []
     = Uncaught "TypeError: messageText.trim is not a function".
Proof. split; vm_compute; reflexivity. Qed.

(** ** Message moderation *)

Lemma shouting_link_passes_length :
  negb (truthy (JStr (js "AAAA http://x.io")))
  || Nat.eqb (length (trim (js "AAAA http://x.io"))) 0
  || Nat.ltb 100 (length (js "AAAA http://x.io")) = false.
Proof. vm_compute. reflexivity. Qed.

Lemma shouting_link_has_link : hasLink (trim (js "AAAA http://x.io")) = true.
Proof. vm_compute. reflexivity. Qed.

(** C5: the message handler reports the first gate, in the order
    attribution, ban, length, link, mention, duplicate, caps, language, that
    the text fails, and leaves the state as it was; a text that fails no gate
    is appended to the log and broadcast.  In particular AAAA http://x.io
    from an attributed sender who is not banned is rejected for the link. *)
Theorem message_gates_in_order (st : State) (sid : jsstring) (sk : Socket.t)
  (text messageId : jsstring) (now : Z) :
  sockets st !! sid = Some sk ->
  match first_failing_gate st sid sk text with
  | Some g =>
      on_message st sid (JStr text) messageId now
      = Done st [ToSocket sid (gate_reply g)]
  | None =>
      exists st' m save,
        on_message st sid (JStr text) messageId now
        = Done st' (save ++ [ToAll (EMessage m)])
        /\ Message.message m = trim text
        /\ messages st' = messages st ++ [m]
  end
  /\ (gate_fails st sid sk (js "AAAA http://x.io") GAttributed = false ->
      gate_fails st sid sk (js "AAAA http://x.io") GNotBanned = false ->
      on_message st sid (JStr (js "AAAA http://x.io")) messageId now
      = Done st [ToSocket sid (EError "Links are not allowed in chat")]).
Proof.
  intros Hs.
  assert (Main : forall text,
    match first_failing_gate st sid sk text with
    | Some g =>
        on_message st sid (JStr text) messageId now
        = Done st [ToSocket sid (gate_reply g)]
    | None =>
        exists st' m save,
          on_message st sid (JStr text) messageId now
          = Done st' (save ++ [ToAll (EMessage m)])
          /\ Message.message m = trim text
          /\ messages st' = messages st ++ [m]
    end).
  { clear text. intros text.
    unfold first_failing_gate, gate_order, on_message. rewrite Hs.
    cbn [List.find gate_fails].
    destruct (Socket.userId sk) as [uid|]; cbn [negb orb];
      [|reflexivity].
    destruct (truthy_str (Some uid)); cbn [negb orb]; [|reflexivity].
    destruct (users st !! sid) as [user|] eqn:Eu; cbn [negb orb].
    2:{ rewrite bool_decide_eq_false_2 by (intros [? ?]; discriminate).
        reflexivity. }
    rewrite bool_decide_eq_true_2 by eauto. cbn [negb].
    destruct (bool_decide (uid ∈ bannedUsers st)); [reflexivity|].
    destruct (negb (truthy (JStr text)) || Nat.eqb (length (trim text)) 0
              || Nat.ltb 100 (length text)); [reflexivity|].
    destruct (hasLink (trim text)); [reflexivity|].
    destruct (hasMention (trim text)); [reflexivity|].
    destruct (isDuplicate st uid (trim text)); [reflexivity|].
    destruct (isCaps (trim text)); [reflexivity|].
    destruct (hasNonEnglish (trim text)); [reflexivity|].
    eexists _, _, _. split; [reflexivity|]. split; reflexivity. }
  split; [apply Main|].
  intros Ha Hb. specialize (Main (js "AAAA http://x.io")).
  unfold first_failing_gate, gate_order in Main.
  cbn [List.find] in Main. rewrite Ha, Hb in Main.
  change (gate_fails st sid sk (js "AAAA http://x.io") GLength)
    with (negb (truthy (JStr (js "AAAA http://x.io")))
          || Nat.eqb (length (trim (js "AAAA http://x.io"))) 0
          || Nat.ltb 100 (length (js "AAAA http://x.io"))) in Main.
  rewrite shouting_link_passes_length in Main.
  change (gate_fails st sid sk (js "AAAA http://x.io") GLink)
    with (hasLink (trim (js "AAAA http://x.io"))) in Main.
  rewrite shouting_link_has_link in Main. exact Main.
Qed.

Lemma message_gates_in_order_witness :
  let st := state_of (run init ban_run []) in
  exists sk,
    sockets st !! js "s1" = Some sk
    /\ on_message st (js "s1") (JStr (js "AAAA http://x.io")) (js "m1") 2000
       = Done st [ToSocket (js "s1") (EError "Links are not allowed in chat")].
Proof.
  cbv zeta.
  destruct (sockets (state_of (run init ban_run [])) !! js "s1") as [sk|] eqn:Hs;
    [|vm_compute in Hs; discriminate Hs].
  exists sk. split; [reflexivity|].
  refine (proj2 (message_gates_in_order _ (js "s1") sk (js "AAAA http://x.io")
                   (js "m1") 2000 Hs) _ _).
  - vm_compute in Hs. injection Hs as <-. vm_compute. reflexivity.
  - vm_compute in Hs. injection Hs as <-. vm_compute. reflexivity.
Defined.

(** ** Presence *)

(** C3, as stated, fails: alice resumes her session on s1 and then, with s1
    still connected, on s2; userJoined is broadcast twice, once per rejoin,
    and not once.  (userLeft is broadcast once, when the second of the two
    disconnects.) *)
Lemma two_devices_two_userJoined :
  count is_userJoined (out_of (run alice_registered two_devices_join [])) = 2%nat
  /\ count is_userJoined (out_of (run alice_registered two_devices_join []))
     <> 1%nat
  /\ count is_userLeft
       (out_of (run alice_registered (two_devices_join ++ two_devices_leave) []))
     = 1%nat.
Proof.
  assert (E : count is_userJoined
                (out_of (run alice_registered two_devices_join [])) = 2%nat)
    by (vm_compute; reflexivity).
  split; [exact E|]. split; [rewrite E; discriminate|].
  vm_compute. reflexivity.
Qed.

(** No join event among the outputs. *)
Lemma count_app (p : Output -> bool) (a b : list Output) :
  count p (a ++ b) = (count p a + count p b)%nat.
Proof. unfold count. rewrite List.filter_app, length_app. reflexivity. Qed.

Lemma on_disconnect_no_join (st : State) (sid : jsstring) :
  count is_userJoined (snd (on_disconnect st sid)) = 0%nat
  /\ count is_accepted (snd (on_disconnect st sid)) = 0%nat.
Proof.
  unfold on_disconnect. repeat case_match; simpl; auto.
Qed.

Lemma ban_out_no_join (st : State) (sid : jsstring) :
  count is_userJoined (snd (ban_out st sid)) = 0%nat
  /\ count is_accepted (snd (ban_out st sid)) = 0%nat.
Proof.
  unfold ban_out, force_disconnect.
  pose proof (on_disconnect_no_join st sid) as [H1 H2].
  destruct (sockets st !! sid); [|auto].
  destruct (on_disconnect st sid) as [st' o]. simpl in *. auto.
Qed.

Lemma rotate_no_join (st : State) (user : RegUser.t) (ip tok : jsstring) :
  count is_userJoined (snd (rotateOnIpChange st user ip tok)) = 0%nat
  /\ count is_accepted (snd (rotateOnIpChange st user ip tok)) = 0%nat.
Proof. unfold rotateOnIpChange. case_match; simpl; auto. Qed.

Lemma rejoin_joined_once (st : State) (sid : jsstring) (userData : JsVal)
  (tok : jsstring) (now : Z) :
  let out := snd (on_rejoin st sid userData tok now) in
  count is_userJoined out = count is_accepted out
  /\ (count is_accepted out <= 1)%nat.
Proof.
  cbv zeta. unfold on_rejoin.
  destruct (sockets st !! sid) as [sk|]; [|simpl; auto].
  destruct (socket_banned st sk).
  { destruct (ban_out_no_join st sid) as [-> ->]. auto. }
  destruct (negb (truthy userData) || _); [simpl; auto|].
  destruct (validateSessionToken st _) as [user|]; [|simpl; auto].
  destruct (bool_decide _); [simpl; auto|].
  pose proof (rotate_no_join st user (Socket.clientIP sk) tok) as [H1 H2].
  destruct (rotateOnIpChange st user (Socket.clientIP sk) tok) as [[st1 user'] o1].
  simpl in H1, H2. cbn [snd]. rewrite !count_app, H1, H2. simpl. auto.
Qed.

Lemma deviceLogin_joined_once st sid sk user tok now :
  let out := snd (deviceLogin st sid sk user tok now) in
  count is_userJoined out = count is_accepted out
  /\ (count is_accepted out <= 1)%nat.
Proof.
  cbv zeta. unfold deviceLogin.
  destruct (bool_decide _); [simpl; auto|].
  cbn [snd]. rewrite !count_app.
  assert (H : forall l : list jsstring, count is_userJoined (List.map (fun s => ToSocket s EDeviceCodeDeleted) l) = 0%nat /\ count is_accepted (List.map (fun s => ToSocket s EDeviceCodeDeleted) l) = 0%nat).
  { induction l; simpl; auto. }
  destruct (userSessions _ !! _); [rewrite (proj1 (H _)), (proj2 (H _))|]; simpl; auto.
Qed.

Lemma register_joined_once st sid sk nick uid tok hue now :
  let out := snd (register st sid sk nick uid tok hue now) in
  count is_userJoined out = count is_accepted out
  /\ (count is_accepted out <= 1)%nat.
Proof.
  cbv zeta. unfold register, emit_error.
  repeat case_match; simpl; auto.
Qed.

Lemma setNickname_joined_once st sid v uid tok hue now :
  let out := out_of (on_setNickname st sid v uid tok hue now) in
  count is_userJoined out = count is_accepted out
  /\ (count is_accepted out <= 1)%nat.
Proof.
  cbv zeta. unfold on_setNickname.
  destruct (sockets st !! sid) as [sk|]; [|simpl; auto].
  destruct (socket_banned st sk).
  { pose proof (ban_out_no_join st sid) as [H1 H2].
    destruct (ban_out st sid). simpl in *. rewrite H1, H2. auto. }
  destruct v; try (destruct (truthy _); simpl; auto; fail); try (simpl; auto; fail).
  match goal with
  | |- context [match ?d with Some _ => _ | None => _ end] =>
      destruct d as [user|]
  end.
  - pose proof (deviceLogin_joined_once st sid sk user tok now) as H.
    destruct (deviceLogin st sid sk user tok now). exact H.
  - pose proof (register_joined_once st sid sk l uid tok hue now) as H.
    destruct (register st sid sk l uid tok hue now). exact H.
Qed.

(** Projections of updated states. *)
Ltac state_simpl :=
  cbn [users userSessions registeredUsers sessionTokens messages bannedUsers
       bannedNicknames bannedIPs bannedFingerprints userFingerprints
       userLastMessages adminId allConnections sockets
       set_users set_userSessions set_registeredUsers set_sessionTokens
       set_messages set_bannedUsers set_bannedNicknames set_bannedIPs
       set_bannedFingerprints set_userFingerprints set_userLastMessages
       set_adminId set_allConnections set_sockets fst snd negb] in *.

Lemma two_sessions_one_userLeft (st : State) (s1 s2 uid : jsstring)
  (sk1 sk2 : Socket.t) (a1 a2 : ActiveUser.t) :
  s1 <> s2 ->
  sockets st !! s1 = Some sk1 -> Socket.userId sk1 = Some uid ->
  sockets st !! s2 = Some sk2 -> Socket.userId sk2 = Some uid ->
  truthy_str (Some uid) = true ->
  users st !! s1 = Some a1 -> users st !! s2 = Some a2 ->
  userSessions st !! uid = Some {[s1; s2]} ->
  let r1 := on_disconnect st s1 in
  let r2 := on_disconnect (fst r1) s2 in
  count is_userLeft (snd r1) = 0%nat
  /\ count is_userLeft (snd r2) = 1%nat
  /\ userSessions (fst r2) !! uid = None.
Proof.
  intros Hne Hs1 Hu1 Hs2 Hu2 Ht Ha1 Ha2 Hsess.
  assert (E1 : on_disconnect st s1
    = (set_userSessions (<[uid := {[s1; s2]} ∖ {[s1]}]> (userSessions st))
         (set_users (delete s1 (users st))
            (set_sockets (delete s1 (sockets st))
               (set_allConnections (allConnections st ∖ {[s1]}) st))),
       [ToAll (EOnlineCount (size_of (allConnections st ∖ {[s1]})))])).
  { unfold on_disconnect. rewrite Hs1, Hu1. state_simpl.
    rewrite Ha1, Ht. state_simpl.
    rewrite Hsess.
    assert (Hsz : size_of ({[s1; s2]} ∖ {[s1]}) = 1%nat).
    { unfold size_of. replace (({[s1; s2]} : gset jsstring) ∖ {[s1]}) with ({[s2]} : gset jsstring) by set_solver.
      apply size_singleton. }
    rewrite Hsz. reflexivity. }
  cbv zeta. rewrite E1. cbn [fst snd].
  split; [reflexivity|].
  unfold on_disconnect.
  state_simpl.
  rewrite lookup_delete_ne by done. rewrite Hs2, Hu2.
  rewrite lookup_delete_ne by done. rewrite Ha2, Ht. state_simpl.
  rewrite lookup_insert_eq.
  assert (Hsz : size_of (({[s1; s2]} ∖ {[s1]}) ∖ {[s2]}) = 0%nat).
  { unfold size_of. replace ((({[s1; s2]} : gset jsstring) ∖ {[s1]}) ∖ {[s2]}) with (∅ : gset jsstring) by set_solver.
    apply size_empty. }
  rewrite Hsz. cbn [Nat.eqb]. state_simpl.
  split; [reflexivity|]. apply lookup_delete_eq.
Qed.

Lemma sessions_left_empty (S : gset jsstring) (sid : jsstring) :
  Nat.eqb (size_of (S ∖ {[sid]})) 0 = true <-> S ∖ {[sid]} = ∅.
Proof.
  unfold size_of. rewrite Nat.eqb_eq, size_empty_iff.
  split; [apply leibniz_equiv | intros ->; reflexivity].
Qed.

(** The disconnect of a socket that is attributed to an identity with
    tracked sessions (lines 1009-1024). *)
Lemma on_disconnect_tracked (st : State) (sid : jsstring) (sk : Socket.t)
  (uid : jsstring) (a : ActiveUser.t) (S : gset jsstring) :
  sockets st !! sid = Some sk ->
  Socket.userId sk = Some uid -> uid <> [] ->
  users st !! sid = Some a ->
  userSessions st !! uid = Some S ->
  let r := on_disconnect st sid in
  let n := size_of (allConnections st ∖ {[sid]}) in
  (S ∖ {[sid]} = ∅ ->
   snd r = [ToAll (EOnlineCount n);
            ToAll (EUserLeft (ActiveUser.nickname a) n false)]
   /\ userSessions (fst r) !! uid = None)
  /\ (S ∖ {[sid]} <> ∅ ->
      snd r = [ToAll (EOnlineCount n)]
      /\ userSessions (fst r) !! uid = Some (S ∖ {[sid]})).
Proof.
  intros Hs Hu Hne Ha Hsess. cbv zeta.
  unfold on_disconnect. rewrite Hs, Hu. state_simpl. rewrite Ha.
  destruct uid as [|c uid']; [congruence|]. cbn [truthy_str]. state_simpl.
  rewrite Hsess.
  destruct (Nat.eqb (size_of (S ∖ {[sid]})) 0) eqn:E.
  - apply sessions_left_empty in E. split; [|congruence].
    intros _. state_simpl. split; [reflexivity | apply lookup_delete_eq].
  - split.
    + intros H. apply sessions_left_empty in H. congruence.
    + intros _. state_simpl. split; [reflexivity | apply lookup_insert_eq].
Qed.

(** userLeft is broadcast by a disconnect at most once, and exactly when
    the disconnect empties the set of tracked sessions of an identity. *)
Lemma on_disconnect_userLeft (st : State) (sid : jsstring) :
  (count is_userLeft (snd (on_disconnect st sid)) <= 1)%nat
  /\ (count is_userLeft (snd (on_disconnect st sid)) = 1%nat
      <-> closes_last_session st sid).
Proof.
  assert (Hno : forall out : list Output,
             count is_userLeft out = 0%nat ->
             ~ closes_last_session st sid ->
             (count is_userLeft out <= 1)%nat
             /\ (count is_userLeft out = 1%nat <-> closes_last_session st sid)).
  { intros out E Hn. rewrite E. split; [lia|]. split; [discriminate | tauto]. }
  unfold on_disconnect.
  destruct (sockets st !! sid) as [sk|] eqn:Hs.
  2:{ apply Hno; [reflexivity|]. intros (sk & uid & a & S & H & _).
      congruence. }
  state_simpl.
  destruct (Socket.userId sk) as [uid|] eqn:Hu.
  2:{ apply Hno; [reflexivity|]. intros (sk' & uid & a & S & H1 & H2 & _).
      congruence. }
  destruct (users st !! sid) as [a|] eqn:Ha.
  2:{ apply Hno; [reflexivity|].
      intros (sk' & uid' & a & S & H1 & H2 & H3 & H4 & _). congruence. }
  destruct uid as [|c uid'].
  { apply Hno; [reflexivity|].
    intros (sk' & uid' & a' & S & H1 & H2 & H3 & _). congruence. }
  cbn [truthy_str]. state_simpl.
  destruct (userSessions st !! (c :: uid')) as [S|] eqn:Hsess.
  2:{ apply Hno; [reflexivity|].
      intros (sk' & uid & a' & S & H1 & H2 & H3 & H4 & H5 & _). congruence. }
  destruct (Nat.eqb (size_of (S ∖ {[sid]})) 0) eqn:E.
  - apply sessions_left_empty in E. cbn [snd]. split; [cbn; lia|].
    split; [|reflexivity]. intros _.
    exists sk, (c :: uid'), a, S. repeat split; try assumption. discriminate.
  - apply Hno; [reflexivity|].
    intros (sk' & uid & a' & S' & H1 & H2 & H3 & H4 & H5 & H6).
    assert (uid = c :: uid') by congruence. subst uid.
    assert (S' = S) by congruence. subst S'.
    apply sessions_left_empty in H6. congruence.
Qed.

(** C3, amended: every accepted rejoin, registration or device-code login
    broadcasts exactly one userJoined, whatever the number of live
    connections of the identity, so two concurrent connections of one
    identity give two userJoined; userLeft is broadcast by the disconnect
    handler at most once, and exactly when the disconnect empties the set of
    tracked sessions of the identity: when other tracked sessions remain the
    socket is taken out of the set and nothing is said, and when none
    remains the set is deleted and userLeft is broadcast with the nickname
    of the identity.  So of two tracked concurrent connections, the first to
    disconnect gives no userLeft and the second exactly one. *)
Theorem presence_events :
  (forall st sid userData tok now,
      let out := snd (on_rejoin st sid userData tok now) in
      count is_userJoined out = count is_accepted out
      /\ (count is_accepted out <= 1)%nat)
  /\ (forall st sid nickname uid tok hue now,
         let out := out_of (on_setNickname st sid nickname uid tok hue now) in
         count is_userJoined out = count is_accepted out
         /\ (count is_accepted out <= 1)%nat)
  /\ (forall st s1 s2 uid sk1 sk2 a1 a2,
         s1 <> s2 ->
         sockets st !! s1 = Some sk1 -> Socket.userId sk1 = Some uid ->
         sockets st !! s2 = Some sk2 -> Socket.userId sk2 = Some uid ->
         truthy_str (Some uid) = true ->
         users st !! s1 = Some a1 -> users st !! s2 = Some a2 ->
         userSessions st !! uid = Some {[s1; s2]} ->
         let r1 := on_disconnect st s1 in
         let r2 := on_disconnect (fst r1) s2 in
         count is_userLeft (snd r1) = 0%nat
         /\ count is_userLeft (snd r2) = 1%nat
         /\ userSessions (fst r2) !! uid = None)
  /\ (forall st sid,
         (count is_userLeft (snd (on_disconnect st sid)) <= 1)%nat
         /\ (count is_userLeft (snd (on_disconnect st sid)) = 1%nat
             <-> closes_last_session st sid))
  /\ (forall st sid sk uid a S,
         sockets st !! sid = Some sk ->
         Socket.userId sk = Some uid -> uid <> [] ->
         users st !! sid = Some a ->
         userSessions st !! uid = Some S ->
         let r := on_disconnect st sid in
         let n := size_of (allConnections st ∖ {[sid]}) in
         (S ∖ {[sid]} = ∅ ->
          snd r = [ToAll (EOnlineCount n);
                   ToAll (EUserLeft (ActiveUser.nickname a) n false)]
          /\ userSessions (fst r) !! uid = None)
         /\ (S ∖ {[sid]} <> ∅ ->
             snd r = [ToAll (EOnlineCount n)]
             /\ userSessions (fst r) !! uid = Some (S ∖ {[sid]}))).
Proof.
  split; [exact rejoin_joined_once|].
  split; [exact setNickname_joined_once|].
  split; [exact two_sessions_one_userLeft|].
  split; [exact on_disconnect_userLeft | exact on_disconnect_tracked].
Qed.

(** ** The Map of registered users *)

Lemma str_eqb_eq (a b : jsstring) : str_eqb a b = true <-> a = b.
Proof. unfold str_eqb. apply bool_decide_eq_true. Qed.

Lemma str_eqb_refl (a : jsstring) : str_eqb a a = true.
Proof. apply str_eqb_eq. reflexivity. Qed.

Lemma str_eqb_neq (a b : jsstring) : str_eqb a b = false <-> a <> b.
Proof. unfold str_eqb. apply bool_decide_eq_false. Qed.

Section JsMapFacts.
Context {V : Type}.
Implicit Types (m : JsMap.t V) (k : jsstring) (v : V).

Lemma JsMap_get_In m k v : JsMap.get m k = Some v -> In (k, v) m.
Proof.
  unfold JsMap.get. induction m as [|[k' v'] m IH]; simpl; [discriminate|].
  destruct (str_eqb k' k) eqn:E.
  - apply str_eqb_eq in E. intros [= ->]. left. congruence.
  - intros H. right. exact (IH H).
Qed.

Lemma JsMap_In_get m k v :
  NoDup (JsMap.keys m) -> In (k, v) m -> JsMap.get m k = Some v.
Proof.
  unfold JsMap.get, JsMap.keys.
  induction m as [|[k' v'] m IH]; simpl; [tauto|].
  intros Hnd [H|H].
  - injection H as -> ->. rewrite str_eqb_refl. reflexivity.
  - apply NoDup_cons in Hnd as [Hnotin Hnd].
    destruct (str_eqb k' k) eqn:E.
    + apply str_eqb_eq in E. subst k'. exfalso. apply Hnotin.
      apply list_elem_of_In. apply (in_map fst) in H. exact H.
    + exact (IH Hnd H).
Qed.

Lemma JsMap_set_In m k v k' v' :
  In (k', v') (JsMap.set m k v) -> (k', v') = (k, v) \/ In (k', v') m.
Proof.
  induction m as [|[k0 v0] m IH]; simpl.
  - intros [H|[]]. left. congruence.
  - destruct (str_eqb k0 k); simpl.
    + intros [H|H]; [left; congruence | right; right; exact H].
    + intros [H|H]; [right; left; exact H|].
      destruct (IH H) as [H'|H']; [left; exact H' | right; right; exact H'].
Qed.

Lemma JsMap_set_keys m k v :
  JsMap.keys (JsMap.set m k v)
  = if JsMap.has m k then JsMap.keys m else JsMap.keys m ++ [k].
Proof.
  unfold JsMap.has, JsMap.get, JsMap.keys.
  induction m as [|[k0 v0] m IH]; simpl; [reflexivity|].
  destruct (str_eqb k0 k) eqn:E; simpl.
  - apply str_eqb_eq in E. subst. reflexivity.
  - rewrite IH. destruct (assocGet k m); reflexivity.
Qed.

Lemma JsMap_has_keys m k : JsMap.has m k = false -> ~ In k (JsMap.keys m).
Proof.
  unfold JsMap.has, JsMap.get, JsMap.keys.
  induction m as [|[k0 v0] m IH]; simpl; [tauto|].
  destruct (str_eqb k0 k) eqn:E; [discriminate|].
  apply str_eqb_neq in E. intros H [H'|H']; [congruence|].
  exact (IH H H').
Qed.

Lemma JsMap_set_NoDup m k v :
  NoDup (JsMap.keys m) -> NoDup (JsMap.keys (JsMap.set m k v)).
Proof.
  intros Hnd. rewrite JsMap_set_keys.
  destruct (JsMap.has m k) eqn:E; [exact Hnd|].
  apply NoDup_app. split; [exact Hnd|]. split.
  - intros x Hx Hk. apply list_elem_of_In in Hx.
    apply list_elem_of_In in Hk. destruct Hk as [<-|[]].
    exact (JsMap_has_keys m k E Hx).
  - apply NoDup_singleton.
Qed.

Lemma JsMap_delete_In m k k' v' :
  In (k', v') (JsMap.delete m k) -> In (k', v') m /\ k' <> k.
Proof.
  unfold JsMap.delete. rewrite List.filter_In. simpl.
  intros [H E]. split; [exact H|].
  apply negb_true_iff, str_eqb_neq in E. exact E.
Qed.

Lemma JsMap_delete_NoDup m k :
  NoDup (JsMap.keys m) -> NoDup (JsMap.keys (JsMap.delete m k)).
Proof.
  unfold JsMap.keys, JsMap.delete.
  induction m as [|[k0 v0] m IH]; simpl; [auto|].
  intros Hnd. apply NoDup_cons in Hnd as [Hnotin Hnd].
  destruct (negb (str_eqb k0 k)); simpl; [|exact (IH Hnd)].
  apply NoDup_cons. split; [|exact (IH Hnd)].
  intros Hin. apply Hnotin. apply list_elem_of_In in Hin.
  apply list_elem_of_In. apply in_map_iff in Hin as [[k1 v1] [<- Hin]].
  apply List.filter_In in Hin as [Hin _].
  apply (in_map fst) in Hin. exact Hin.
Qed.

(** Setting the entries of a Map, in order, on an empty Map gives the Map
    back. *)
Lemma JsMap_set_fresh m k v :
  JsMap.has m k = false -> JsMap.set m k v = m ++ [(k, v)].
Proof.
  unfold JsMap.has, JsMap.get.
  induction m as [|[k0 v0] m IH]; simpl; [reflexivity|].
  destruct (str_eqb k0 k); [discriminate|]. intros H. rewrite (IH H).
  reflexivity.
Qed.

Lemma JsMap_not_in_has m k : ~ In k (JsMap.keys m) -> JsMap.has m k = false.
Proof.
  unfold JsMap.has, JsMap.get, JsMap.keys.
  induction m as [|[k0 v0] m IH]; simpl; [reflexivity|].
  intros H. destruct (str_eqb k0 k) eqn:E.
  - apply str_eqb_eq in E. tauto.
  - apply IH. tauto.
Qed.

Lemma JsMap_restore (l acc : JsMap.t V) :
  NoDup (JsMap.keys (acc ++ l)) ->
  fold_left (fun a kv => JsMap.set a (fst kv) (snd kv)) l acc = acc ++ l.
Proof.
  revert acc. induction l as [|[k v] l IH]; intros acc Hnd; simpl.
  - rewrite app_nil_r. reflexivity.
  - rewrite JsMap_set_fresh.
    + rewrite IH; rewrite <- app_assoc; [reflexivity | exact Hnd].
    + apply JsMap_not_in_has. unfold JsMap.keys in *.
      rewrite map_app in Hnd. simpl in Hnd.
      apply NoDup_app in Hnd as (_ & Hdisj & _).
      intros Hin. apply (Hdisj k); [apply list_elem_of_In; exact Hin|].
      left.
Qed.

End JsMapFacts.

(** ** What the handlers leave alone *)

Lemma persistent_fields (st st' : State) :
  persistent st' = persistent st ->
  registeredUsers st' = registeredUsers st
  /\ adminId st' = adminId st
  /\ messages st' = messages st
  /\ bannedNicknames st' = bannedNicknames st
  /\ bannedUsers st' = bannedUsers st.
Proof.
  unfold persistent. intros H.
  injection H as H1 H2 H3 H4 H5 H6 H7 H8 H9 H10. auto 10.
Qed.

Lemma on_disconnect_persistent (st : State) (sid : jsstring) :
  persistent (fst (on_disconnect st sid)) = persistent st.
Proof. unfold on_disconnect. repeat case_match; reflexivity. Qed.

Lemma force_disconnect_persistent (st : State) (sid : jsstring) :
  persistent (fst (force_disconnect st sid)) = persistent st.
Proof.
  unfold force_disconnect. pose proof (on_disconnect_persistent st sid) as H.
  destruct (sockets st !! sid); [|reflexivity].
  destruct (on_disconnect st sid). exact H.
Qed.

Lemma ban_out_persistent (st : State) (sid : jsstring) :
  persistent (fst (ban_out st sid)) = persistent st.
Proof.
  unfold ban_out. pose proof (force_disconnect_persistent st sid) as H.
  destruct (force_disconnect st sid). exact H.
Qed.

Lemma banSession_persistent (acc : State * list Output) (sid : jsstring) :
  persistent (fst (banSession acc sid)) = persistent (fst acc).
Proof.
  unfold banSession. destruct acc as [st out].
  pose proof (ban_out_persistent st sid) as H.
  destruct (sockets st !! sid); [|reflexivity].
  destruct (ban_out st sid). exact H.
Qed.

Lemma banSessions_persistent (l : list jsstring) (acc : State * list Output) :
  persistent (fst (fold_left banSession l acc)) = persistent (fst acc).
Proof.
  revert acc. induction l as [|s l IH]; intros acc; simpl; [reflexivity|].
  rewrite IH. apply banSession_persistent.
Qed.
Lemma validateSessionToken_In (st : State) (v : JsVal) (user : RegUser.t) :
  validateSessionToken st v = Some user ->
  exists k, In (k, user) (registeredUsers st).
Proof.
  unfold validateSessionToken. intros H.
  repeat case_match; try discriminate. injection H as <-.
  eexists. eapply JsMap_get_In. eassumption.
Qed.

Lemma validateDeviceCode_In (st : State) (v : JsVal) (user : RegUser.t) :
  validateDeviceCode st v = Some user ->
  exists k, In (k, user) (registeredUsers st).
Proof.
  unfold validateDeviceCode. intros H.
  repeat case_match; try discriminate.
  apply find_some in H as [H _]. unfold JsMap.values in H.
  apply in_map_iff in H as [[k u] [<- H]]. exists k. exact H.
Qed.

Lemma rotate_core (st : State) (k : jsstring) (user : RegUser.t)
  (ip tok : jsstring) :
  In (k, user) (registeredUsers st) -> RegUser.id user = k ->
  core_step st (fst (fst (rotateOnIpChange st user ip tok))).
Proof.
  intros Hin Hid. unfold rotateOnIpChange.
  destruct (str_eqb (RegUser.ip user) ip); cbn [fst].
  - apply core_same; reflexivity.
  - subst k. eapply (core_update _ _ _ user); cycle 2.
    + state_simpl. reflexivity.
    + reflexivity.
    + exact Hin.
    + repeat split.
Qed.

(** [attach] and [trackSession] touch the connection tables only. *)
Lemma core_step_attach (st st1 : State) (sid uid : jsstring) (sk : Socket.t)
  (a : ActiveUser.t) :
  core_step st st1 -> core_step st (trackSession (attach st1 sid sk a) uid sid).
Proof.
  intros [H1 H2|k u u' H1 H2 H3 H4|k H1 H2|x u H1 H2 H3 H4 H5 H6].
  - apply core_same; assumption.
  - eapply core_update; eassumption.
  - eapply core_delete; eassumption.
  - eapply core_register; eassumption.
Qed.

Lemma core_step_persistent (st st1 st2 : State) :
  core_step st st1 -> persistent st2 = persistent st1 -> core_step st st2.
Proof.
  intros H Hp. apply persistent_fields in Hp as (Hr & Ha & _).
  destruct H as [H1 H2|k u u' H1 H2 H3 H4|k H1 H2|x u H1 H2 H3 H4 H5 H6].
  - apply core_same; congruence.
  - apply (core_update st st2 k u u' H1 H2); congruence.
  - apply (core_delete st st2 k); congruence.
  - apply (core_register st st2 x u H1 H2 H3 H4); congruence.
Qed.

Lemma persistent_core (st st' : State) :
  persistent st' = persistent st -> core_step st st'.
Proof.
  intros Hp. apply persistent_fields in Hp as (Hr & Ha & _).
  apply core_same; assumption.
Qed.

Lemma on_connection_core (st : State) (sid ip : jsstring)
  (cookie : option jsstring) (tok : jsstring) :
  invariant st -> core_step st (fst (on_connection st sid ip cookie tok)).
Proof.
  intros Hinv. unfold on_connection.
  destruct (bool_decide _); [apply core_same; reflexivity|].
  destruct cookie as [c|]; [|apply core_same; reflexivity].
  destruct (negb _); [apply core_same; reflexivity|].
  destruct (validateSessionToken _ _) as [user|] eqn:Ev;
    [|apply core_same; reflexivity].
  destruct (bool_decide _); [apply core_same; reflexivity|].
  apply validateSessionToken_In in Ev as [k Hin]. state_simpl.
  match goal with
  | |- context [rotateOnIpChange ?s user ip tok] =>
      pose proof (rotate_core s k user ip tok Hin (inv_ids st Hinv k user Hin)) as H;
      destruct (rotateOnIpChange s user ip tok) as [[st3 user'] o2]
  end.
  cbn [fst] in *.
  destruct H as [H1 H2|k' u u' H1 H2 H3 H4|k' H1 H2|x u H1 H2 H3 H4 H5 H6].
  - apply core_same; assumption.
  - eapply core_update; eassumption.
  - eapply core_delete; eassumption.
  - eapply core_register; eassumption.
Qed.

Lemma on_setFingerprint_core (st : State) (sid : jsstring) (v : JsVal) :
  core_step st (fst (on_setFingerprint st sid v)).
Proof.
  unfold on_setFingerprint.
  destruct (sockets st !! sid) as [sk|]; [|apply core_same; reflexivity].
  destruct v; try (apply core_same; reflexivity).
  destruct (negb _); [apply core_same; reflexivity|].
  destruct (bool_decide _); [|apply core_same; reflexivity].
  match goal with
  | |- context [ban_out ?s sid] =>
      pose proof (ban_out_persistent s sid) as H; destruct (ban_out s sid)
  end.
  cbn [fst] in *. apply persistent_core.
  unfold persistent in *. state_simpl. exact H.
Qed.
Lemma deviceLogin_core (st : State) (sid : jsstring) (sk : Socket.t)
  (user : RegUser.t) (tok : jsstring) (now : Z) (k : jsstring) :
  In (k, user) (registeredUsers st) -> RegUser.id user = k ->
  core_step st (fst (deviceLogin st sid sk user tok now)).
Proof.
  intros Hin Hid. unfold deviceLogin.
  destruct (bool_decide _); [apply core_same; reflexivity|].
  cbn [fst]. subst k. eapply (core_update _ _ _ user); cycle 2.
  - state_simpl. reflexivity.
  - reflexivity.
  - exact Hin.
  - repeat split.
Qed.

Lemma register_core (st : State) (sid : jsstring) (sk : Socket.t)
  (nickname uid tok : jsstring) (hue now : Z) :
  uid <> [] ->
  core_step st (fst (register st sid sk nickname uid tok hue now)).
Proof.
  intros Huid. unfold register, emit_error.
  destruct (negb (truthy (JStr nickname)) || _ || _) eqn:E1;
    [apply core_same; reflexivity|].
  destruct (negb (Re.matches englishOnly nickname)) eqn:E2;
    [apply core_same; reflexivity|].
  destruct (negb (isNicknameAvailable st nickname));
    [apply core_same; reflexivity|].
  cbn [fst].
  set (isAdmin := negb (truthy_str (adminId st))
                  && str_eqb (toLowerCase nickname) (js "mefisto")).
  eapply (core_register _ _ uid
            (RegUser.mk uid nickname hue isAdmin (Socket.clientIP sk) tok None)).
  - exact Huid.
  - reflexivity.
  - unfold nickname_ok. cbn [RegUser.nickname]. rewrite E1.
    apply negb_false_iff in E2. rewrite E2. reflexivity.
  - reflexivity.
  - destruct (Socket.clientFingerprint sk) as [fp|];
      [destruct (truthy_str (Some fp))|]; destruct isAdmin; reflexivity.
  - destruct (Socket.clientFingerprint sk) as [fp|];
      [destruct (truthy_str (Some fp))|]; destruct isAdmin; reflexivity.
Qed.

Lemma on_setNickname_core (st st' : State) (sid : jsstring) (v : JsVal)
  (uid tok : jsstring) (hue now : Z) (out : list Output) :
  invariant st -> uid <> [] ->
  on_setNickname st sid v uid tok hue now = Done st' out ->
  core_step st st'.
Proof.
  intros Hinv Huid. unfold on_setNickname.
  destruct (sockets st !! sid) as [sk|];
    [|intros [= <- <-]; apply core_same; reflexivity].
  destruct (socket_banned st sk).
  { pose proof (ban_out_persistent st sid) as H.
    destruct (ban_out st sid). intros [= <- <-].
    apply persistent_core. exact H. }
  destruct v;
    try (destruct (truthy _); [discriminate|]; intros [= <- <-];
         apply core_same; reflexivity);
    try (intros [= <- <-]; apply core_same; reflexivity).
  match goal with
  | |- context [match ?d with Some _ => _ | None => _ end] =>
      destruct d as [user|] eqn:Ed
  end.
  - assert (Hv : validateDeviceCode st (JStr (toUpperCase l)) = Some user)
      by (destruct (_ && _); [exact Ed | discriminate]).
    apply validateDeviceCode_In in Hv as [k Hin].
    pose proof (deviceLogin_core st sid sk user tok now k Hin
                  (inv_ids st Hinv k user Hin)) as H.
    destruct (deviceLogin st sid sk user tok now). intros [= <- <-]. exact H.
  - pose proof (register_core st sid sk l uid tok hue now Huid) as H.
    destruct (register st sid sk l uid tok hue now). intros [= <- <-]. exact H.
Qed.

Lemma on_rejoin_core (st : State) (sid : jsstring) (v : JsVal)
  (tok : jsstring) (now : Z) :
  invariant st -> core_step st (fst (on_rejoin st sid v tok now)).
Proof.
  intros Hinv. unfold on_rejoin, emit_error.
  destruct (sockets st !! sid) as [sk|]; [|apply core_same; reflexivity].
  destruct (socket_banned st sk).
  { apply persistent_core. apply ban_out_persistent. }
  destruct (negb (truthy v) || _); [apply core_same; reflexivity|].
  destruct (validateSessionToken st _) as [user|] eqn:Ev;
    [|apply core_same; reflexivity].
  destruct (bool_decide _); [apply core_same; reflexivity|].
  apply validateSessionToken_In in Ev as [k Hin].
  pose proof (rotate_core st k user (Socket.clientIP sk) tok Hin
                (inv_ids st Hinv k user Hin)) as H.
  destruct (rotateOnIpChange st user (Socket.clientIP sk) tok)
    as [[st1 user'] o1].
  cbn [fst] in *. apply core_step_attach. exact H.
Qed.

Lemma on_generateDeviceCode_core (st : State) (sid : jsstring) (rnd : Rand) :
  core_step st (fst (on_generateDeviceCode st sid rnd)).
Proof.
  unfold on_generateDeviceCode, emit_error.
  destruct (sockets st !! sid) as [sk|]; [|apply core_same; reflexivity].
  destruct (if truthy_str _ then _ else _) as [user|];
    [|apply core_same; reflexivity].
  destruct (JsMap.get _ _) as [ru|] eqn:Eg; [|apply core_same; reflexivity].
  cbn [fst]. apply JsMap_get_In in Eg.
  eapply (core_update _ _ _ ru); cycle 2.
  - state_simpl. reflexivity.
  - reflexivity.
  - exact Eg.
  - repeat split.
Qed.

Lemma on_message_core (st st' : State) (sid : jsstring) (v : JsVal)
  (mid : jsstring) (now : Z) (out : list Output) :
  on_message st sid v mid now = Done st' out -> core_step st st'.
Proof.
  unfold on_message. intros H.
  repeat case_match; try discriminate; injection H as <- <-;
    apply core_same; reflexivity.
Qed.

Lemma banRecords_fields (st : State) (target : jsstring) (data : RegUser.t) :
  let st' := banRecords st target data in
  registeredUsers st' = registeredUsers st
  /\ adminId st' = adminId st
  /\ messages st' = messages st
  /\ userSessions st' = userSessions st
  /\ bannedNicknames st'
     = {[toLowerCase (RegUser.nickname data)]} ∪ bannedNicknames st.
Proof.
  cbv zeta. unfold banRecords. repeat case_match; state_simpl; auto.
Qed.

Lemma banMessages_fields (st : State) (target : jsstring) :
  let st' := fst (banMessages st target) in
  registeredUsers st' = registeredUsers st
  /\ adminId st' = adminId st
  /\ userSessions st' = userSessions st
  /\ bannedNicknames st' = bannedNicknames st.
Proof.
  cbv zeta. unfold banMessages.
  destruct (removeMessagesOf target (rev (messages st))). auto.
Qed.

Lemma banSessions_persistent' (st : State) (target : jsstring) :
  persistent (fst (banSessions st target)) = persistent st.
Proof.
  unfold banSessions. destruct (userSessions st !! target) as [sessions|];
    [|reflexivity].
  pose proof (banSessions_persistent (elements sessions) (st, [])) as Hp.
  destruct (fold_left banSession (elements sessions) (st, [])) as [s o].
  exact Hp.
Qed.

Lemma on_banUser_core (st : State) (sid : jsstring) (v : JsVal) :
  core_step st (fst (on_banUser st sid v)).
Proof.
  unfold on_banUser, emit_error.
  destruct (sockets st !! sid) as [sk|]; [|apply core_same; reflexivity].
  destruct (negb _ || _); [apply core_same; reflexivity|].
  destruct v; try (apply core_same; reflexivity).
  destruct (JsMap.get _ _) as [data|]; [|apply core_same; reflexivity].
  destruct (bool_decide (Some l = adminId st)); [apply core_same; reflexivity|].
  destruct (banRecords_fields st l data) as (R1 & A1 & _).
  pose proof (banMessages_fields (banRecords st l data) l) as (R2 & A2 & _).
  destruct (banMessages (banRecords st l data) l) as [st5 o5].
  pose proof (banSessions_persistent' st5 l) as Hp.
  destruct (banSessions st5 l) as [st6 o6].
  cbn [fst] in *. apply persistent_fields in Hp as (R3 & A3 & _).
  apply (core_delete _ _ l); state_simpl; congruence.
Qed.

Lemma step_core (st : State) (ev : Event) (st' : State) (out : list Output) :
  invariant st -> runtime_ok ev -> step st ev = Done st' out ->
  core_step st st'
  \/ (is_clearUsers ev = true /\ registeredUsers st' = [] /\ adminId st' = None).
Proof.
  intros Hinv Hok Hstep. destruct ev; cbn [step ok] in Hstep;
    try (injection Hstep as <- <-).
  - left. apply on_connection_core. exact Hinv.
  - left. apply on_setFingerprint_core.
  - left. eapply on_setNickname_core; eassumption.
  - left. apply on_rejoin_core. exact Hinv.
  - left. apply on_generateDeviceCode_core.
  - left. eapply on_message_core; eassumption.
  - left. apply on_banUser_core.
  - left. apply persistent_core. apply on_disconnect_persistent.
  - left. unfold on_clearBans. destruct (negb _); apply core_same; reflexivity.
  - unfold on_clearUsers. destruct (negb _);
      [left; apply core_same; reflexivity | right; auto].
  - left. unfold on_unbanIp. repeat case_match; apply core_same; reflexivity.
  - left. apply core_same; reflexivity.
Qed.

(** ** The invariant *)

Lemma invariant_init : invariant init.
Proof.
  split; simpl; try tauto. apply NoDup_nil_2.
Qed.

Lemma invariant_core_step (st st' : State) :
  invariant st -> core_step st st' -> invariant st'.
Proof.
  intros [Hk Hi Ha Haid Hn]
    [H1 H2|k u u' Hin [S1 [S2 S3]] H3 H4|k H1 H2|x u Hx Hid Hnick Hadm H5 H6].
  - split; rewrite ?H1, ?H2; assumption.
  - pose proof (Hi k u Hin) as Hku.
    split; rewrite ?H3, ?H4.
    + apply JsMap_set_NoDup. exact Hk.
    + intros k' v' H. apply JsMap_set_In in H as [[= -> ->]|H];
        [congruence | exact (Hi _ _ H)].
    + intros k' v' H Hv. apply JsMap_set_In in H as [[= -> ->]|H];
        [apply (Ha _ _ Hin); congruence | exact (Ha _ _ H Hv)].
    + exact Haid.
    + intros k' v' H. apply JsMap_set_In in H as [[= -> ->]|H];
        [rewrite S2; exact (Hn _ _ Hin) | exact (Hn _ _ H)].
  - split; rewrite ?H1, ?H2.
    + apply JsMap_delete_NoDup. exact Hk.
    + intros k' v' H. apply JsMap_delete_In in H as [H _]. exact (Hi _ _ H).
    + intros k' v' H. apply JsMap_delete_In in H as [H _]. exact (Ha _ _ H).
    + exact Haid.
    + intros k' v' H. apply JsMap_delete_In in H as [H _]. exact (Hn _ _ H).
  - split; rewrite ?H5, ?H6.
    + apply JsMap_set_NoDup. exact Hk.
    + intros k' v' H. apply JsMap_set_In in H as [[= -> ->]|H];
        [exact Hid | exact (Hi _ _ H)].
    + intros k' v' H Hv. apply JsMap_set_In in H as [[= -> ->]|H].
      * rewrite Hv. reflexivity.
      * destruct (RegUser.isAdmin u) eqn:Eu; [|exact (Ha _ _ H Hv)].
        symmetry in Hadm. apply andb_true_iff in Hadm as [Hadm _].
        apply negb_true_iff in Hadm. pose proof (Ha _ _ H Hv) as Hk'.
        destruct Haid as [Haid|Haid]; congruence.
    + destruct (RegUser.isAdmin u); [|exact Haid].
      right. destruct x; [congruence | reflexivity].
    + intros k' v' H. apply JsMap_set_In in H as [[= -> ->]|H];
        [exact Hnick | exact (Hn _ _ H)].
Qed.

Lemma restore_sets (l : list jsstring) (s : gset jsstring) :
  addAll l s = list_to_set l ∪ s.
Proof.
  unfold addAll. revert s. induction l as [|x l IH]; intros s; simpl.
  - set_solver.
  - rewrite IH. set_solver.
Qed.

Lemma restore_elements (s : gset jsstring) : addAll (elements s) ∅ = s.
Proof.
  rewrite restore_sets, list_to_set_elements_L. set_solver.
Qed.

(** What a restart restores of the persistent state. *)
Lemma restart_fields (st : State) (saved loaded : Z) :
  invariant st ->
  let st' := loadData (Some (saveData st saved)) loaded init in
  registeredUsers st' = registeredUsers st
  /\ adminId st' = adminId st
  /\ bannedUsers st' = bannedUsers st
  /\ bannedNicknames st' = bannedNicknames st
  /\ bannedIPs st' = bannedIPs st
  /\ bannedFingerprints st' = bannedFingerprints st
  /\ messages st'
     = List.filter
         (fun msg => Z.ltb (loaded - MESSAGE_RETENTION_TIME)
                       (Message.timestamp msg))
         (sliceLast 1000 (messages st)).
Proof.
  intros Hinv. cbv zeta. unfold loadData, saveData.
  cbn [Snapshot.registeredUsers Snapshot.adminId Snapshot.bannedUsers
       Snapshot.bannedNicknames Snapshot.bannedIPs Snapshot.bannedFingerprints
       Snapshot.messages]. state_simpl.
  rewrite !restore_elements.
  split; [|split]; [| |auto 10].
  - change (registeredUsers init) with (@nil (jsstring * RegUser.t)).
    rewrite JsMap_restore; [reflexivity|]. exact (inv_keys st Hinv).
  - destruct (inv_adminId st Hinv) as [E|E]; rewrite E; [|reflexivity].
    change (adminId init) with (@None jsstring). symmetry.
    destruct (adminId st); [discriminate|reflexivity].
Qed.

Lemma reachable_invariant (st : State) : reachable st -> invariant st.
Proof.
  induction 1 as [|st ev st' out Hr IH Hok Hstep|st saved loaded Hr IH].
  - exact invariant_init.
  - destruct (step_core st ev st' out IH Hok Hstep) as [Hc|(_ & Hreg & Hadm)].
    + exact (invariant_core_step st st' IH Hc).
    + split; rewrite ?Hreg, ?Hadm; try (intros ? ? []); auto.
      apply NoDup_nil_2.
  - destruct (restart_fields st saved loaded IH) as (Hreg & Hadm & _).
    destruct IH as [Hk Hi Ha Haid Hn].
    split; rewrite ?Hreg, ?Hadm; assumption.
Qed.

Lemma run_app (st : State) (evs1 evs2 : list Event) (out : list Output) :
  run st (evs1 ++ evs2) out
  = match run st evs1 out with
    | Done st' out' => run st' evs2 out'
    | Uncaught e => Uncaught e
    end.
Proof.
  revert st out. induction evs1 as [|ev evs1 IH]; intros st out; simpl;
    [reflexivity|].
  destruct (step st ev); [apply IH | reflexivity].
Qed.

Lemma run_reachable (evs : list Event) (st st' : State) (out out' : list Output) :
  reachable st -> Forall runtime_ok evs -> run st evs out = Done st' out' ->
  reachable st'.
Proof.
  revert st out. induction evs as [|ev evs IH]; intros st out Hr Hok; simpl.
  - intros [= <- _]. exact Hr.
  - apply Forall_cons in Hok as [Hev Hok].
    destruct (step st ev) as [st1 o|] eqn:E; [|discriminate].
    intros H. eapply IH; [|exact Hok|exact H].
    eapply reachable_step; eassumption.
Qed.

(** ** The admin *)

Lemma core_step_adminId (st st' : State) :
  core_step st st' -> truthy_str (adminId st) = true ->
  adminId st' = adminId st.
Proof.
  intros [H1 H2|k u u' Hin Hs H3 H4|k H1 H2|x u Hx Hid Hnick Hadm H5 H6] Ht;
    try assumption.
  rewrite H6, Hadm, Ht. reflexivity.
Qed.

Lemma JsMap_get_set_eq {V : Type} (m : JsMap.t V) (k : jsstring) (v : V) :
  JsMap.get (JsMap.set m k v) k = Some v.
Proof.
  unfold JsMap.get. induction m as [|[k0 v0] m IH]; simpl.
  - rewrite str_eqb_refl. reflexivity.
  - destruct (str_eqb k0 k) eqn:E; simpl.
    + rewrite str_eqb_refl. reflexivity.
    + rewrite E. exact IH.
Qed.



(** *** What changes [adminId]

    In any state, also one that a late load has produced, the handlers leave
    a set [adminId] alone, the clear-users endpoint apart. *)












Lemma reachable_occurs (st : State) : reachable st -> occurs st.
Proof.
  induction 1 as [|st ev st' out _ IH Hok Hs|st saved loaded _ IH].
  - exact (occurs_early init early_init).
  - exact (occurs_step st ev st' out IH Hok Hs).
  - exact (occurs_load st saved loaded init IH early_init).
Qed.

Lemma run_early (evs : list Event) (st st' : State) (out out' : list Output) :
  early st -> Forall runtime_ok evs -> run st evs out = Done st' out' ->
  early st'.
Proof.
  revert st out. induction evs as [|ev evs IH]; intros st out Hr Hok; simpl.
  - intros [= <- _]. exact Hr.
  - apply Forall_cons in Hok as [Hev Hok].
    destruct (step st ev) as [st1 o|] eqn:E; [|discriminate].
    intros H. eapply IH; [|exact Hok|exact H].
    eapply early_step; eassumption.
Qed.

Lemma state_of_run_early (evs : list Event) :
  Forall runtime_ok evs ->
  (exists st out, run init evs [] = Done st out) ->
  early (state_of (run init evs [])).
Proof.
  intros Hok (st & out & E). rewrite E.
  exact (run_early evs init st [] out early_init Hok E).
Qed.

(** What a load that completes late does to the admin: the process has
    made u9 the admin before its load completes; the load merges the stored
    identities into the register and overwrites [adminId] with the stored
    one, so that u9 and u1 are both registered with isAdmin=true, under
    nicknames that are equal up to case, and [adminId] has changed from u9
    to u1 without a call of the clear-users endpoint. *)
Lemma late_load_gives_two_admins :
  occurs late_loaded
  /\ adminId early_mefisto = Some (js "u9")
  /\ adminId late_loaded = Some (js "u1")
  /\ JsMap.keys (registeredUsers late_loaded) = [js "u9"; js "u1"]
  /\ option_map RegUser.isAdmin
       (JsMap.get (registeredUsers late_loaded) (js "u9")) = Some true
  /\ option_map RegUser.isAdmin
       (JsMap.get (registeredUsers late_loaded) (js "u1")) = Some true
  /\ option_map RegUser.nickname
       (JsMap.get (registeredUsers late_loaded) (js "u9")) = Some (js "Mefisto")
  /\ option_map RegUser.nickname
       (JsMap.get (registeredUsers late_loaded) (js "u1")) = Some (js "mefisto").
Proof.
  split.
  - unfold late_loaded. apply occurs_load; [apply occurs_early|];
      (apply state_of_run_early;
       [repeat constructor; discriminate
       |eexists _, _; vm_compute; reflexivity]).
  - repeat split; vm_compute; reflexivity.
Qed.



(** ** Snapshots *)

(** C9, as stated, fails: after alice has sent 1001 messages, none of them
    expired, a snapshot saved and loaded again restores the last 1000 of
    them only. *)
Lemma snapshot_keeps_last_1000_messages :
  length (messages (state_of (run init busy_run []))) = 1001%nat
  /\ length (messages (restart (state_of (run init busy_run [])) 5000 6000))
     = 1000%nat
  /\ ~ restores_unexpired_messages (state_of (run init busy_run [])) 5000 6000.
Proof.
  assert (E1 : length (messages (state_of (run init busy_run []))) = 1001%nat)
    by (vm_compute; reflexivity).
  assert (E2 : length (messages (restart (state_of (run init busy_run []))
                                   5000 6000)) = 1000%nat)
    by (vm_compute; reflexivity).
  split; [exact E1|]. split; [exact E2|].
  intros H. apply (f_equal (@length _)) in H. rewrite E2 in H.
  vm_compute in H. discriminate H.
Qed.

Lemma sliceLast_short {A : Type} (n : nat) (l : list A) :
  (length l <= n)%nat -> sliceLast n l = l.
Proof.
  intros H. unfold sliceLast.
  replace (length l - n)%nat with 0%nat by lia. reflexivity.
Qed.

(** C9, amended: a snapshot saved from a reachable state and loaded into the
    empty state restores the registered identities and the four ban sets as
    they were; of the message log it restores, in order, the messages among
    the last 1000 of the saved log whose timestamp is later than the load
    time minus the retention time, and drops the others; a log of at most
    1000 messages loses its expired messages only. *)
Theorem snapshot_round_trip (st : State) (saved loaded : Z) :
  reachable st ->
  let st' := restart st saved loaded in
  registeredUsers st' = registeredUsers st
  /\ bannedUsers st' = bannedUsers st
  /\ bannedNicknames st' = bannedNicknames st
  /\ bannedIPs st' = bannedIPs st
  /\ bannedFingerprints st' = bannedFingerprints st
  /\ messages st'
     = List.filter
         (fun msg => Z.ltb (loaded - MESSAGE_RETENTION_TIME)
                       (Message.timestamp msg))
         (sliceLast 1000 (messages st))
  /\ ((length (messages st) <= 1000)%nat ->
      messages st'
      = List.filter
          (fun msg => Z.ltb (loaded - MESSAGE_RETENTION_TIME)
                        (Message.timestamp msg))
          (messages st)).
Proof.
  intros Hr. cbv zeta. unfold restart.
  destruct (restart_fields st saved loaded (reachable_invariant st Hr))
    as (H1 & _ & H2 & H3 & H4 & H5 & H6).
  repeat (split; [assumption|]).
  intros Hlen. rewrite H6, (sliceLast_short 1000 _ Hlen). reflexivity.
Qed.

Lemma busy_run_reachable : reachable (state_of (run init busy_run [])).
Proof.
  destruct (run init busy_run []) as [st out|e] eqn:E;
    [|vm_compute in E; discriminate E].
  refine (run_reachable busy_run init st [] out reachable_init _ E).
  unfold busy_run, chatter. apply Forall_app. split.
  - repeat constructor; vm_compute; discriminate.
  - apply Forall_forall. intros ev Hev. apply list_elem_of_In in Hev.
    apply in_map_iff in Hev as (i & <- & _). exact I.
Qed.

Lemma snapshot_round_trip_witness :
  reachable (state_of (run init busy_run []))
  /\ JsMap.keys
       (registeredUsers (restart (state_of (run init busy_run [])) 5000 6000))
     = [js "u1"].
Proof.
  split; [exact busy_run_reachable|].
  rewrite (proj1 (snapshot_round_trip _ 5000 6000 busy_run_reachable)).
  vm_compute. reflexivity.
Defined.

(** ** Banned nicknames stay banned *)










(** ** Nicknames *)

Lemma matches_Void (s : jsstring) : Re.matches Re.Void s = false.
Proof. induction s as [|c s IH]; [reflexivity | exact IH]. Qed.

Lemma matches_star_class (p : N -> bool) (s : jsstring) :
  Re.matches (Re.Star (Re.Cls p)) s = forallb p s.
Proof.
  induction s as [|c s IH]; [reflexivity|].
  cbn [Re.matches Re.deriv forallb]. destruct (p c); cbn [andb].
  - exact IH.
  - apply matches_Void.
Qed.

(** [/^[a-zA-Z0-9_]+$/] holds of the non-empty strings of word characters. *)
Lemma englishOnly_spec (s : jsstring) :
  Re.matches englishOnly s
  = match s with [] => false | _ => forallb is_word s end.
Proof.
  destruct s as [|c s]; [reflexivity|].
  unfold englishOnly, Re.plus, word.
  cbn [Re.matches Re.deriv Re.nullable forallb]. destruct (is_word c); cbn [andb].
  - apply matches_star_class.
  - apply matches_Void.
Qed.

Lemma is_word_not_space (c : N) : is_word c = true -> is_space c = false.
Proof.
  unfold is_word, is_alpha, is_upper, is_lower, is_digit, is_space, in_range.
  intros H. apply not_true_is_false. intros Hs.
  repeat rewrite ?orb_true_iff, ?andb_true_iff, ?N.leb_le, ?N.eqb_eq in H.
  repeat rewrite ?orb_true_iff, ?andb_true_iff, ?N.leb_le, ?N.eqb_eq in Hs.
  lia.
Qed.

Lemma trimStart_word (s : jsstring) :
  forallb is_word s = true -> trimStart s = s.
Proof.
  destruct s as [|c s]; [reflexivity|]. cbn [forallb trimStart].
  intros H. apply andb_true_iff in H as [H _].
  rewrite (is_word_not_space c H). reflexivity.
Qed.

Lemma trim_word (s : jsstring) : forallb is_word s = true -> trim s = s.
Proof.
  intros H. unfold trim, trimEnd. rewrite (trimStart_word s H).
  rewrite trimStart_word; [apply rev_involutive|].
  apply forallb_forall. intros x Hx. apply in_rev in Hx.
  exact (proj1 (forallb_forall _ _) H x Hx).
Qed.

Lemma same_up_to_case_lower (a b : jsstring) :
  same_up_to_case a b -> toLowerCase a = toLowerCase b.
Proof.
  induction 1 as [|x y a b Hxy _ IH]; [reflexivity|].
  cbn [toLowerCase List.map]. f_equal; [|exact IH].
  destruct Hxy as [->|(_ & _ & H)]; [reflexivity | exact H].
Qed.

Lemma is_alpha_word (c : N) : is_alpha c = true -> is_word c = true.
Proof. unfold is_word. intros ->. reflexivity. Qed.

Lemma same_up_to_case_word (a b : jsstring) :
  same_up_to_case a b -> forallb is_word b = true -> forallb is_word a = true.
Proof.
  induction 1 as [|x y a b Hxy _ IH]; [reflexivity|].
  cbn [forallb]. intros H. apply andb_true_iff in H as [Hy Hb].
  apply andb_true_iff. split; [|exact (IH Hb)].
  destruct Hxy as [->|(Hx & _ & _)]; [exact Hy | exact (is_alpha_word x Hx)].
Qed.

(** A nickname that passes the checks of the registration is a string of 3
    to 20 word characters. *)
Lemma nickname_ok_spec (s : jsstring) :
  nickname_ok s = true
  <-> forallb is_word s = true /\ (3 <= length s <= 20)%nat.
Proof.
  unfold nickname_ok. rewrite englishOnly_spec. split.
  - intros H. apply andb_true_iff in H as [H1 H2].
    destruct s as [|c s]; [discriminate|].
    rewrite (trim_word _ H2) in H1.
    apply negb_true_iff in H1. apply orb_false_iff in H1 as [H1 H3].
    apply orb_false_iff in H1 as [_ H1].
    apply Nat.ltb_ge in H1, H3. auto.
  - intros [Hw Hl]. rewrite (trim_word _ Hw).
    destruct s as [|c s]; [simpl in Hl; lia|].
    rewrite Hw, andb_true_r. apply negb_true_iff.
    apply orb_false_iff. split; [apply orb_false_iff; split|].
    + reflexivity.
    + apply Nat.ltb_ge. lia.
    + apply Nat.ltb_ge. lia.
Qed.

Lemma same_up_to_case_ok (a b : jsstring) :
  same_up_to_case a b -> nickname_ok b = true -> nickname_ok a = true.
Proof.
  intros H Hb. apply nickname_ok_spec in Hb as [Hw Hl].
  apply nickname_ok_spec. split; [exact (same_up_to_case_word a b H Hw)|].
  rewrite (Forall2_length _ _ _ H). exact Hl.
Qed.

(** ** The ban cascade *)














(** The two other ways in which a setNickname with a banned nickname is not
    answered with NicknameTaken: from a banned origin it is answered with
    banned, here bob's own connection after [ban_run]; and a text that is
    an assigned device code is a login, here aaaa after
    [shadowed_nickname_run], where AAAA is both the banned nickname of u2
    and the device code of vera. *)
Lemma banned_nickname_other_answers :
  In (ToSocket (js "s2") EBanned)
     (out_of (step (state_of (run init ban_run []))
                (setNick "s2" "bob" "u3" "t3")))
  /\ ~ rejected_as_taken
         (step (state_of (run init ban_run [])) (setNick "s2" "bob" "u3" "t3"))
         (js "s2")
  /\ js "aaaa" ∈ bannedNicknames (state_of (run init shadowed_nickname_run []))
  /\ In (ToSocket (js "s4")
           (ENicknameAccepted (js "u3") (js "vera") 0 None (js "t4") false
              IsDeviceLogin))
        (out_of (step (state_of (run init shadowed_nickname_run []))
                   (setNick "s4" "aaaa" "u4" "t4"))).
Proof.
  split; [vm_compute; tauto|].
  split; [intros [st H]; vm_compute in H; discriminate H|].
  split; [decide_by_computation|].
  vm_compute. tauto.
Qed.

(** ** The token of a device-code login *)

(** In every state, the token that a device-code login hands out does not
    validate afterwards, unless it happens to equal the token the identity
    already has: the login indexes it and leaves [user.sessionToken] as it
    was. *)
Lemma deviceLogin_token_never_validates (st : State) (sid : jsstring)
  (sk : Socket.t) (user : RegUser.t) (tok : jsstring) (now : Z) :
  tok <> RegUser.sessionToken user ->
  RegUser.id user ∉ bannedUsers st ->
  validateSessionToken (fst (deviceLogin st sid sk user tok now)) (JStr tok)
  = None.
Proof.
  intros Hne Hnb. unfold deviceLogin.
  rewrite (bool_decide_eq_false_2 _ Hnb).
  cbn [fst]. unfold validateSessionToken, trackSession, attach. state_simpl.
  destruct (negb (truthy (JStr tok))); [reflexivity|].
  rewrite lookup_insert_eq.
  destruct (negb (truthy (JStr (RegUser.id user)))); [reflexivity|].
  rewrite JsMap_get_set_eq. cbn [RegUser.sessionToken].
  assert (E : str_eqb (RegUser.sessionToken user) tok = false)
    by (apply str_eqb_neq; congruence).
  rewrite E. reflexivity.
Qed.

(** * Further properties *)

(** ** What one event does to identities, tokens and bans *)

Lemma live_reachable (st : State) : live st -> reachable st.
Proof.
  induction 1 as [|st ev st' out _ IH Hf Hs|st saved loaded _ IH].
  - exact reachable_init.
  - apply (reachable_step st ev st' out IH); [|exact Hs].
    destruct ev; try exact I. exact (proj1 Hf).
  - exact (reachable_restart st saved loaded IH).
Qed.

Lemma persistent_effect (uid tok : jsstring) (st st' : State) :
  persistent st' = persistent st -> effect uid tok st st'.
Proof.
  unfold persistent. intros H.
  injection H as H1 H2 H3 H4 H5 H6 H7 H8 H9 H10.
  apply eff_none; assumption.
Qed.

Lemma effect_persistent (uid tok : jsstring) (st st1 st2 : State) :
  effect uid tok st st1 -> persistent st2 = persistent st1 ->
  effect uid tok st st2.
Proof.
  unfold persistent. intros H Hp.
  injection Hp as H1 H2 H3 H4 H5 H6 H7 H8 H9 H10.
  destruct H.
  - apply eff_none; congruence.
  - apply (eff_rotate uid tok st st2 k u ip); first [assumption | congruence].
  - apply (eff_login uid tok st st2 k u); first [assumption | congruence].
  - apply (eff_code uid tok st st2 k u code); first [assumption | congruence].
  - apply (eff_register uid tok st st2 nickname ip hue isAdmin);
      first [assumption | congruence].
  - apply (eff_ban uid tok st st2 target data); first [assumption | congruence].
  - apply eff_unban;
      first [congruence
            | match goal with
              | E : ?a = _ |- ?a ⊆ _ => rewrite E; assumption
              end].
  - apply eff_clearUsers; congruence.
Qed.


Lemma rotate_effect (uid tok : jsstring) (st : State) (k : jsstring)
  (user : RegUser.t) (ip : jsstring) :
  fresh_token st tok ->
  In (k, user) (registeredUsers st) -> RegUser.id user = k ->
  ip ∉ bannedIPs st ->
  effect uid tok st (fst (fst (rotateOnIpChange st user ip tok))).
Proof.
  intros Hf Hin Hid Hip. unfold rotateOnIpChange.
  destruct (str_eqb (RegUser.ip user) ip); cbn [fst].
  - apply eff_none; reflexivity.
  - subst k. apply (eff_rotate uid tok _ _ (RegUser.id user) user ip);
      try reflexivity; assumption.
Qed.

Lemma persistent_all (st st' : State) :
  persistent st' = persistent st ->
  registeredUsers st' = registeredUsers st
  /\ sessionTokens st' = sessionTokens st
  /\ messages st' = messages st
  /\ userLastMessages st' = userLastMessages st
  /\ bannedUsers st' = bannedUsers st
  /\ bannedNicknames st' = bannedNicknames st
  /\ bannedIPs st' = bannedIPs st
  /\ bannedFingerprints st' = bannedFingerprints st
  /\ userFingerprints st' = userFingerprints st
  /\ adminId st' = adminId st.
Proof.
  unfold persistent. intros H.
  injection H as H1 H2 H3 H4 H5 H6 H7 H8 H9 H10. auto 12.
Qed.

Lemma effect_from_persistent (uid tok : jsstring) (st0 st st' : State) :
  persistent st0 = persistent st -> effect uid tok st0 st' ->
  effect uid tok st st'.
Proof.
  intros Hp H.
  destruct (persistent_all _ _ Hp)
    as (R & T & _ & _ & BU & BN & BI & _ & _ & A).
  assert (Hav : forall n, isNicknameAvailable st0 n = isNicknameAvailable st n)
    by (intros n; unfold isNicknameAvailable; rewrite R, BN; reflexivity).
  assert (Hip : adminIP st0 = adminIP st)
    by (unfold adminIP; rewrite R, A; reflexivity).
  destruct H;
    [ apply eff_none
    | apply (eff_rotate uid tok st st' k u ip)
    | apply (eff_login uid tok st st' k u)
    | apply (eff_code uid tok st st' k u code)
    | apply (eff_register uid tok st st' nickname ip hue isAdmin)
    | apply (eff_ban uid tok st st' target data)
    | apply eff_unban
    | apply eff_clearUsers ];
    first [ congruence
          | unfold fresh_token in *;
            rewrite <- ?Hav, <- ?Hip, <- ?R, <- ?T, <- ?BU, <- ?BI, <- ?A;
            assumption ].
Qed.

Lemma on_connection_effect (uid tok : jsstring) (st : State) (sid ip : jsstring)
  (cookie : option jsstring) :
  invariant st -> fresh_token st tok ->
  effect uid tok st (fst (on_connection st sid ip cookie tok)).
Proof.
  intros Hinv Hf. unfold on_connection.
  destruct (bool_decide _) eqn:Eb; [apply eff_none; reflexivity|].
  apply bool_decide_eq_false in Eb.
  destruct cookie as [c|]; [|apply eff_none; reflexivity].
  destruct (negb _); [apply eff_none; reflexivity|].
  destruct (validateSessionToken _ _) as [user|] eqn:Ev;
    [|apply eff_none; reflexivity].
  destruct (bool_decide _); [apply eff_none; reflexivity|].
  apply validateSessionToken_In in Ev as [k Hin]. state_simpl.
  match goal with
  | |- context [rotateOnIpChange ?s user ip tok] =>
      pose proof (rotate_effect uid tok s k user ip Hf Hin
                    (inv_ids st Hinv k user Hin) Eb) as H;
      destruct (rotateOnIpChange s user ip tok) as [[st3 user'] o2]
  end.
  cbn [fst] in *. eapply effect_from_persistent; [|exact H]. reflexivity.
Qed.

Lemma on_setFingerprint_effect (uid tok : jsstring) (st : State)
  (sid : jsstring) (v : JsVal) :
  effect uid tok st (fst (on_setFingerprint st sid v)).
Proof.
  unfold on_setFingerprint.
  destruct (sockets st !! sid) as [sk|]; [|apply eff_none; reflexivity].
  destruct v; try (apply eff_none; reflexivity).
  destruct (negb _); [apply eff_none; reflexivity|].
  destruct (bool_decide _); [|apply eff_none; reflexivity].
  match goal with
  | |- context [ban_out ?s sid] =>
      pose proof (ban_out_persistent s sid) as H; destruct (ban_out s sid)
  end.
  cbn [fst] in *. apply persistent_effect.
  unfold persistent in *. state_simpl. exact H.
Qed.

Lemma socket_not_banned_ip (st : State) (sk : Socket.t) :
  socket_banned st sk = false -> Socket.clientIP sk ∉ bannedIPs st.
Proof.
  unfold socket_banned. intros H. apply orb_false_iff in H as [H _].
  apply bool_decide_eq_false in H. exact H.
Qed.

Lemma deviceLogin_effect (uid tok : jsstring) (st : State) (sid : jsstring)
  (sk : Socket.t) (user : RegUser.t) (now : Z) (k : jsstring) :
  fresh_token st tok ->
  In (k, user) (registeredUsers st) -> RegUser.id user = k ->
  effect uid tok st (fst (deviceLogin st sid sk user tok now)).
Proof.
  intros Hf Hin Hid. unfold deviceLogin.
  destruct (bool_decide _); [apply eff_none; reflexivity|].
  cbn [fst]. subst k.
  apply (eff_login uid tok _ _ (RegUser.id user) user);
    try reflexivity; assumption.
Qed.

Lemma register_effect (st : State) (sid : jsstring) (sk : Socket.t)
  (nickname uid tok : jsstring) (hue now : Z) :
  fresh_token st tok -> uid <> [] -> uid ∉ bannedUsers st ->
  socket_banned st sk = false ->
  effect uid tok st (fst (register st sid sk nickname uid tok hue now)).
Proof.
  intros Hf Hu Hnb Hb. unfold register, emit_error.
  destruct (negb (truthy (JStr nickname)) || _ || _) eqn:E1;
    [apply eff_none; reflexivity|].
  destruct (negb (Re.matches englishOnly nickname)) eqn:E2;
    [apply eff_none; reflexivity|].
  destruct (negb (isNicknameAvailable st nickname)) eqn:E3;
    [apply eff_none; reflexivity|].
  cbn [fst].
  apply (eff_register uid tok _ _ nickname (Socket.clientIP sk) hue
           (negb (truthy_str (adminId st))
            && str_eqb (toLowerCase nickname) (js "mefisto"))).
  - exact Hf.
  - exact Hu.
  - exact Hnb.
  - unfold nickname_ok. rewrite E1.
    apply negb_false_iff in E2. rewrite E2. reflexivity.
  - apply negb_false_iff in E3. exact E3.
  - exact (socket_not_banned_ip st sk Hb).
  - reflexivity.
  - destruct (Socket.clientFingerprint sk) as [fp|];
      [destruct (truthy_str (Some fp))|]; destruct (_ && _); reflexivity.
  - destruct (Socket.clientFingerprint sk) as [fp|];
      [destruct (truthy_str (Some fp))|]; destruct (_ && _); reflexivity.
  - destruct (Socket.clientFingerprint sk) as [fp|];
      [destruct (truthy_str (Some fp))|]; destruct (_ && _); reflexivity.
  - destruct (Socket.clientFingerprint sk) as [fp|];
      [destruct (truthy_str (Some fp))|]; destruct (_ && _); reflexivity.
  - destruct (Socket.clientFingerprint sk) as [fp|];
      [destruct (truthy_str (Some fp))|]; destruct (_ && _); reflexivity.
Qed.

Lemma on_setNickname_effect (st st' : State) (sid : jsstring) (v : JsVal)
  (uid tok : jsstring) (hue now : Z) (out : list Output) :
  invariant st ->
  fresh_token st tok -> uid <> [] -> uid ∉ bannedUsers st ->
  on_setNickname st sid v uid tok hue now = Done st' out ->
  effect uid tok st st'.
Proof.
  intros Hinv Hf Hu Hnb. unfold on_setNickname.
  destruct (sockets st !! sid) as [sk|];
    [|intros [= <- <-]; apply eff_none; reflexivity].
  destruct (socket_banned st sk) eqn:Eb.
  { pose proof (ban_out_persistent st sid) as H.
    destruct (ban_out st sid). intros [= <- <-].
    apply persistent_effect. exact H. }
  destruct v;
    try (destruct (truthy _); [discriminate|]; intros [= <- <-];
         apply eff_none; reflexivity);
    try (intros [= <- <-]; apply eff_none; reflexivity).
  match goal with
  | |- context [match ?d with Some _ => _ | None => _ end] =>
      destruct d as [user|] eqn:Ed
  end.
  - assert (Hv : validateDeviceCode st (JStr (toUpperCase l)) = Some user)
      by (destruct (_ && _); [exact Ed | discriminate]).
    apply validateDeviceCode_In in Hv as [k Hin].
    pose proof (deviceLogin_effect uid tok st sid sk user now k Hf Hin
                  (inv_ids st Hinv k user Hin)) as H.
    destruct (deviceLogin st sid sk user tok now). intros [= <- <-]. exact H.
  - pose proof (register_effect st sid sk l uid tok hue now Hf Hu Hnb Eb) as H.
    destruct (register st sid sk l uid tok hue now). intros [= <- <-]. exact H.
Qed.

Lemma on_rejoin_effect (uid : jsstring) (st : State) (sid : jsstring)
  (v : JsVal) (tok : jsstring) (now : Z) :
  invariant st -> fresh_token st tok ->
  effect uid tok st (fst (on_rejoin st sid v tok now)).
Proof.
  intros Hinv Hf. unfold on_rejoin, emit_error.
  destruct (sockets st !! sid) as [sk|]; [|apply eff_none; reflexivity].
  destruct (socket_banned st sk) eqn:Eb.
  { apply persistent_effect. apply ban_out_persistent. }
  destruct (negb (truthy v) || _); [apply eff_none; reflexivity|].
  destruct (validateSessionToken st _) as [user|] eqn:Ev;
    [|apply eff_none; reflexivity].
  destruct (bool_decide _); [apply eff_none; reflexivity|].
  apply validateSessionToken_In in Ev as [k Hin].
  pose proof (rotate_effect uid tok st k user (Socket.clientIP sk) Hf Hin
                (inv_ids st Hinv k user Hin)
                (socket_not_banned_ip st sk Eb)) as H.
  destruct (rotateOnIpChange st user (Socket.clientIP sk) tok)
    as [[st1 user'] o1].
  cbn [fst] in *. eapply effect_persistent; [exact H|]. reflexivity.
Qed.

Lemma on_generateDeviceCode_effect (uid tok : jsstring) (st : State)
  (sid : jsstring) (rnd : Rand) :
  effect uid tok st (fst (on_generateDeviceCode st sid rnd)).
Proof.
  unfold on_generateDeviceCode, emit_error.
  destruct (sockets st !! sid) as [sk|]; [|apply eff_none; reflexivity].
  destruct (if truthy_str _ then _ else _) as [user|];
    [|apply eff_none; reflexivity].
  destruct (JsMap.get _ _) as [ru|] eqn:Eg; [|apply eff_none; reflexivity].
  cbn [fst]. apply JsMap_get_In in Eg.
  apply (eff_code uid tok _ _ (ActiveUser.id user) ru
           (generateUniqueDeviceCode (registeredUsers st) rnd));
    try reflexivity; assumption.
Qed.

Lemma on_message_effect (uid tok : jsstring) (st st' : State) (sid : jsstring)
  (v : JsVal) (mid : jsstring) (now : Z) (out : list Output) :
  on_message st sid v mid now = Done st' out -> effect uid tok st st'.
Proof.
  unfold on_message. intros H.
  repeat case_match; try discriminate; injection H as <- <-;
    apply eff_none; reflexivity.
Qed.

Lemma banRecords_bans (st : State) (target : jsstring) (data : RegUser.t) :
  let st' := banRecords st target data in
  sessionTokens st'
  = (if truthy_str (Some (RegUser.sessionToken data))
     then delete (RegUser.sessionToken data) (sessionTokens st)
     else sessionTokens st)
  /\ bannedUsers st' = {[target]} ∪ bannedUsers st
  /\ bannedIPs st'
     = (if truthy_str (Some (RegUser.ip data))
           && negb (bool_decide (Some (RegUser.ip data) = adminIP st))
        then {[RegUser.ip data]} ∪ bannedIPs st
        else bannedIPs st)
  /\ bannedFingerprints st'
     = match userFingerprints st !! target with
       | Some fp => {[fp]} ∪ bannedFingerprints st
       | None => bannedFingerprints st
       end.
Proof.
  cbv zeta. unfold banRecords, adminIP. state_simpl.
  repeat (first [progress state_simpl | case_match]; simplify_eq); auto.
Qed.

Lemma banMessages_bans (st : State) (target : jsstring) :
  let st' := fst (banMessages st target) in
  sessionTokens st' = sessionTokens st
  /\ bannedUsers st' = bannedUsers st
  /\ bannedIPs st' = bannedIPs st
  /\ bannedFingerprints st' = bannedFingerprints st
  /\ sockets st' = sockets st
  /\ users st' = users st
  /\ allConnections st' = allConnections st.
Proof.
  cbv zeta. unfold banMessages.
  destruct (removeMessagesOf target (rev (messages st))). auto 10.
Qed.

Lemma on_banUser_effect' (uid tok : jsstring) (st : State) (sid : jsstring)
  (v : JsVal) :
  effect uid tok st (fst (on_banUser st sid v)).
Proof.
  unfold on_banUser, emit_error.
  destruct (sockets st !! sid) as [sk|]; [|apply eff_none; reflexivity].
  destruct (negb _ || _); [apply eff_none; reflexivity|].
  destruct v; try (apply eff_none; reflexivity).
  destruct (JsMap.get _ _) as [data|] eqn:Eg; [|apply eff_none; reflexivity].
  destruct (bool_decide (Some l = adminId st)) eqn:Ea;
    [apply eff_none; reflexivity|].
  apply bool_decide_eq_false in Ea.
  destruct (banRecords_fields st l data) as (R1 & A1 & _).
  destruct (banRecords_bans st l data) as (T1 & U1 & I1 & _).
  pose proof (banMessages_fields (banRecords st l data) l) as (R2 & A2 & _).
  pose proof (banMessages_bans (banRecords st l data) l) as (T2 & U2 & I2 & _).
  destruct (banMessages (banRecords st l data) l) as [st5 o5].
  pose proof (banSessions_persistent' st5 l) as Hp.
  destruct (banSessions st5 l) as [st6 o6].
  cbn [fst] in *.
  destruct (persistent_all _ _ Hp) as (R3 & T3 & _ & _ & U3 & _ & I3 & _ & _ & A3).
  apply (eff_ban uid tok _ _ l data); state_simpl;
    first [assumption | congruence].
Qed.

Lemma step_effect (st : State) (ev : Event) (st' : State) (out : list Output) :
  invariant st -> runtime_fresh st ev -> step st ev = Done st' out ->
  effect (event_userId ev) (event_token ev) st st'.
Proof.
  intros Hinv Hf Hstep. destruct ev; cbn [step ok] in Hstep;
    try (injection Hstep as <- <-); cbn [event_userId event_token].
  - apply on_connection_effect; [exact Hinv | exact (proj2 Hf)].
  - apply on_setFingerprint_effect.
  - destruct Hf as (Hu & _ & Hnb & Hf).
    eapply on_setNickname_effect; eassumption.
  - apply on_rejoin_effect; [exact Hinv | exact Hf].
  - apply on_generateDeviceCode_effect.
  - eapply on_message_effect; eassumption.
  - apply on_banUser_effect'.
  - apply persistent_effect. apply on_disconnect_persistent.
  - unfold on_clearBans. destruct (negb _); [apply eff_none; reflexivity|].
    apply eff_unban; try reflexivity; cbn [fst]; state_simpl; set_solver.
  - unfold on_clearUsers. destruct (negb _);
      [apply eff_none; reflexivity | apply eff_clearUsers; reflexivity].
  - unfold on_unbanIp.
    repeat case_match; try (apply eff_none; reflexivity).
    apply eff_unban; try reflexivity; cbn [fst]; state_simpl; set_solver.
  - apply eff_none; reflexivity.
Qed.

(** ** Identities in live states *)

Lemma JsMap_set_In_other {V : Type} (m : JsMap.t V) (k : jsstring) (v : V)
  (k' : jsstring) (v' : V) :
  NoDup (JsMap.keys m) ->
  In (k', v') (JsMap.set m k v) ->
  (k', v') = (k, v) \/ (In (k', v') m /\ k' <> k).
Proof.
  unfold JsMap.keys. induction m as [|[k0 v0] m IH]; simpl.
  - intros _ [H|[]]. left. congruence.
  - intros Hnd. apply NoDup_cons in Hnd as [Hnotin Hnd].
    destruct (str_eqb k0 k) eqn:E; simpl.
    + apply str_eqb_eq in E. subst k0.
      intros [H|H]; [left; congruence|]. right. split; [right; exact H|].
      intros ->. apply Hnotin. apply list_elem_of_In.
      apply (in_map fst) in H. exact H.
    + apply str_eqb_neq in E.
      intros [H|H].
      * injection H as <- <-. right. split; [left; reflexivity | exact E].
      * destruct (IH Hnd H) as [H'|[H' Hne]]; [left; exact H'|].
        right. split; [right; exact H' | exact Hne].
Qed.

Lemma available_In (st : State) (n k : jsstring) (u : RegUser.t) :
  isNicknameAvailable st n = true -> In (k, u) (registeredUsers st) ->
  toLowerCase (RegUser.nickname u) <> toLowerCase n.
Proof.
  unfold isNicknameAvailable. destruct (bool_decide _); [discriminate|].
  intros H Hin. apply negb_true_iff in H.
  intros E. apply not_true_iff_false in H. apply H.
  apply existsb_exists. exists u. split.
  - unfold JsMap.values. apply (in_map snd) in Hin. exact Hin.
  - apply str_eqb_eq. exact E.
Qed.

Lemma adminIP_of_admin (st : State) (k : jsstring) (u : RegUser.t) :
  invariant st -> In (k, u) (registeredUsers st) ->
  RegUser.isAdmin u = true -> adminIP st = Some (RegUser.ip u).
Proof.
  intros Hinv Hin Ha. unfold adminIP.
  pose proof (inv_admin st Hinv k u Hin Ha) as E.
  destruct (inv_adminId st Hinv) as [E'|E']; [congruence|].
  rewrite E', E. rewrite (JsMap_In_get _ _ _ (inv_keys st Hinv) Hin).
  reflexivity.
Qed.

Lemma effect_identities_ok (uid tok : jsstring) (st st' : State) :
  invariant st -> identities_ok st -> effect uid tok st st' ->
  identities_ok st'.
Proof.
  intros Hinv [HT HN HA HB] Heff.
  pose proof (inv_keys st Hinv) as Hnd.
  destruct Heff as
    [R T U I A
    |k u ip [Hf1 Hf2] Hin Hip R T U I A
    |k u [Hf1 Hf2] Hin R T U I A
    |k u code Hin R T U I A
    |n ip hue adm [Hf1 Hf2] Hu Hnb Hok Hav Hip Hadm R T U I A
    |target data Hg Hne R T U I A
    |R T U I A
    |R T U I A].
  - split; rewrite ?R, ?T, ?U, ?I; assumption.
  - destruct (HT k u Hin) as (Tk & Tne & Kne).
    split; rewrite ?R, ?T, ?U, ?I.
    + intros k' u' H. apply (JsMap_set_In_other _ _ _ _ _ Hnd) in H
        as [[= -> ->]|[H Hk]].
      * cbn [with_ip_token RegUser.sessionToken]. rewrite lookup_insert_eq.
        auto.
      * destruct (HT k' u' H) as (Tk' & Tne' & Kne').
        rewrite lookup_insert_ne by congruence.
        rewrite lookup_delete_ne by congruence. auto.
    + intros k1 u1 k2 u2 H1 H2.
      apply JsMap_set_In in H1 as [[= -> ->]|H1];
        apply JsMap_set_In in H2 as [[= -> ->]|H2]; cbn [with_ip_token RegUser.nickname].
      * reflexivity.
      * exact (HN _ _ _ _ Hin H2).
      * exact (HN _ _ _ _ H1 Hin).
      * exact (HN _ _ _ _ H1 H2).
    + intros k' u' H. apply JsMap_set_In in H as [[= -> ->]|H].
      * intros _. exact Hip.
      * exact (HA _ _ H).
    + intros k' u' H. apply JsMap_set_In in H as [[= -> ->]|H];
        [exact (HB _ _ Hin) | exact (HB _ _ H)].
  - destruct (HT k u Hin) as (Tk & Tne & Kne).
    split; rewrite ?R, ?T, ?U, ?I.
    + intros k' u' H. apply JsMap_set_In in H as [[= -> ->]|H].
      * cbn [with_code RegUser.sessionToken].
        rewrite lookup_insert_ne by congruence. auto.
      * destruct (HT k' u' H) as (Tk' & Tne' & Kne').
        rewrite lookup_insert_ne by congruence. auto.
    + intros k1 u1 k2 u2 H1 H2.
      apply JsMap_set_In in H1 as [[= -> ->]|H1];
        apply JsMap_set_In in H2 as [[= -> ->]|H2]; cbn [with_code RegUser.nickname].
      * reflexivity.
      * exact (HN _ _ _ _ Hin H2).
      * exact (HN _ _ _ _ H1 Hin).
      * exact (HN _ _ _ _ H1 H2).
    + intros k' u' H. apply JsMap_set_In in H as [[= -> ->]|H];
        [exact (HA _ _ Hin) | exact (HA _ _ H)].
    + intros k' u' H. apply JsMap_set_In in H as [[= -> ->]|H];
        [exact (HB _ _ Hin) | exact (HB _ _ H)].
  - split; rewrite ?R, ?T, ?U, ?I.
    + intros k' u' H. apply JsMap_set_In in H as [[= -> ->]|H];
        [exact (HT _ _ Hin) | exact (HT _ _ H)].
    + intros k1 u1 k2 u2 H1 H2.
      apply JsMap_set_In in H1 as [[= -> ->]|H1];
        apply JsMap_set_In in H2 as [[= -> ->]|H2]; cbn [with_code RegUser.nickname].
      * reflexivity.
      * exact (HN _ _ _ _ Hin H2).
      * exact (HN _ _ _ _ H1 Hin).
      * exact (HN _ _ _ _ H1 H2).
    + intros k' u' H. apply JsMap_set_In in H as [[= -> ->]|H];
        [exact (HA _ _ Hin) | exact (HA _ _ H)].
    + intros k' u' H. apply JsMap_set_In in H as [[= -> ->]|H];
        [exact (HB _ _ Hin) | exact (HB _ _ H)].
  - split; rewrite ?R, ?T, ?U, ?I.
    + intros k' u' H. apply JsMap_set_In in H as [[= -> ->]|H].
      * cbn [RegUser.sessionToken]. rewrite lookup_insert_eq. auto.
      * destruct (HT k' u' H) as (Tk' & Tne' & Kne').
        rewrite lookup_insert_ne by congruence. auto.
    + intros k1 u1 k2 u2 H1 H2.
      apply JsMap_set_In in H1 as [[= -> ->]|H1];
        apply JsMap_set_In in H2 as [[= -> ->]|H2]; cbn [RegUser.nickname].
      * reflexivity.
      * intros E. symmetry in E. destruct (available_In st n k2 u2 Hav H2 E).
      * intros E. destruct (available_In st n k1 u1 Hav H1 E).
      * exact (HN _ _ _ _ H1 H2).
    + intros k' u' H. apply JsMap_set_In in H as [[= -> ->]|H].
      * intros _. exact Hip.
      * exact (HA _ _ H).
    + intros k' u' H. apply JsMap_set_In in H as [[= -> ->]|H];
        [exact Hnb | exact (HB _ _ H)].
  - pose proof (JsMap_get_In _ _ _ Hg) as Hin.
    destruct (HT target data Hin) as (Tk & Tne & Kne).
    split; rewrite ?R, ?T, ?U, ?I.
    + intros k' u' H. apply JsMap_delete_In in H as [H Hk].
      destruct (HT k' u' H) as (Tk' & Tne' & Kne').
      destruct (truthy_str _); [|auto].
      rewrite lookup_delete_ne by congruence. auto.
    + intros k1 u1 k2 u2 H1 H2.
      apply JsMap_delete_In in H1 as [H1 _].
      apply JsMap_delete_In in H2 as [H2 _]. exact (HN _ _ _ _ H1 H2).
    + intros k' u' H Hadm. apply JsMap_delete_In in H as [H Hk].
      pose proof (HA _ _ H Hadm) as Hnot.
      destruct (truthy_str _ && _) eqn:E; [|exact Hnot].
      apply andb_true_iff in E as [_ E]. apply negb_true_iff in E.
      apply bool_decide_eq_false in E.
      rewrite (adminIP_of_admin st k' u' Hinv H Hadm) in E.
      intros Hu. apply elem_of_union in Hu as [Hu|Hu]; [|exact (Hnot Hu)].
      apply elem_of_singleton in Hu. congruence.
    + intros k' u' H. apply JsMap_delete_In in H as [H Hk].
      intros Hu. apply elem_of_union in Hu as [Hu|Hu]; [|exact (HB _ _ H Hu)].
      apply elem_of_singleton in Hu. exact (Hk Hu).
  - split; rewrite ?R, ?T; try assumption.
    + intros k u H Hadm Hu. exact (HA _ _ H Hadm (I _ Hu)).
    + intros k u H Hu. exact (HB _ _ H (U _ Hu)).
  - split; rewrite ?R; intros; try contradiction;
      match goal with H : In _ [] |- _ => destruct H end.
Qed.

Lemma setAll_lookup {V : Type} (l : list (jsstring * V)) (m : gmap jsstring V)
  (k : jsstring) :
  NoDup (List.map fst l) ->
  setAll l m !! k
  = match List.find (fun kv => str_eqb (fst kv) k) l with
    | Some kv => Some (snd kv)
    | None => m !! k
    end.
Proof.
  unfold setAll. revert m. induction l as [|[k0 v0] l IH]; intros m Hnd;
    [reflexivity|].
  cbn [fold_left List.find fst snd List.map] in *.
  apply NoDup_cons in Hnd as [Hnotin Hnd]. rewrite (IH _ Hnd).
  destruct (str_eqb k0 k) eqn:E.
  - apply str_eqb_eq in E. subst k0.
    destruct (List.find _ l) as [[k1 v1]|] eqn:Ef.
    + apply find_some in Ef as [Hin Hk]. apply str_eqb_eq in Hk.
      simpl in Hk. subst k1. exfalso. apply Hnotin. apply list_elem_of_In.
      apply (in_map fst) in Hin. exact Hin.
    + apply lookup_insert_eq.
  - apply str_eqb_neq in E.
    destruct (List.find _ l); [reflexivity|].
    apply lookup_insert_ne. exact E.
Qed.

(** Writing the entries of a table one by one into an empty table gives
    the table back. *)
Lemma setAll_map_to_list {V : Type} (m : gmap jsstring V) :
  setAll (map_to_list m) ∅ = m.
Proof.
  apply map_eq. intros k.
  rewrite setAll_lookup by apply NoDup_fst_map_to_list.
  destruct (List.find _ (map_to_list m)) as [[k1 v1]|] eqn:Ef.
  - apply find_some in Ef as [Hin Hk]. apply str_eqb_eq in Hk.
    simpl in Hk. subst k1. apply list_elem_of_In in Hin.
    apply elem_of_map_to_list in Hin. simpl. symmetry. exact Hin.
  - rewrite lookup_empty. symmetry.
    destruct (m !! k) as [v|] eqn:E; [|reflexivity].
    apply elem_of_map_to_list in E. apply list_elem_of_In in E.
    pose proof (find_none _ _ Ef _ E) as H. simpl in H.
    rewrite str_eqb_refl in H. discriminate H.
Qed.

Lemma restart_indexes (st : State) (saved loaded : Z) :
  sessionTokens (restart st saved loaded) = sessionTokens st
  /\ userFingerprints (restart st saved loaded) = userFingerprints st.
Proof.
  unfold restart, loadData, saveData.
  cbn [Snapshot.sessionTokens Snapshot.userFingerprints]. state_simpl.
  change (sessionTokens init) with (∅ : gmap jsstring jsstring).
  change (userFingerprints init) with (∅ : gmap jsstring jsstring).
  rewrite !setAll_map_to_list. auto.
Qed.

Lemma identities_ok_init : identities_ok init.
Proof. split; simpl; intros; contradiction. Qed.

Lemma live_identities_ok (st : State) : live st -> identities_ok st.
Proof.
  induction 1 as [|st ev st' out Hl IH Hf Hs|st saved loaded Hl IH].
  - exact identities_ok_init.
  - pose proof (reachable_invariant st (live_reachable st Hl)) as Hinv.
    exact (effect_identities_ok _ _ st st' Hinv IH
             (step_effect st ev st' out Hinv Hf Hs)).
  - pose proof (reachable_invariant st (live_reachable st Hl)) as Hinv.
    destruct (restart_fields st saved loaded Hinv)
      as (R & _ & U & _ & I & _).
    destruct (restart_indexes st saved loaded) as [T _].
    fold (restart st saved loaded) in R, U, I.
    destruct IH as [HT HN HA HB].
    split; rewrite ?R, ?T, ?U, ?I; assumption.
Qed.

Lemma run_live (evs : list Event) (st st' : State) (out out' : list Output) :
  live st -> fresh_run st evs -> run st evs out = Done st' out' -> live st'.
Proof.
  revert st out. induction evs as [|ev evs IH]; intros st out Hl Hf; simpl.
  - intros [= <- _]. exact Hl.
  - destruct Hf as [Hev Hf].
    destruct (step st ev) as [st1 o|] eqn:E; [|discriminate].
    intros H. eapply IH; [|exact Hf|exact H].
    eapply live_step; eassumption.
Qed.

(** Freshness along a run of closed events, by evaluation. *)
Ltac fresh_run_by_computation :=
  vm_compute;
  repeat match goal with
         | |- _ /\ _ => split
         | |- True => exact I
         | |- _ = _ => reflexivity
         | |- _ -> False => let H := fresh in intros H; discriminate H
         end.

Lemma two_users_live : live two_users.
Proof.
  unfold two_users.
  destruct (run init two_users_run []) as [st out|e] eqn:E;
    [|vm_compute in E; discriminate E].
  refine (run_live two_users_run init st [] out live_init _ E).
  fresh_run_by_computation.
Qed.

(** ** Session tokens in live states *)

Lemma registered_token_validates (st : State) (k : jsstring) (u : RegUser.t) :
  invariant st -> identities_ok st -> In (k, u) (registeredUsers st) ->
  validateSessionToken st (JStr (RegUser.sessionToken u)) = Some u.
Proof.
  intros Hinv Hok Hin.
  destruct (ok_tokens st Hok k u Hin) as (T & Tne & Kne).
  unfold validateSessionToken.
  assert (E1 : negb (truthy (JStr (RegUser.sessionToken u))) = false).
  { destruct (RegUser.sessionToken u); [congruence | reflexivity]. }
  rewrite E1, T.
  assert (E2 : negb (truthy (JStr k)) = false).
  { destruct k; [congruence | reflexivity]. }
  rewrite E2, (JsMap_In_get _ _ _ (inv_keys st Hinv) Hin), str_eqb_refl.
  reflexivity.
Qed.

Lemma live_invariant (st : State) : live st -> invariant st.
Proof. intros Hl. exact (reachable_invariant st (live_reachable st Hl)). Qed.

(** X1: in every live state the current token of every registered identity
    validates, and validates to that identity. *)
Theorem current_token_validates (st : State) (k : jsstring) (u : RegUser.t) :
  live st -> In (k, u) (registeredUsers st) ->
  validateSessionToken st (JStr (RegUser.sessionToken u)) = Some u.
Proof.
  intros Hl Hin.
  exact (registered_token_validates st k u (live_invariant st Hl)
           (live_identities_ok st Hl) Hin).
Qed.

Lemma current_token_validates_witness :
  live two_users
  /\ option_map RegUser.nickname
       (validateSessionToken two_users (JStr (js "t2"))) = Some (js "bob").
Proof.
  split; [exact two_users_live|].
  assert (Hin : In (js "u2",
                    RegUser.mk (js "u2") (js "bob") 0 false (js "10.0.0.2")
                      (js "t2") None) (registeredUsers two_users)).
  { vm_compute. tauto. }
  pose proof (current_token_validates two_users _ _ two_users_live Hin) as H.
  cbn [RegUser.sessionToken] in H. rewrite H. reflexivity.
Defined.








(** X4: a nickname that differs from a registered one at most by the case
    of its letters, asked for on a connection that is not itself banned, is
    refused with the answer that it is taken, and nothing changes, unless
    the text is consumed as a device code. *)
Theorem registered_nickname_is_taken (st : State) (sid : jsstring)
  (sk : Socket.t) (k : jsstring) (u : RegUser.t) (n uid tok : jsstring)
  (hue now : Z) :
  reachable st ->
  sockets st !! sid = Some sk ->
  socket_banned st sk = false ->
  In (k, u) (registeredUsers st) ->
  same_up_to_case n (RegUser.nickname u) ->
  (Re.matches deviceCodeShape (toUpperCase n) = true ->
   validateDeviceCode st (JStr (toUpperCase n)) = None) ->
  on_setNickname st sid (JStr n) uid tok hue now
  = Done st [ToSocket sid (EError "Nickname already taken")].
Proof.
  intros Hr Hs Hb Hin Hsame Hcode.
  pose proof (reachable_invariant st Hr) as Hinv.
  pose proof (same_up_to_case_ok _ _ Hsame (inv_nicknames st Hinv k u Hin))
    as Hok.
  unfold on_setNickname. rewrite Hs, Hb.
  assert (Hd : (if truthy (JStr n) && Re.matches deviceCodeShape (toUpperCase n)
                then validateDeviceCode st (JStr (toUpperCase n))
                else None) = None).
  { destruct (Re.matches deviceCodeShape (toUpperCase n));
      [rewrite Hcode by reflexivity|]; destruct (truthy (JStr n)); reflexivity. }
  rewrite Hd. unfold register, emit_error.
  unfold nickname_ok in Hok. apply andb_true_iff in Hok as [H1 H2].
  apply negb_true_iff in H1. rewrite H1, H2. cbn [negb].
  destruct (isNicknameAvailable st n) eqn:Hav; [|reflexivity].
  exfalso. apply (available_In st n k u Hav Hin).
  symmetry. exact (same_up_to_case_lower _ _ Hsame).
Qed.

Lemma registered_nickname_is_taken_witness :
  on_setNickname two_users (js "s3") (JStr (js "BoB")) (js "u3") (js "t3") 0 3000
  = Done two_users [ToSocket (js "s3") (EError "Nickname already taken")].
Proof.
  destruct (sockets two_users !! js "s3") as [sk|] eqn:Hs;
    [|vm_compute in Hs; discriminate Hs].
  assert (Hsk : sk = Socket.mk (js "10.0.0.3") None None)
    by (vm_compute in Hs; injection Hs as <-; reflexivity).
  refine (registered_nickname_is_taken two_users (js "s3") sk (js "u2")
            (RegUser.mk (js "u2") (js "bob") 0 false (js "10.0.0.2") (js "t2")
               None)
            (js "BoB") (js "u3") (js "t3") 0 3000
            (live_reachable _ two_users_live) Hs _ _ _ _).
  - rewrite Hsk. vm_compute. reflexivity.
  - vm_compute. tauto.
  - repeat constructor; right; vm_compute; auto.
  - intros H. vm_compute in H. discriminate H.
Defined.

(** What a load that completes late does to the address of the admin: the
    process has made u9 the admin, at the address 10.0.0.2, before its load
    completes; the load merges the stored ban of that address. *)
Lemma late_load_bans_admin_address :
  occurs late_loaded_ban
  /\ option_map RegUser.isAdmin
       (JsMap.get (registeredUsers late_loaded_ban) (js "u9")) = Some true
  /\ option_map RegUser.ip
       (JsMap.get (registeredUsers late_loaded_ban) (js "u9"))
     = Some (js "10.0.0.2")
  /\ js "10.0.0.2" ∈ bannedIPs late_loaded_ban.
Proof.
  split.
  - unfold late_loaded_ban. apply occurs_load; [apply occurs_early|];
      (apply state_of_run_early;
       [repeat constructor; discriminate
       |eexists _, _; vm_compute; reflexivity]).
  - split; [vm_compute; reflexivity|]. split; [vm_compute; reflexivity|].
    decide_by_computation.
Qed.





(** X7: a stop and restart of the server keeps every session: a session
    token or a device code validates after the restart exactly as before,
    and a nickname is available after it exactly when it was before. *)
Theorem restart_keeps_sessions (st : State) (saved loaded : Z) (v : JsVal)
  (n : jsstring) :
  reachable st ->
  validateSessionToken (restart st saved loaded) v = validateSessionToken st v
  /\ validateDeviceCode (restart st saved loaded) v = validateDeviceCode st v
  /\ isNicknameAvailable (restart st saved loaded) n
     = isNicknameAvailable st n.
Proof.
  intros Hr. pose proof (reachable_invariant st Hr) as Hinv.
  destruct (restart_fields st saved loaded Hinv)
    as (R & A & BU & BN & BI & BF & M).
  destruct (restart_indexes st saved loaded) as [T F].
  fold (restart st saved loaded) in R, BN.
  unfold validateSessionToken, validateDeviceCode, isNicknameAvailable.
  rewrite R, T, BN. auto.
Qed.

Lemma restart_keeps_sessions_witness :
  option_map RegUser.nickname
    (validateSessionToken (restart two_users 5000 6000) (JStr (js "t2")))
  = Some (js "bob").
Proof.
  rewrite (proj1 (restart_keeps_sessions two_users 5000 6000 (JStr (js "t2"))
                    [] (live_reachable _ two_users_live))).
  vm_compute. reflexivity.
Defined.





Lemma shiftOld_spec (cutoff : Z) (msgs : list Message.t) :
  exists dropped,
    msgs = dropped ++ shiftOld cutoff msgs
    /\ Forall (fun m => Message.timestamp m < cutoff) dropped
    /\ match shiftOld cutoff msgs with
       | m :: _ => cutoff <= Message.timestamp m
       | [] => True
       end.
Proof.
  induction msgs as [|m r (d & E & Hd & Hh)].
  - exists []. repeat split. constructor.
  - cbn [shiftOld]. destruct (Z.ltb_spec (Message.timestamp m) cutoff) as [Hlt|Hge].
    + exists (m :: d). cbn [app]. rewrite <- E. repeat split; [|exact Hh].
      constructor; assumption.
    + exists []. repeat split; [constructor | exact Hge].
Qed.

(** X9: the retention sweep removes from the front of the log the longest
    run of messages older than 24 hours and nothing else, leaves the rest of
    the state alone, and asks for a save exactly when it removed
    something. *)
Theorem sweep_drops_old_prefix (st : State) (now : Z) :
  let cutoff := now - MESSAGE_RETENTION_TIME in
  let st' := fst (on_sweep st now) in
  exists dropped,
    messages st = dropped ++ messages st'
    /\ Forall (fun m => Message.timestamp m < cutoff) dropped
    /\ match messages st' with
       | m :: _ => cutoff <= Message.timestamp m
       | [] => True
       end
    /\ snd (on_sweep st now) = match dropped with [] => [] | _ :: _ => [SaveData] end
    /\ st' = set_messages (messages st') st.
Proof.
  cbv zeta. unfold on_sweep. cbn [fst snd]. state_simpl.
  destruct (shiftOld_spec (now - MESSAGE_RETENTION_TIME) (messages st))
    as (d & E & Hd & Hh).
  exists d. split; [exact E|]. split; [exact Hd|]. split; [exact Hh|].
  split; [|destruct st; reflexivity].
  rewrite E at 1. rewrite length_app.
    replace (length d + length (shiftOld (now - MESSAGE_RETENTION_TIME)
                                  (messages st))
             - length (shiftOld (now - MESSAGE_RETENTION_TIME) (messages st)))%nat
      with (length d) by lia.
  destruct d; reflexivity.
Qed.

Lemma shiftOld_chronological (cutoff : Z) (msgs : list Message.t) :
  chronological msgs ->
  shiftOld cutoff msgs
  = List.filter (fun m => Z.leb cutoff (Message.timestamp m)) msgs.
Proof.
  induction msgs as [|m r IH]; [reflexivity|].
  intros [Hm Hr]. cbn [shiftOld List.filter].
  destruct (Z.ltb_spec (Message.timestamp m) cutoff) as [Hlt|Hge].
  - rewrite (proj2 (Z.leb_gt _ _) Hlt). exact (IH Hr).
  - rewrite (proj2 (Z.leb_le _ _) Hge). f_equal.
    symmetry. apply forallb_filter_id. apply forallb_forall.
    intros x Hx. apply Z.leb_le.
    pose proof (proj1 (List.Forall_forall _ _) Hm x Hx). cbn beta in *. lia.
Qed.

(** X10: on a log that is in the order of its timestamps the sweep keeps
    exactly the messages of the last 24 hours. *)
Theorem sweep_keeps_last_day (st : State) (now : Z) :
  chronological (messages st) ->
  messages (fst (on_sweep st now))
  = List.filter
      (fun m => Z.leb (now - MESSAGE_RETENTION_TIME) (Message.timestamp m))
      (messages st).
Proof.
  intros Hc. unfold on_sweep. cbn [fst]. state_simpl.
  exact (shiftOld_chronological _ _ Hc).
Qed.

Lemma sweep_keeps_last_day_witness :
  messages (fst (on_sweep two_users (2000 + MESSAGE_RETENTION_TIME + 1))) = [].
Proof.
  rewrite (sweep_keeps_last_day two_users (2000 + MESSAGE_RETENTION_TIME + 1)).
  - vm_compute. reflexivity.
  - vm_compute. repeat constructor.
Defined.

Lemma authorized_spec (ADMIN_KEY : option jsstring) (adminKey : JsVal) :
  authorized ADMIN_KEY adminKey = true
  <-> exists s, s <> [] /\ ADMIN_KEY = Some s /\ adminKey = JStr s.
Proof.
  unfold authorized. split.
  - intros H. apply andb_true_iff in H as [H1 H2].
    destruct adminKey as [| | | |s|]; try discriminate H2.
    apply bool_decide_eq_true_1 in H2. subst ADMIN_KEY.
    exists s. repeat split. intros ->. discriminate H1.
  - intros (s & Hs & -> & ->). destruct s; [congruence|].
    cbn [truthy_str andb]. apply bool_decide_eq_true_2. reflexivity.
Qed.

(** X11: the three administrative endpoints that change the state answer
    403 and change nothing unless ADMIN_KEY is set to a non-empty string and
    the key sent is that very string; with such a key none of them answers
    403. *)
Theorem admin_endpoints_need_key (st : State) (ADMIN_KEY : option jsstring)
  (adminKey ip : JsVal) :
  ((exists s, s <> [] /\ ADMIN_KEY = Some s /\ adminKey = JStr s) ->
   ~ In (Http 403) (out_of (step st (ClearBans ADMIN_KEY adminKey)))
   /\ ~ In (Http 403) (out_of (step st (ClearUsers ADMIN_KEY adminKey)))
   /\ ~ In (Http 403) (out_of (step st (UnbanIp ADMIN_KEY adminKey ip))))
  /\ (~ (exists s, s <> [] /\ ADMIN_KEY = Some s /\ adminKey = JStr s) ->
      step st (ClearBans ADMIN_KEY adminKey) = Done st [Http 403]
      /\ step st (ClearUsers ADMIN_KEY adminKey) = Done st [Http 403]
      /\ step st (UnbanIp ADMIN_KEY adminKey ip) = Done st [Http 403]).
Proof.
  pose proof (authorized_spec ADMIN_KEY adminKey) as Ha.
  destruct (authorized ADMIN_KEY adminKey) eqn:E.
  - split; [|intros H; exfalso; apply H; apply Ha; reflexivity].
    intros _. cbn [step]. unfold ok, on_clearBans, on_clearUsers, on_unbanIp.
    rewrite E. cbn [negb fst snd out_of].
    repeat split.
    + intros [H|[H|[]]]; discriminate H.
    + intros [H|[H|[]]]; discriminate H.
    + repeat case_match; cbn [snd];
        intros Hin; repeat (destruct Hin as [Hin|Hin]; try discriminate Hin);
        exact Hin.
  - split; [intros H; apply Ha in H; discriminate H|].
    intros _. cbn [step]. unfold ok, on_clearBans, on_clearUsers, on_unbanIp.
    rewrite E. repeat split.
Qed.

Lemma admin_endpoints_need_key_witness :
  step two_users (ClearUsers None (JStr (js "secret")))
  = Done two_users [Http 403].
Proof.
  refine (proj1 (proj2 (proj2 (admin_endpoints_need_key two_users None
                                 (JStr (js "secret")) JUndefined) _))).
  intros (s & _ & H & _). discriminate H.
Defined.

(** X12: a connection from a banned address is refused before anything else
    is looked at: whatever cookie it brings, it gets the banned notice, is
    disconnected, and leaves no trace in the state. *)
Theorem banned_address_is_refused (st : State) (sid ip : jsstring)
  (cookie : option jsstring) (tok : jsstring) :
  ip ∈ bannedIPs st -> sid ∉ allConnections st ->
  on_connection st sid ip cookie tok
  = (st, [ToSocket sid EBanned; Disconnect sid]).
Proof.
  intros Hip Hsid. unfold on_connection. state_simpl.
  rewrite (bool_decide_eq_true_2 _ Hip).
  f_equal. destruct st. unfold set_allConnections. state_simpl. f_equal.
  apply set_eq. intros x. rewrite elem_of_difference, elem_of_union,
    elem_of_singleton.
  split; [intros [[->|H] Hn]; [congruence | exact H]|].
  intros H. split; [right; exact H|]. intros ->. exact (Hsid H).
Qed.

Lemma banned_address_is_refused_witness :
  on_connection (state_of (run init ban_run [])) (js "s9") (js "10.0.0.2")
    (Some (js "t2")) (js "t9")
  = (state_of (run init ban_run []),
     [ToSocket (js "s9") EBanned; Disconnect (js "s9")]).
Proof.
  apply banned_address_is_refused; decide_by_computation.
Defined.






(** What a ban that goes through does to the records. *)
Lemma on_banUser_records (st : State) (sid : jsstring) (sk : Socket.t)
  (target : jsstring) (data : RegUser.t) :
  sockets st !! sid = Some sk ->
  truthy_str (Socket.userId sk) = true ->
  Socket.userId sk = adminId st ->
  JsMap.get (registeredUsers st) target = Some data ->
  Some target <> adminId st ->
  let st' := fst (on_banUser st sid (JStr target)) in
  registeredUsers st' = JsMap.delete (registeredUsers st) target
  /\ sessionTokens st'
     = (if truthy_str (Some (RegUser.sessionToken data))
        then delete (RegUser.sessionToken data) (sessionTokens st)
        else sessionTokens st)
  /\ bannedUsers st' = {[target]} ∪ bannedUsers st
  /\ bannedIPs st'
     = (if truthy_str (Some (RegUser.ip data))
           && negb (bool_decide (Some (RegUser.ip data) = adminIP st))
        then {[RegUser.ip data]} ∪ bannedIPs st
        else bannedIPs st)
  /\ bannedFingerprints st'
     = match userFingerprints st !! target with
       | Some fp => {[fp]} ∪ bannedFingerprints st
       | None => bannedFingerprints st
       end.
Proof.
  intros Hs Ht Ha Hg Hne. cbv zeta. unfold on_banUser.
  rewrite Hs, Ht, Hg. rewrite (bool_decide_eq_true_2 _ Ha).
  rewrite (bool_decide_eq_false_2 _ Hne). cbn [negb orb].
  destruct (banRecords_fields st target data) as (R1 & A1 & M1 & S1 & _).
  destruct (banRecords_bans st target data) as (T1 & U1 & I1 & F1).
  pose proof (banMessages_fields (banRecords st target data) target)
    as (R2 & A2 & S2 & _).
  pose proof (banMessages_bans (banRecords st target data) target)
    as (T2 & U2 & I2 & F2 & _).
  destruct (banMessages (banRecords st target data) target) as [st5 o5] eqn:E5.
  pose proof (banSessions_persistent' st5 target) as Hp.
  destruct (banSessions st5 target) as [st6 o6] eqn:E6.
  cbn [fst] in *.
  destruct (persistent_all _ _ Hp)
    as (R3 & T3 & _ & _ & U3 & _ & I3 & F3 & _ & A3).
  state_simpl.
  repeat split; congruence.
Qed.

Lemma JsMap_get_delete_eq {V : Type} (m : JsMap.t V) (k : jsstring) :
  JsMap.get (JsMap.delete m k) k = None.
Proof.
  destruct (JsMap.get (JsMap.delete m k) k) as [v|] eqn:E; [|reflexivity].
  apply JsMap_get_In in E. apply JsMap_delete_In in E as [_ E]. congruence.
Qed.

(** X14: a ban that goes through revokes every credential of its target in
    a live state: the identity is on the ban list and off the register, its
    session token validates no more, no token and no device code resolves to
    it, and a rejoin with the old token from a socket that is not banned
    itself is answered as an invalid session. *)
Theorem ban_revokes_credentials (st : State) (sid : jsstring) (sk : Socket.t)
  (target : jsstring) (data : RegUser.t) :
  live st ->
  sockets st !! sid = Some sk ->
  truthy_str (Socket.userId sk) = true ->
  Socket.userId sk = adminId st ->
  JsMap.get (registeredUsers st) target = Some data ->
  Some target <> adminId st ->
  let st' := fst (on_banUser st sid (JStr target)) in
  target ∈ bannedUsers st'
  /\ JsMap.get (registeredUsers st') target = None
  /\ validateSessionToken st' (JStr (RegUser.sessionToken data)) = None
  /\ (forall v u,
         validateSessionToken st' v = Some u
         \/ validateDeviceCode st' v = Some u ->
         RegUser.id u <> target)
  /\ (forall sid2 sk2 tok now,
         sockets st' !! sid2 = Some sk2 ->
         socket_banned st' sk2 = false ->
         on_rejoin st' sid2
           (JObj [(js "sessionToken", JStr (RegUser.sessionToken data))])
           tok now
         = (st', [ToSocket sid2 EInvalidSession])).
Proof.
  intros Hl Hs Ht Ha Hg Hne. cbv zeta.
  destruct (on_banUser_records st sid sk target data Hs Ht Ha Hg Hne)
    as (R & T & U & _).
  assert (Hstep : step st (BanUser sid (JStr target))
                  = Done (fst (on_banUser st sid (JStr target)))
                      (snd (on_banUser st sid (JStr target))))
    by reflexivity.
  pose proof (live_step st (BanUser sid (JStr target)) _ _ Hl I Hstep) as Hl'.
  pose proof (live_invariant _ Hl') as Hinv'.
  pose proof (live_identities_ok _ Hl') as Hok'.
  set (st' := fst (on_banUser st sid (JStr target))) in *.
  assert (Hb : target ∈ bannedUsers st')
    by (rewrite U; apply elem_of_union_l, elem_of_singleton; reflexivity).
  destruct (ok_tokens st (live_identities_ok st Hl) target data
              (JsMap_get_In _ _ _ Hg)) as (_ & Htok & _).
  assert (Hv : validateSessionToken st' (JStr (RegUser.sessionToken data))
               = None).
  { unfold validateSessionToken. rewrite T.
    destruct (RegUser.sessionToken data) as [|c r]; [congruence|].
    cbn [truthy_str truthy negb]. rewrite lookup_delete_eq. reflexivity. }
  split; [exact Hb|]. split; [rewrite R; apply JsMap_get_delete_eq|].
  split; [exact Hv|]. split.
  - intros v u H E.
    assert (Hin : exists k, In (k, u) (registeredUsers st')).
    { destruct H as [H|H];
        [exact (validateSessionToken_In _ _ _ H)
        |exact (validateDeviceCode_In _ _ _ H)]. }
    destruct Hin as (k & Hin).
    pose proof (inv_ids _ Hinv' k u Hin) as Hk.
    apply (ok_notBanned _ Hok' k u Hin). congruence.
  - intros sid2 sk2 tok now Hs2 Hb2. unfold on_rejoin. rewrite Hs2, Hb2.
    change (get_prop (JObj [(js "sessionToken",
                             JStr (RegUser.sessionToken data))])
              (js "sessionToken"))
      with (JStr (RegUser.sessionToken data)).
    rewrite Hv.
    destruct (RegUser.sessionToken data); [congruence | reflexivity].
Qed.

Lemma ban_revokes_credentials_witness :
  validateSessionToken
    (fst (on_banUser two_users (js "s1") (JStr (js "u2")))) (JStr (js "t2"))
  = None.
Proof.
  destruct (sockets two_users !! js "s1") as [sk|] eqn:Hs;
    [|vm_compute in Hs; discriminate Hs].
  assert (Hsk : sk = Socket.mk (js "10.0.0.1") None (Some (js "u1")))
    by (vm_compute in Hs; injection Hs as <-; reflexivity).
  refine (proj1 (proj2 (proj2
            (ban_revokes_credentials two_users (js "s1") sk (js "u2")
               (RegUser.mk (js "u2") (js "bob") 0 false (js "10.0.0.2")
                  (js "t2") None)
               two_users_live Hs _ _ _ _)))).
  - rewrite Hsk. reflexivity.
  - rewrite Hsk. vm_compute. reflexivity.
  - vm_compute. reflexivity.
  - vm_compute. discriminate.
Defined.









(** ** The connection tables *)

Lemma tables_ok_ext (st st' : State) :
  tables st' = tables st -> tables_ok st -> tables_ok st'.
Proof.
  unfold tables. intros [= E1 E2 E3] [C U].
  split; rewrite ?E1, ?E2, ?E3; assumption.
Qed.

Lemma tables_ok_init : tables_ok init.
Proof.
  split.
  - apply set_eq. intros x. rewrite elem_of_dom. cbn. split.
    + intros H. exfalso. exact (not_elem_of_empty x H).
    + intros [y H]. rewrite lookup_empty in H. discriminate H.
  - intros sid a H. cbn in H. rewrite lookup_empty in H. discriminate H.
Qed.

Lemma tables_ok_delete_user (st : State) (sid : jsstring) :
  tables_ok st -> tables_ok (set_users (delete sid (users st)) st).
Proof.
  intros [C U]. split; state_simpl; [exact C|].
  intros s a H. apply lookup_delete_Some in H as [_ H]. exact (U s a H).
Qed.

Lemma difference_singleton_dom (m : gmap jsstring Socket.t) (sid : jsstring) :
  dom m ∖ {[sid]} = dom (delete sid m).
Proof. rewrite dom_delete_L. reflexivity. Qed.

Lemma on_disconnect_tables_ok (st : State) (sid : jsstring) :
  tables_ok st -> tables_ok (fst (on_disconnect st sid)).
Proof.
  intros [C U]. unfold on_disconnect.
  destruct (sockets st !! sid) as [sk|] eqn:Hs; [|split; assumption].
  state_simpl.
  assert (Hclosed : forall users',
             (forall s a, users' !! s = Some a ->
                          s <> sid /\ users st !! s = Some a) ->
             forall st',
               allConnections st' = allConnections st ∖ {[sid]} ->
               sockets st' = delete sid (sockets st) ->
               users st' = users' ->
               tables_ok st').
  { intros users' Hu st' E1 E2 E3. split.
    - rewrite E1, E2, C. apply difference_singleton_dom.
    - intros s a H. rewrite E3 in H. destruct (Hu s a H) as [Hne H'].
      destruct (U s a H') as (sk' & H1 & H2 & H3).
      exists sk'. rewrite E2, lookup_delete_ne by congruence. auto. }
  destruct (users st !! sid) as [user|] eqn:Hu.
  - destruct (U sid user Hu) as (sk' & H1 & H2 & H3).
    assert (sk' = sk) by congruence. subst sk'. rewrite H2.
    destruct (ActiveUser.id user) as [|c r] eqn:Eid; [congruence|].
    cbn [truthy_str negb].
    assert (Hdel : forall s a, delete sid (users st) !! s = Some a ->
                               s <> sid /\ users st !! s = Some a).
    { intros s a H. apply lookup_delete_Some in H as [Hn H].
      split; [congruence | exact H]. }
    repeat case_match; cbn [fst];
      apply (Hclosed _ Hdel); reflexivity.
  - assert (Hsame : forall s a, users st !! s = Some a ->
                                s <> sid /\ users st !! s = Some a).
    { intros s a H. split; [|exact H]. intros ->. congruence. }
    destruct (Socket.userId sk); cbn [fst];
      apply (Hclosed _ Hsame); reflexivity.
Qed.

Lemma force_disconnect_tables_ok (st : State) (sid : jsstring) :
  tables_ok st -> tables_ok (fst (force_disconnect st sid)).
Proof.
  intros H. unfold force_disconnect.
  pose proof (on_disconnect_tables_ok st sid H) as H'.
  destruct (sockets st !! sid); [|exact H].
  destruct (on_disconnect st sid). exact H'.
Qed.

Lemma ban_out_tables_ok (st : State) (sid : jsstring) :
  tables_ok st -> tables_ok (fst (ban_out st sid)).
Proof.
  intros H. unfold ban_out.
  pose proof (force_disconnect_tables_ok st sid H) as H'.
  destruct (force_disconnect st sid). exact H'.
Qed.

Lemma banSession_tables_ok (acc : State * list Output) (sid : jsstring) :
  tables_ok (fst acc) -> tables_ok (fst (banSession acc sid)).
Proof.
  destruct acc as [st out]. cbn [fst]. intros H. unfold banSession.
  pose proof (ban_out_tables_ok st sid H) as H'.
  destruct (sockets st !! sid).
  - destruct (ban_out st sid) as [st1 o1]. cbn [fst] in *.
    exact (tables_ok_delete_user st1 sid H').
  - exact (tables_ok_delete_user st sid H).
Qed.

Lemma banSessions_fold_tables_ok (l : list jsstring)
  (acc : State * list Output) :
  tables_ok (fst acc) -> tables_ok (fst (fold_left banSession l acc)).
Proof.
  revert acc. induction l as [|s l IH]; intros acc H; [exact H|].
  cbn [fold_left]. apply IH. apply banSession_tables_ok. exact H.
Qed.

Lemma banSessions_tables_ok (st : State) (target : jsstring) :
  tables_ok st -> tables_ok (fst (banSessions st target)).
Proof.
  intros H. unfold banSessions.
  destruct (userSessions st !! target) as [sessions|]; [|exact H].
  pose proof (banSessions_fold_tables_ok (elements sessions) (st, []) H) as H'.
  destruct (fold_left banSession (elements sessions) (st, [])) as [s o].
  cbn [fst] in *. revert H'. apply tables_ok_ext. reflexivity.
Qed.

Lemma attach_tables_ok (st : State) (sid : jsstring) (sk : Socket.t)
  (a : ActiveUser.t) (uid : jsstring) :
  tables_ok st -> sockets st !! sid = Some sk -> ActiveUser.id a <> [] ->
  tables_ok (trackSession (attach st sid sk a) uid sid).
Proof.
  intros [C U] Hs Hne. unfold trackSession, attach. split; state_simpl.
  - rewrite C. symmetry. apply dom_insert_lookup_L. rewrite Hs. eauto.
  - intros s b H. destruct (decide (s = sid)) as [->|Hn].
    + rewrite lookup_insert_eq in H. injection H as <-.
      rewrite lookup_insert_eq. eexists. split; [reflexivity|].
      split; [reflexivity | exact Hne].
    + rewrite lookup_insert_ne in H by congruence.
      rewrite lookup_insert_ne by congruence. exact (U s b H).
Qed.

Lemma on_disconnect_closed (st : State) (sid : jsstring) :
  sockets (fst (on_disconnect st sid)) !! sid = None.
Proof.
  unfold on_disconnect.
  destruct (sockets st !! sid) as [sk|] eqn:Hs; [|exact Hs].
  repeat case_match; cbn [fst]; state_simpl; apply lookup_delete_eq.
Qed.

Lemma ban_out_closed (st : State) (sid : jsstring) :
  sockets (fst (ban_out st sid)) !! sid = None.
Proof.
  unfold ban_out, force_disconnect.
  pose proof (on_disconnect_closed st sid) as H.
  destruct (sockets st !! sid) eqn:Hs; [|exact Hs].
  destruct (on_disconnect st sid). exact H.
Qed.

Lemma rotateOnIpChange_tables (st : State) (user : RegUser.t)
  (ip tok : jsstring) :
  tables (fst (fst (rotateOnIpChange st user ip tok))) = tables st
  /\ RegUser.id (snd (fst (rotateOnIpChange st user ip tok))) = RegUser.id user.
Proof. unfold rotateOnIpChange. case_match; split; reflexivity. Qed.

Lemma on_connection_tables_ok (st : State) (sid ip : jsstring)
  (cookie : option jsstring) (tok : jsstring) :
  tables_ok st -> sockets st !! sid = None ->
  tables_ok (fst (on_connection st sid ip cookie tok)).
Proof.
  intros [C U] Hs.
  assert (Hu : users st !! sid = None).
  { destruct (users st !! sid) as [a|] eqn:E; [|reflexivity].
    destruct (U sid a E) as (sk & H & _). congruence. }
  assert (Hrefused : tables_ok
            (set_allConnections
               (allConnections (set_allConnections
                                  ({[sid]} ∪ allConnections st) st) ∖ {[sid]})
               (set_allConnections ({[sid]} ∪ allConnections st) st))).
  { split; state_simpl; [|exact U]. rewrite C.
    apply set_eq. intros x.
    rewrite elem_of_difference, elem_of_union, elem_of_singleton.
    split; [intros [[->|H] Hn]; [congruence | exact H]|].
    intros H. split; [right; exact H|]. intros ->.
    apply elem_of_dom in H as [y H]. congruence. }
  assert (Hopen : tables_ok
            (set_sockets
               (<[sid := Socket.mk ip None None]>
                  (sockets (set_allConnections
                              ({[sid]} ∪ allConnections st) st)))
               (set_allConnections ({[sid]} ∪ allConnections st) st))).
  { split; state_simpl.
    - rewrite dom_insert_L, C. reflexivity.
    - intros s a H. assert (s <> sid) by congruence.
      rewrite lookup_insert_ne by congruence. exact (U s a H). }
  unfold on_connection.
  destruct (bool_decide _); [exact Hrefused|].
  destruct cookie as [c|]; [|exact Hopen].
  destruct (negb _); [exact Hopen|].
  destruct (validateSessionToken _ _) as [u|]; [|exact Hopen].
  destruct (bool_decide _); [exact Hrefused|].
  match goal with
  | |- context [rotateOnIpChange ?s u ip tok] =>
      destruct (rotateOnIpChange_tables s u ip tok) as [Ht _];
      destruct (rotateOnIpChange s u ip tok) as [[st3 u'] o2]
  end.
  cbn [fst] in *. exact (tables_ok_ext _ _ Ht Hopen).
Qed.

Lemma on_setFingerprint_tables_ok (st : State) (sid : jsstring) (v : JsVal) :
  tables_ok st -> tables_ok (fst (on_setFingerprint st sid v)).
Proof.
  intros [C U]. unfold on_setFingerprint.
  destruct (sockets st !! sid) as [sk|] eqn:Hs; [|split; assumption].
  destruct v as [| | | |fp|]; try (split; assumption).
  destruct (negb _); [split; assumption|].
  assert (H1 : tables_ok
                 (set_sockets
                    (<[sid := Socket.mk (Socket.clientIP sk) (Some fp)
                                (Socket.userId sk)]> (sockets st)) st)).
  { split; state_simpl.
    - rewrite C. symmetry. apply dom_insert_lookup_L. rewrite Hs. eauto.
    - intros s a H. destruct (decide (s = sid)) as [->|Hn].
      + rewrite lookup_insert_eq. destruct (U sid a H) as (sk' & E1 & E2 & E3).
        assert (sk' = sk) by congruence. subst sk'.
        eexists. split; [reflexivity|]. cbn [Socket.userId]. auto.
      + rewrite lookup_insert_ne by congruence. exact (U s a H). }
  destruct (bool_decide _); [|exact H1].
  pose proof (ban_out_tables_ok _ sid H1) as H2.
  pose proof (ban_out_closed
                (set_sockets
                   (<[sid := Socket.mk (Socket.clientIP sk) (Some fp)
                               (Socket.userId sk)]> (sockets st)) st) sid)
    as H3.
  destruct (ban_out _ sid) as [st2 o]. cbn [fst] in *.
  destruct H2 as [C2 U2]. split; state_simpl; [|exact U2].
  rewrite C2. apply set_eq. intros x.
  rewrite elem_of_difference, elem_of_singleton. split; [tauto|].
  intros H. split; [exact H|]. intros ->.
  apply elem_of_dom in H as [y H]. congruence.
Qed.

Lemma registered_id_nonempty (st : State) (k : jsstring) (u : RegUser.t) :
  invariant st -> identities_ok st -> In (k, u) (registeredUsers st) ->
  RegUser.id u <> [].
Proof.
  intros Hinv Hok Hin. rewrite (inv_ids st Hinv k u Hin).
  exact (proj2 (proj2 (ok_tokens st Hok k u Hin))).
Qed.

Lemma deviceLogin_tables_ok (st : State) (sid : jsstring) (sk : Socket.t)
  (u : RegUser.t) (tok : jsstring) (now : Z) :
  tables_ok st -> sockets st !! sid = Some sk -> RegUser.id u <> [] ->
  tables_ok (fst (deviceLogin st sid sk u tok now)).
Proof.
  intros H Hs Hne. unfold deviceLogin.
  destruct (bool_decide _); [exact H|]. cbn [fst].
  apply attach_tables_ok; [|exact Hs|exact Hne].
  revert H. apply tables_ok_ext. reflexivity.
Qed.

Lemma register_tables_ok (st : State) (sid : jsstring) (sk : Socket.t)
  (nickname userId tok : jsstring) (hue now : Z) :
  tables_ok st -> sockets st !! sid = Some sk -> userId <> [] ->
  tables_ok (fst (register st sid sk nickname userId tok hue now)).
Proof.
  intros H Hs Hne. unfold register, emit_error.
  destruct (_ || _); [exact H|].
  destruct (negb _); [exact H|].
  destruct (negb _); [exact H|]. cbn [fst].
  match goal with
  | |- context [attach ?s sid sk ?a] =>
      assert (Ha : tables_ok (trackSession (attach s sid sk a) userId sid))
  end.
  { apply attach_tables_ok; [|destruct (_ && _); exact Hs|exact Hne].
    revert H. apply tables_ok_ext. destruct (_ && _); reflexivity. }
  revert Ha. apply tables_ok_ext.
  destruct (Socket.clientFingerprint sk) as [fp|]; [|reflexivity].
  destruct (truthy_str (Some fp)); reflexivity.
Qed.

Lemma on_setNickname_tables_ok (st st' : State) (sid : jsstring) (v : JsVal)
  (uid tok : jsstring) (hue now : Z) (out : list Output) :
  invariant st -> identities_ok st -> tables_ok st -> uid <> [] ->
  on_setNickname st sid v uid tok hue now = Done st' out ->
  tables_ok st'.
Proof.
  intros Hinv Hok H Hne. unfold on_setNickname.
  destruct (sockets st !! sid) as [sk|] eqn:Hs; [|intros [= <- _]; exact H].
  destruct (socket_banned st sk).
  { pose proof (ban_out_tables_ok st sid H) as H'.
    destruct (ban_out st sid). intros [= <- _]. exact H'. }
  destruct v as [| |b|n|s|o];
    try (match goal with
         | |- (if ?c then _ else _) = _ -> _ => destruct c
         end; [discriminate|]; unfold emit_error; intros [= <- _]; exact H).
  destruct (if truthy (JStr s) && Re.matches deviceCodeShape (toUpperCase s)
            then validateDeviceCode st (JStr (toUpperCase s)) else None)
    as [u|] eqn:Ed.
  - assert (Hv : validateDeviceCode st (JStr (toUpperCase s)) = Some u).
    { destruct (_ && _); [exact Ed | discriminate Ed]. }
    destruct (validateDeviceCode_In st _ u Hv) as (k & Hin).
    pose proof (deviceLogin_tables_ok st sid sk u tok now H Hs
                  (registered_id_nonempty st k u Hinv Hok Hin)) as H'.
    destruct (deviceLogin st sid sk u tok now). intros [= <- _]. exact H'.
  - pose proof (register_tables_ok st sid sk s uid tok hue now H Hs Hne) as H'.
    destruct (register st sid sk s uid tok hue now). intros [= <- _]. exact H'.
Qed.

Lemma on_rejoin_tables_ok (st : State) (sid : jsstring) (v : JsVal)
  (tok : jsstring) (now : Z) :
  invariant st -> identities_ok st -> tables_ok st ->
  tables_ok (fst (on_rejoin st sid v tok now)).
Proof.
  intros Hinv Hok H. unfold on_rejoin, emit_error.
  destruct (sockets st !! sid) as [sk|] eqn:Hs; [|exact H].
  destruct (socket_banned st sk); [exact (ban_out_tables_ok st sid H)|].
  destruct (_ || _); [exact H|].
  destruct (validateSessionToken st _) as [u|] eqn:Hv; [|exact H].
  destruct (bool_decide _); [exact H|].
  destruct (validateSessionToken_In st _ u Hv) as (k & Hin).
  pose proof (registered_id_nonempty st k u Hinv Hok Hin) as Hne.
  destruct (rotateOnIpChange_tables st u (Socket.clientIP sk) tok) as [Ht Hi].
  destruct (rotateOnIpChange st u (Socket.clientIP sk) tok) as [[st1 u'] o1].
  cbn [fst snd] in *.
  injection Ht as E1 E2 E3.
  apply attach_tables_ok.
  - revert H. apply tables_ok_ext. unfold tables. congruence.
  - rewrite E2. exact Hs.
  - cbn [ActiveUser.id]. rewrite Hi. exact Hne.
Qed.

Lemma on_generateDeviceCode_tables (st : State) (sid : jsstring) (rnd : Rand) :
  tables (fst (on_generateDeviceCode st sid rnd)) = tables st.
Proof. unfold on_generateDeviceCode, emit_error. repeat case_match; reflexivity. Qed.

Lemma on_message_tables (st st' : State) (sid : jsstring) (v : JsVal)
  (mid : jsstring) (now : Z) (out : list Output) :
  on_message st sid v mid now = Done st' out -> tables st' = tables st.
Proof.
  unfold on_message. intros H.
  repeat case_match; try discriminate; injection H as <- _; reflexivity.
Qed.

Lemma banRecords_tables (st : State) (target : jsstring) (data : RegUser.t) :
  tables (banRecords st target data) = tables st.
Proof. unfold banRecords. repeat case_match; reflexivity. Qed.

Lemma banMessages_tables (st : State) (target : jsstring) :
  tables (fst (banMessages st target)) = tables st.
Proof.
  unfold banMessages. destruct (removeMessagesOf _ _). reflexivity.
Qed.

Lemma on_banUser_tables_ok (st : State) (sid : jsstring) (v : JsVal) :
  tables_ok st -> tables_ok (fst (on_banUser st sid v)).
Proof.
  intros H. unfold on_banUser, emit_error.
  destruct (sockets st !! sid) as [sk|]; [|exact H].
  destruct (_ || _); [exact H|].
  destruct v as [| | | |target|]; try exact H.
  destruct (JsMap.get _ _) as [data|]; [|exact H].
  destruct (bool_decide _); [exact H|].
  pose proof (banMessages_tables (banRecords st target data) target) as E5.
  destruct (banMessages (banRecords st target data) target) as [st5 o5].
  cbn [fst] in E5.
  assert (H5 : tables_ok st5).
  { apply (tables_ok_ext st); [|exact H].
    rewrite E5. apply banRecords_tables. }
  pose proof (banSessions_tables_ok st5 target H5) as H6.
  destruct (banSessions st5 target) as [st6 o6]. cbn [fst] in *.
  revert H6. apply tables_ok_ext. reflexivity.
Qed.

Lemma step_tables_ok (st : State) (ev : Event) (st' : State)
  (out : list Output) :
  invariant st -> identities_ok st -> tables_ok st -> runtime_fresh st ev ->
  step st ev = Done st' out -> tables_ok st'.
Proof.
  intros Hinv Hok H Hf.
  destruct ev; cbn [step runtime_fresh] in *; unfold ok.
  - intros [= <- _]. apply on_connection_tables_ok; [exact H | tauto].
  - intros [= <- _]. apply on_setFingerprint_tables_ok; exact H.
  - apply on_setNickname_tables_ok; [exact Hinv|exact Hok|exact H|tauto].
  - intros [= <- _]. apply on_rejoin_tables_ok; assumption.
  - intros [= <- _]. revert H. apply tables_ok_ext.
    apply on_generateDeviceCode_tables.
  - intros Hs. revert H. apply tables_ok_ext.
    exact (on_message_tables _ _ _ _ _ _ _ Hs).
  - intros [= <- _]. apply on_banUser_tables_ok; exact H.
  - intros [= <- _]. apply on_disconnect_tables_ok; exact H.
  - intros [= <- _]. revert H. apply tables_ok_ext.
    unfold on_clearBans. case_match; reflexivity.
  - intros [= <- _]. unfold on_clearUsers.
    destruct (negb _); [exact H|]. destruct H as [C U].
    split; state_simpl; [exact C|].
    intros s a Hs. rewrite lookup_empty in Hs. discriminate Hs.
  - intros [= <- _]. revert H. apply tables_ok_ext.
    unfold on_unbanIp. repeat case_match; reflexivity.
  - intros [= <- _]. revert H. apply tables_ok_ext. reflexivity.
Qed.

Lemma live_tables_ok (st : State) : live st -> tables_ok st.
Proof.
  induction 1 as [|st ev st' out Hl IH Hf Hs|st saved loaded Hl IH].
  - exact tables_ok_init.
  - exact (step_tables_ok st ev st' out (live_invariant st Hl)
             (live_identities_ok st Hl) IH Hf Hs).
  - exact (tables_ok_ext init (restart st saved loaded) eq_refl tables_ok_init).
Qed.

(** X16: in every live state the connections that are counted are exactly
    the sockets that are open, and every socket with an entry in [users] is
    open and carries the user id of that entry, which is not empty: the
    online count that the server broadcasts is the number of open sockets,
    and never less than the number of logged-in sockets. *)
Theorem online_count_is_open_sockets (st : State) :
  live st ->
  allConnections st = dom (sockets st)
  /\ (forall sid a,
         users st !! sid = Some a ->
         exists sk, sockets st !! sid = Some sk
                    /\ Socket.userId sk = Some (ActiveUser.id a)
                    /\ ActiveUser.id a <> [])
  /\ (size (users st) <= size_of (allConnections st))%nat.
Proof.
  intros Hl. destruct (live_tables_ok st Hl) as [C U].
  split; [exact C|]. split; [exact U|].
  unfold size_of. rewrite C, <- (size_dom (D := gset jsstring) (users st)).
  apply subseteq_size. intros s Hs.
  apply elem_of_dom in Hs as [a Hs]. destruct (U s a Hs) as (sk & H & _).
  apply elem_of_dom. eauto.
Qed.

Lemma online_count_is_open_sockets_witness :
  allConnections two_users = dom (sockets two_users).
Proof. exact (proj1 (online_count_is_open_sockets two_users two_users_live)). Defined.
